(** * OpenID Attribute Exchange (openid/ax.py): a shallow embedding

    The module is Python 2 code (it iterates dictionaries with
    [iteritems]/[itervalues]).  Dictionaries are finite maps ([gmap]); the
    order in which a dictionary is iterated is the order of [map_to_list],
    an arbitrary but fixed order, as in Python 2.  Exceptions are values of
    [exn]; a method that mutates [self] is a function from the state before
    the call to an outcome and the state after it, so that the state left
    behind by a call that raises can be examined. *)

From Stdlib Require Import ZArith Lia Ascii String.
From stdpp Require Import base option list gmap strings pretty.

Local Open Scope string_scope.
Local Open Scope Z_scope.
Local Open Scope list_scope.

(** ** Exceptions and outcomes *)

(** The [ValueError]s of the module, told apart by the place that raises. *)
Inductive value_error : Type :=
  | InvalidIntLiteral (s : string)        (* int(count_s) *)
  | CannotAddMoreValues (type_uri : string)          (* FetchResponse.addValue *)
  | MoreThanAllowedValues (type_uri : string)        (* FetchResponse.setValues *)
  | MoreThanRequestedValues (type_uri : string)      (* FetchResponse.getExtensionArgs *)
  | TooManyValuesToUnpack                 (* (value,) = values *)
  | NotRequiredNorIfAvailable (type_uri : string)    (* FetchRequest.parseExtensionArgs *)
  | MoreThanOneValue (type_uri : string). (* FetchResponse.getSingle *)

Inductive exn : Type :=
  | AXError (got : option string)   (* AXError('Expected mode %r; got %r') *)
  | KeyError (key : string)
  | ValueError (what : value_error)
  | AttributeError                  (* attribute access on None *)
  | TypeError.                      (* iteration over a non-sequence *)

Inductive result (A : Type) : Type :=
  | Ok (a : A)
  | Raise (e : exn).
Arguments Ok {A} a.
Arguments Raise {A} e.

Definition bind {A B} (m : result A) (k : A → result B) : result B :=
  match m with
  | Ok a => k a
  | Raise e => Raise e
  end.

Notation "'let!' x ':=' m 'in' k" := (bind m (λ x, k))
  (at level 10, x pattern, m at level 100, k at level 200).

(** A loop [for x in l: acc = body(x, acc)] whose body may raise. *)
Fixpoint for_each {A B} (body : B → A → result A) (l : list B) (acc : A)
    : result A :=
  match l with
  | [] => Ok acc
  | x :: l' => let! acc' := body x acc in for_each body l' acc'
  end.

(** A method on [self]: the outcome together with [self] after the call. *)
Definition M (S A : Type) : Type := S → result A * S.

Definition mreturn {S A} (a : A) : M S A := λ s, (Ok a, s).
Definition mraise {S A} (e : exn) : M S A := λ s, (Raise e, s).
Definition mlift {S A} (r : result A) : M S A := λ s, (r, s).
Definition mget {S} : M S S := λ s, (Ok s, s).
Definition mput {S} (s : S) : M S unit := λ _, (Ok tt, s).
Definition mseq {S A B} (m : M S A) (k : A → M S B) : M S B :=
  λ s, match m s with
       | (Ok a, s') => k a s'
       | (Raise e, s') => (Raise e, s')
       end.

Notation "'let*' x ':=' m 'in' k" := (mseq m (λ x, k))
  (at level 10, x pattern, m at level 100, k at level 200).

(** A loop over [l] that carries the local variables [acc] and mutates
    [self]. *)
Fixpoint mfor_each {S A B} (body : B → A → M S A) (l : list B) (acc : A)
    : M S A :=
  match l with
  | [] => mreturn acc
  | x :: l' => let* acc' := body x acc in mfor_each body l' acc'
  end.

(** ** The Python built-ins the module uses *)

Module Py.

(** [s[n:]] *)
Fixpoint slice_from (n : nat) (s : string) : string :=
  match n, s with
  | O, _ => s
  | S n', String _ s' => slice_from n' s'
  | S _, EmptyString => EmptyString
  end.

(** [s.startswith(p)] *)
Definition startswith (p s : string) : bool := String.prefix p s.

(** [s.split(c)] for a one-character separator: the pieces between the
    separators, at least one piece. *)
Fixpoint split_go (c : ascii) (cur : string) (s : string) : list string :=
  match s with
  | EmptyString => [String.rev cur]
  | String a s' =>
      if Ascii.eqb a c then String.rev cur :: split_go c EmptyString s'
      else split_go c (String a cur) s'
  end.
Definition split (c : ascii) (s : string) : list string :=
  split_go c EmptyString s.

(** [sep.join(l)] *)
Fixpoint join (sep : string) (l : list string) : string :=
  match l with
  | [] => ""
  | [x] => x
  | x :: l' => x +:+ sep +:+ join sep l'
  end.

(** [str(n)] for an integer. *)
Definition str (n : Z) : string := pretty n.

Definition is_space (a : ascii) : bool :=
  let n := nat_of_ascii a in
  (n =? 32)%nat || ((9 <=? n)%nat && (n <=? 13)%nat).

Fixpoint lstrip (s : string) : string :=
  match s with
  | String a s' => if is_space a then lstrip s' else s
  | EmptyString => EmptyString
  end.
Definition strip (s : string) : string :=
  String.rev (lstrip (String.rev (lstrip s))).

Definition digit (a : ascii) : option Z :=
  let n := nat_of_ascii a in
  if (48 <=? n)%nat && (n <=? 57)%nat then Some (Z.of_nat n - 48) else None.

Fixpoint digits (acc : Z) (s : string) : option Z :=
  match s with
  | EmptyString => Some acc
  | String a s' =>
      match digit a with
      | Some d => digits (10 * acc + d) s'
      | None => None
      end
  end.

Definition unsigned (s : string) : option Z :=
  match s with
  | EmptyString => None
  | _ => digits 0 s
  end.

(** [int(s)] for a string: surrounding whitespace, an optional sign and
    one or more decimal digits; anything else is a [ValueError].  A string
    here is a sequence of 8-bit characters and is read as [int] reads a
    [str]: the white space and the digits are the ASCII ones.  ([int] of a
    [unicode] string also takes the other decimal digits and spaces of
    Unicode, which these strings cannot hold; the statements below rely
    only on [int] being a function and on the values it gives on ASCII
    numerals.) *)
Definition int (s : string) : result Z :=
  let body := strip s in
  let parsed :=
    match body with
    | String "-"%char s' => Z.opp <$> unsigned s'
    | String "+"%char s' => unsigned s'
    | _ => unsigned body
    end in
  match parsed with
  | Some n => Ok n
  | None => Raise (ValueError (InvalidIntLiteral s))
  end.

(** Truth value of a string or [None]: [None] and the empty string are
    false. *)
Definition truthy (s : option string) : bool :=
  match s with
  | None | Some "" => false
  | Some _ => true
  end.

(** [n == c] between an integer and a value that is an integer or [None]:
    an integer never equals [None]. *)
Definition eq_int (n : Z) (c : option Z) : bool :=
  match c with
  | None => false
  | Some m => n =? m
  end.

(** [n > c] between an integer and a value that is an integer or [None].
    Python 2 orders objects of different types; [None] is smaller than
    every other object, so [n > None] is true. *)
Definition gt_int (n : Z) (c : option Z) : bool :=
  match c with
  | None => true
  | Some m => n >? m
  end.

(** [len(l)] *)
Definition len {A} (l : list A) : Z := Z.of_nat (length l).

(** [range(1, n + 1)] *)
Definition range1 (n : Z) : list Z := Z.of_nat <$> seq 1 (Z.to_nat n).

End Py.

(** A dictionary of unqualified attribute exchange arguments,
    [{unicode: unicode}]. *)
Notation args := (gmap string string).

(** Where the program passes [None] for a dictionary, the argument is an
    [option args]. *)

(** ** openid.message.NamespaceMap *)

Module NamespaceMap.

(** Modelled from the spec: the class [NamespaceMap] of [openid.message] is
    not among the sources.  The spec describes it as a bidirectional,
    injective mapping between a URI and a short alias, with [addAlias(uri,
    alias)] failing on a conflicting rebinding, [add(uri)] allocating a
    fresh alias, [getNamespaceURI(alias)], and iteration over (uri, alias)
    pairs.  The two directions are kept as two dictionaries. *)
Record t : Type := mk {
  alias_to_namespace : gmap string string;
  namespace_to_alias : gmap string string
}.

Definition new : t := mk ∅ ∅.

Definition getNamespaceURI (alias : string) (self : t) : option string :=
  alias_to_namespace self !! alias.

Definition getAlias (namespace_uri : string) (self : t) : option string :=
  namespace_to_alias self !! namespace_uri.

Definition iteritems (self : t) : list (string * string) :=
  map_to_list (namespace_to_alias self).

Definition iterNamespaceURIs (self : t) : list string :=
  (map_to_list (namespace_to_alias self)).*1.

(** Modelled from the spec: binding fails (a [KeyError]) when the alias is
    already bound to another URI, or the URI to another alias; otherwise
    both directions are recorded and the alias is returned. *)
Definition addAlias (namespace_uri desired_alias : string) (self : t)
    : result (string * t) :=
  let recorded :=
    mk (<[desired_alias := namespace_uri]> (alias_to_namespace self))
       (<[namespace_uri := desired_alias]> (namespace_to_alias self)) in
  let bind_uri :=
    match namespace_to_alias self !! namespace_uri with
    | Some alias =>
        if decide (alias = desired_alias) then Ok (desired_alias, recorded)
        else Raise (KeyError namespace_uri)
    | None => Ok (desired_alias, recorded)
    end in
  match alias_to_namespace self !! desired_alias with
  | Some current =>
      if decide (current = namespace_uri) then bind_uri
      else Raise (KeyError desired_alias)
  | None => bind_uri
  end.

(** The candidate aliases of the allocator: ext0, ext1, ... *)
Definition numbered (i : nat) : string := "ext" +:+ pretty i.

(** Modelled from the spec: [add] returns the alias the URI already has, or
    else binds it to the first numbered alias that is not taken.  Among
    [size + 1] candidates one is free, which bounds the search. *)
Definition add (namespace_uri : string) (self : t) : result (string * t) :=
  match namespace_to_alias self !! namespace_uri with
  | Some alias => Ok (alias, self)
  | None =>
      match
        list_find (λ i, alias_to_namespace self !! numbered i = None)
                  (seq 0 (S (size (alias_to_namespace self))))
      with
      | Some (_, i) => addAlias namespace_uri (numbered i) self
      | None => Raise (KeyError namespace_uri)
      end
  end.

End NamespaceMap.

(** ** AXMessage *)

Definition ns_alias : string := "ax".
Definition ns_uri : string := "http://openid.net/srv/ax/1.0".

(** [AXMessage._checkMode], for a class whose [mode] is [mode].  With
    [ax_args = None] the call [ax_args.get] is an [AttributeError]. *)
Definition _checkMode (mode : string) (ax_args : option args) : result unit :=
  match ax_args with
  | None => Raise AttributeError
  | Some d =>
      let got := d !! "mode" in
      if decide (got = Some mode) then Ok tt else Raise (AXError got)
  end.

(** [AXMessage._newArgs] *)
Definition _newArgs (mode : string) : args := {[ "mode" := mode ]}.

(** ** AttrInfo *)

Module AttrInfo.

Record t : Type := mk {
  required : bool;
  count : option Z;       (* an integer, or None *)
  type_uri : string;
  alias : option string   (* a string, or None *)
}.

(** [AttrInfo(type_uri, count=None, required=False, alias=None)] *)
Definition new (type_uri : string) (count : option Z) (required : bool)
    (alias : option string) : t :=
  mk required count type_uri alias.

(** [attr.required = b] *)
Definition set_required (b : bool) (a : t) : t :=
  mk b (count a) (type_uri a) (alias a).

(** [attr.count = c] *)
Definition set_count (c : option Z) (a : t) : t :=
  mk (required a) c (type_uri a) (alias a).

End AttrInfo.

(** ** toTypeURIs *)

(** The body of the loop: the type URI of one alias is appended. *)
Definition resolve_alias (namespace_map : NamespaceMap.t) (alias : string)
    (uris : list string) : result (list string) :=
  match NamespaceMap.getNamespaceURI alias namespace_map with
  | None => Raise (KeyError alias)
  | Some type_uri => Ok (uris ++ [type_uri])
  end.

(** [alias_list_s] is a string or [None]; an empty string or [None] gives
    the empty list. *)
Definition toTypeURIs (namespace_map : NamespaceMap.t)
    (alias_list_s : option string) : result (list string) :=
  match alias_list_s with
  | Some s =>
      if Py.truthy alias_list_s then
        for_each (resolve_alias namespace_map) (Py.split "," s) []
      else Ok []
  | None => Ok []
  end.

(** ** parseAXValues *)

(** The key ['value.%s.%d' % (alias, i)]. *)
Definition value_key (alias : string) (i : Z) : string :=
  "value." +:+ alias +:+ "." +:+ Py.str i.

(** [ax_args[key]] *)
Definition getitem {V} (d : gmap string V) (key : string) : result V :=
  match d !! key with
  | Some v => Ok v
  | None => Raise (KeyError key)
  end.

(** The first loop of [parseAXValues] and of
    [FetchRequest.parseExtensionArgs]: is [key] a [type.<alias>] key? *)
Definition type_alias (key : string) : option string :=
  if Py.startswith "type." key then Some (Py.slice_from 5 key) else None.

(** The body of the inner loop: [values.append(ax_args[value_key])]. *)
Definition read_value (ax_args : args) (alias : string) (i : Z)
    (values : list string) : result (list string) :=
  let! value := getitem ax_args (value_key alias i) in
  Ok (values ++ [value]).

(** The body of the second loop: the values of one (type_uri, alias) pair and
    whether the pair goes to [singletons]. *)
Definition parse_values (ax_args : args) (alias : string)
    : result (bool * list string) :=
  match ax_args !! ("count." +:+ alias) with
  | None =>
      let! value := getitem ax_args ("value." +:+ alias) in
      Ok (true, if decide (value = "") then [] else [value])
  | Some count_s =>
      let! count := Py.int count_s in
      let! values := for_each (read_value ax_args alias) (Py.range1 count) [] in
      Ok (false, values)
  end.

(** The body of the first loop: [aliases.addAlias(type_uri, alias)] for a
    key that starts with [type.]. *)
Definition bind_type (key value : string) (aliases : NamespaceMap.t)
    : result NamespaceMap.t :=
  match type_alias key with
  | Some alias =>
      let! (_, aliases') := NamespaceMap.addAlias value alias aliases in
      Ok aliases'
  | None => Ok aliases
  end.

(** The second loop's step on [singletons] and [data]. *)
Definition store_values (ax_args : args) (type_uri alias : string)
    (acc : list string * gmap string (list string))
    : result (list string * gmap string (list string)) :=
  let! (single, values) := parse_values ax_args alias in
  Ok (if single then acc.1 ++ [type_uri] else acc.1,
      <[type_uri := values]> acc.2).

Definition parseAXValues (ax_args : args)
    : result (list string * gmap string (list string)) :=
  let! aliases :=
    for_each (uncurry bind_type) (map_to_list ax_args) NamespaceMap.new in
  for_each (uncurry (store_values ax_args))
           (NamespaceMap.iteritems aliases) ([], ∅).

(** ** FetchRequest *)

Module FetchRequest.

Definition mode : string := "fetch_request".

Record t : Type := mk {
  requested_attributes : gmap string AttrInfo.t;
  update_url : option string
}.

(** [FetchRequest(update_url=None)] *)
Definition new (update_url : option string) : t := mk ∅ update_url.

Definition add (attribute : AttrInfo.t) : M t unit :=
  let* self := mget in
  match requested_attributes self !! AttrInfo.type_uri attribute with
  | Some _ => mraise (KeyError (AttrInfo.type_uri attribute))
  | None =>
      mput (mk (<[AttrInfo.type_uri attribute := attribute]>
                  (requested_attributes self))
               (update_url self))
  end.

(** The local variables of [getExtensionArgs]. *)
Record locals : Type := mkLocals {
  aliases : NamespaceMap.t;
  required : list string;
  if_available : list string;
  ax_args : args
}.

(** The body of the loop of [getExtensionArgs]. *)
Definition emit_attribute (type_uri : string) (attribute : AttrInfo.t)
    (l : locals) : result locals :=
  let! (alias, aliases') :=
    match AttrInfo.alias attribute with
    | None => NamespaceMap.add type_uri (aliases l)
    | Some a => NamespaceMap.addAlias type_uri a (aliases l)
    end in
  let required' :=
    if AttrInfo.required attribute then required l ++ [alias]
    else required l in
  let if_available' :=
    if AttrInfo.required attribute then if_available l
    else if_available l ++ [alias] in
  let ax_args' :=
    match AttrInfo.count attribute with
    | Some c => <["count." +:+ alias := Py.str c]> (ax_args l)
    | None => ax_args l
    end in
  Ok (mkLocals aliases' required' if_available'
               (<["type." +:+ alias := type_uri]> ax_args')).

Definition getExtensionArgs (self : t) : result args :=
  let! l :=
    for_each (uncurry emit_attribute)
             (map_to_list (requested_attributes self))
             (mkLocals NamespaceMap.new [] [] (_newArgs mode)) in
  let ax_args1 :=
    match required l with
    | [] => ax_args l
    | _ => <["required" := Py.join "," (required l)]> (ax_args l)
    end in
  let ax_args2 :=
    match if_available l with
    | [] => ax_args1
    | _ => <["if_available" := Py.join "," (if_available l)]> ax_args1
    end in
  Ok ax_args2.

Definition getRequiredAttrs (self : t) : list string :=
  foldl (λ required '(type_uri, attribute),
           if AttrInfo.required attribute then required ++ [type_uri]
           else required)
        [] (map_to_list (requested_attributes self)).

(** [self.requested_attributes[type_uri].required = True] *)
Definition mark_required (type_uri : string) : M t unit :=
  let* self := mget in
  let* attribute := mlift (getitem (requested_attributes self) type_uri) in
  mput (mk (<[type_uri := AttrInfo.set_required true attribute]>
              (requested_attributes self))
           (update_url self)).

(** [if count_s: count = int(count_s) else: count = None], for the
    [count_s] that [ax_args.get] gives: a string or [None]. *)
Definition parse_count (count_s : option string) : result (option Z) :=
  match count_s with
  | Some s =>
      if Py.truthy count_s then let! n := Py.int s in Ok (Some n)
      else Ok None
  | None => Ok None
  end.

(** The body of the first loop of [parseExtensionArgs], for a key that
    starts with [type.]. *)
Definition parse_type (ax_args : args) (alias type_uri : string)
    (aliases : NamespaceMap.t) : M t NamespaceMap.t :=
  let* (_, aliases') := mlift (NamespaceMap.addAlias type_uri alias aliases) in
  let count_s := ax_args !! ("count." +:+ alias) in
  let attr_req := AttrInfo.new type_uri None false (Some alias) in
  let* count := mlift (parse_count count_s) in
  let attr_req := AttrInfo.set_count count attr_req in
  let* _ := add attr_req in
  mreturn aliases'.

(** The body of the first loop of [parseExtensionArgs]. *)
Definition request_type (ax_args : args) (key value : string)
    (aliases : NamespaceMap.t) : M t NamespaceMap.t :=
  match type_alias key with
  | Some alias => parse_type ax_args alias value aliases
  | None => mreturn aliases
  end.

(** The body of the last loop: a type URI in neither list is a
    [ValueError]. *)
Definition check_listed (all_type_uris : list string) (type_uri : string)
    (_ : unit) : result unit :=
  if bool_decide (type_uri ∈ all_type_uris) then Ok tt
  else Raise (ValueError (NotRequiredNorIfAvailable type_uri)).

Definition parseExtensionArgs (ax_args : option args) : M t unit :=
  let* _ := mlift (_checkMode mode ax_args) in
  match ax_args with
  | None => mraise AttributeError
  | Some d =>
      let* aliases :=
        mfor_each (uncurry (request_type d)) (map_to_list d)
                  NamespaceMap.new in
      let* required := mlift (toTypeURIs aliases (d !! "required")) in
      let* _ :=
        mfor_each (λ type_uri _, mark_required type_uri) required tt in
      let* if_available := mlift (toTypeURIs aliases (d !! "if_available")) in
      let all_type_uris := required ++ if_available in
      let* _ :=
        mlift (for_each (check_listed all_type_uris)
                        (NamespaceMap.iterNamespaceURIs aliases) tt) in
      let* self := mget in
      mput (mk (requested_attributes self) (d !! "update_url"))
  end.

(** [fromOpenIDRequest], given the arguments [message.getArgs(cls.ns_uri)]. *)
Definition fromOpenIDRequest (message_args : args) : result t :=
  match parseExtensionArgs (Some message_args) (new None) with
  | (Ok _, self) => Ok self
  | (Raise e, _) => Raise e
  end.

(** [iterAttrs], [iter], [has_key] *)
Definition iterAttrs (self : t) : list AttrInfo.t :=
  (map_to_list (requested_attributes self)).*2.

Definition iter (self : t) : list string :=
  (map_to_list (requested_attributes self)).*1.

Definition has_key (type_uri : string) (self : t) : bool :=
  bool_decide (is_Some (requested_attributes self !! type_uri)).

End FetchRequest.

(** ** FetchResponse *)

(** Modelled from the spec: the class [SuccessResponse] of
    [openid.consumer.consumer] is not among the sources.  What
    [fromSuccessResponse] uses of it is the extraction of the arguments of a
    namespace, either all of them ([message.getArgs]) or only the signed
    ones ([getSignedNS], which may give [None]). *)
Record SuccessResponse : Type := mkSuccessResponse {
  getSignedNS : string → option args;
  message_getArgs : string → args
}.

Module FetchResponse.

Definition mode : string := "fetch_response".

Record t : Type := mk {
  request : option FetchRequest.t;     (* a FetchRequest, or None *)
  data : gmap string (list string);
  update_url : option string
}.

(** [FetchResponse()]: the object the constructor gives when [request] is
    [None]; the block under [if request:] is skipped. *)
Definition unbound : t := mk None ∅ None.

(** [FetchResponse(request=None)].  A request object is true, and the
    constructor then runs [for type_uri in self.request].  [FetchRequest]
    defines [iter], [has_key] and [__contains__] but neither [__iter__] nor
    [__getitem__], so the loop raises [TypeError] before its first turn and
    no object is constructed.  A response with a request exists only where
    the attributes have been assigned one by one, which is how the states of
    [Sample] below are given. *)
Definition new (request : option FetchRequest.t) : result t :=
  let self := mk request ∅ None in
  match request with
  | Some _ => Raise TypeError
  | None => Ok self
  end.

(** [self.request.requested_attributes[type_uri].count]: an
    [AttributeError] when [self.request] is [None], a [KeyError] when the
    request has no such attribute. *)
Definition num_allowed_for (type_uri : string) (self : t)
    : result (option Z) :=
  match request self with
  | None => Raise AttributeError
  | Some req =>
      let! attribute :=
        getitem (FetchRequest.requested_attributes req) type_uri in
      Ok (AttrInfo.count attribute)
  end.

Definition addValue (type_uri value : string) : M t unit :=
  let* self := mget in
  let* num_allowed := mlift (num_allowed_for type_uri self) in
  let* values := mlift (getitem (data self) type_uri) in
  if Py.eq_int (Py.len values) num_allowed then
    mraise (ValueError (CannotAddMoreValues type_uri))
  else
    mput (mk (request self)
             (<[type_uri := values ++ [value]]> (data self))
             (update_url self)).

Definition setValues (type_uri : string) (values : list string) : M t unit :=
  let* self := mget in
  let num_set := Py.len values in
  let* num_allowed := mlift (num_allowed_for type_uri self) in
  if Py.gt_int num_set num_allowed then
    mraise (ValueError (MoreThanAllowedValues type_uri))
  else
    match data self !! type_uri with
    | None => mraise (KeyError type_uri)
    | Some _ =>
        mput (mk (request self) (<[type_uri := values]> (data self))
                 (update_url self))
    end.

(** [for i, value in enumerate(values): ax_args['value.%s.%d' % (alias, i + 1)] = value] *)
Definition emit_values (alias : string) (values : list string) (ax_args : args)
    : args :=
  foldl (λ ax_args '(i, value),
           <[value_key alias (Z.of_nat i + 1) := value]> ax_args)
        ax_args (imap (λ i value, (i, value)) values).

(** The body of the loop of [getExtensionArgs]. *)
Definition emit_attribute (self : t) (type_uri : string)
    (attr_request : AttrInfo.t) (st : args * NamespaceMap.t)
    : result (args * NamespaceMap.t) :=
  let '(ax_args, aliases) := st in
  let! values := getitem (data self) type_uri in
  let! (alias, aliases') :=
    match AttrInfo.alias attr_request with
    | None => NamespaceMap.add type_uri aliases
    | Some a => NamespaceMap.addAlias type_uri a aliases
    end in
  if Py.gt_int (Py.len values) (AttrInfo.count attr_request) then
    Raise (ValueError (MoreThanRequestedValues type_uri))
  else
    let! ax_args' :=
      match AttrInfo.count attr_request with
      | None =>
          let! value :=
            match values with
            | [] => Ok ""
            | [value] => Ok value
            | _ => Raise (ValueError TooManyValuesToUnpack)
            end in
          Ok (<["value." +:+ alias := value]> ax_args)
      | Some _ =>
          Ok (<["count." +:+ alias := Py.str (Py.len values)]>
                (emit_values alias values ax_args))
      end in
    Ok (<["type." +:+ alias := type_uri]> ax_args', aliases').

(** The dictionary [ax_args] that [getExtensionArgs] has built when its loop
    ends. *)
Definition built_args (self : t) : result args :=
  let ax_args := _newArgs mode in
  let ax_args :=
    if Py.truthy (update_url self) then
      match update_url self with
      | Some u => <["update_url" := u]> ax_args
      | None => ax_args
      end
    else ax_args in
  let aliases := NamespaceMap.new in
  match request self with
  | None => Raise AttributeError
  | Some req =>
      let! (ax_args', _) :=
        for_each (uncurry (emit_attribute self))
                 (map_to_list (FetchRequest.requested_attributes req))
                 (ax_args, aliases) in
      Ok ax_args'
  end.

(** [getExtensionArgs] has no [return] statement: when the loop ends without
    an exception the call gives [None]. *)
Definition getExtensionArgs (self : t) : result (option args) :=
  let! _ := built_args self in
  Ok None.

Definition parseExtensionArgs (ax_args : option args) : M t unit :=
  let* _ := mlift (_checkMode mode ax_args) in
  match ax_args with
  | None => mraise AttributeError
  | Some d =>
      let* (_, data') := mlift (parseAXValues d) in
      let* self := mget in
      mput (mk (request self) data' (d !! "update_url"))
  end.

(** [fromSuccessResponse] ends after [self.parseExtensionArgs(ax_args)],
    without a [return] statement. *)
Definition fromSuccessResponse (success_response : SuccessResponse)
    (signed : bool) : result (option t) :=
  let! self := new None in
  let ax_args :=
    if signed then getSignedNS success_response ns_uri
    else Some (message_getArgs success_response ns_uri) in
  match parseExtensionArgs ax_args self with
  | (Ok _, _) => Ok None
  | (Raise e, _) => Raise e
  end.

(** [default] and the value returned are a string or [None]. *)
Definition getSingle (type_uri : string) (default : option string) (self : t)
    : result (option string) :=
  let! values := getitem (data self) type_uri in
  match values with
  | [] => Ok default
  | [value] => Ok (Some value)
  | _ => Raise (ValueError (MoreThanOneValue type_uri))
  end.

Definition get (type_uri : string) (self : t) : result (list string) :=
  getitem (data self) type_uri.

Definition count (type_uri : string) (self : t) : result Z :=
  let! values := get type_uri self in
  Ok (Py.len values).

End FetchResponse.


(** ** Vocabulary of the statements *)

(** [type.<alias> = type_uri] is among the arguments. *)
Definition declared (d : args) (alias type_uri : string) : Prop :=
  d !! ("type." +:+ alias) = Some type_uri.

(** The aliases of a comma-separated list argument: none when the argument
    is absent or empty. *)
Definition alias_list (alias_list_s : option string) : list string :=
  match alias_list_s with
  | Some s => if Py.truthy alias_list_s then Py.split "," s else []
  | None => []
  end.

(** [type_uri] is the type of an alias named in the list under [key]. *)
Definition listed (d : args) (key type_uri : string) : Prop :=
  ∃ alias, alias ∈ alias_list (d !! key) ∧ declared d alias type_uri.

(** The arguments hold what [parseAXValues] reads for [alias]: with no
    [count.<alias>], a [value.<alias>]; with one, an integer [N] and the
    values [value.<alias>.1] to [value.<alias>.N]. *)
Definition values_given (d : args) (alias : string) : Prop :=
  match d !! ("count." +:+ alias) with
  | None => is_Some (d !! ("value." +:+ alias))
  | Some count_s =>
      ∃ N, Py.int count_s = Ok N
           ∧ ∀ i, 1 ≤ i ≤ N → is_Some (d !! value_key alias i)
  end.

(** What the claim names as failing the parse for [alias]. *)
Definition values_missing (d : args) (alias : string) : Prop :=
  match d !! ("count." +:+ alias) with
  | None => d !! ("value." +:+ alias) = None
  | Some count_s =>
      (∃ e, Py.int count_s = Raise e)
      ∨ (∃ N i, Py.int count_s = Ok N ∧ 1 ≤ i ≤ N
                ∧ d !! value_key alias i = None)
  end.

(** No type URI is declared under two aliases. *)
Definition types_distinct (d : args) : Prop :=
  ∀ alias1 alias2 type_uri,
    declared d alias1 type_uri → declared d alias2 type_uri → alias1 = alias2.

(** Every [count.<alias>] of a declared alias is empty or an integer. *)
Definition counts_readable (d : args) : Prop :=
  ∀ alias type_uri count_s,
    declared d alias type_uri →
    d !! ("count." +:+ alias) = Some count_s →
    count_s = "" ∨ ∃ N, Py.int count_s = Ok N.

(** Every alias named in [required] or [if_available] is declared. *)
Definition lists_declared (d : args) : Prop :=
  ∀ key alias,
    key = "required" ∨ key = "if_available" →
    alias ∈ alias_list (d !! key) →
    ∃ type_uri, declared d alias type_uri.

(** A declared type URI that is in neither list. *)
Definition unlisted (d : args) (type_uri : string) : Prop :=
  (∃ alias, declared d alias type_uri)
  ∧ ¬ listed d "required" type_uri
  ∧ ¬ listed d "if_available" type_uri.

(** What [aliases] holds after a part of the arguments has been read. *)
Definition read_from (processed : list (string * string))
    (nm : NamespaceMap.t) : Prop :=
  (∀ alias type_uri,
     NamespaceMap.alias_to_namespace nm !! alias = Some type_uri →
     ∃ key, (key, type_uri) ∈ processed ∧ type_alias key = Some alias)
  ∧ (∀ type_uri alias,
       NamespaceMap.namespace_to_alias nm !! type_uri = Some alias →
       ∃ key, (key, type_uri) ∈ processed ∧ type_alias key = Some alias).

(** What the first loop of [FetchRequest.parseExtensionArgs] has built
    after a part of the arguments: the aliases read, one attribute per
    bound type URI, none of them required yet. *)
Definition requested_from (processed : list (string * string))
    (url : option string) (nm : NamespaceMap.t) (self : FetchRequest.t)
    : Prop :=
  read_from processed nm
  ∧ (∀ key type_uri alias,
       (key, type_uri) ∈ processed → type_alias key = Some alias →
       NamespaceMap.alias_to_namespace nm !! alias = Some type_uri
       ∧ NamespaceMap.namespace_to_alias nm !! type_uri = Some alias)
  ∧ (∀ type_uri,
       is_Some (FetchRequest.requested_attributes self !! type_uri)
       ↔ is_Some (NamespaceMap.namespace_to_alias nm !! type_uri))
  ∧ (∀ type_uri attribute,
       FetchRequest.requested_attributes self !! type_uri = Some attribute →
       AttrInfo.required attribute = false)
  ∧ FetchRequest.update_url self = url.

(** ** Vocabulary of the further properties *)

(** Every character of [s] satisfies [p]. *)
Fixpoint all_chars (p : ascii → bool) (s : string) : bool :=
  match s with
  | EmptyString => true
  | String a s' => p a && all_chars p s'
  end.

(** [',' not in s] *)
Definition no_comma (s : string) : bool :=
  all_chars (λ a, negb (Ascii.eqb a ",")) s.

(** [a] is one of the characters [0] to [9]. *)
Definition is_digit (a : ascii) : bool :=
  match Py.digit a with Some _ => true | None => false end.

(** A fixed alias, if the attribute has one, is not empty and holds no
    comma. *)
Definition plain_alias (attribute : AttrInfo.t) : bool :=
  match AttrInfo.alias attribute with
  | Some alias => no_comma alias && negb (String.eqb alias "")
  | None => true
  end.

(** What [FetchRequest.getExtensionArgs] has built after a part of the
    attributes. *)
Definition serialized_from (processed : list (string * AttrInfo.t))
    (L : FetchRequest.locals) : Prop :=
  let nm := FetchRequest.aliases L in
  (∀ alias type_uri,
     NamespaceMap.alias_to_namespace nm !! alias = Some type_uri
     ↔ NamespaceMap.namespace_to_alias nm !! type_uri = Some alias)
  ∧ (∀ type_uri,
       is_Some (NamespaceMap.namespace_to_alias nm !! type_uri)
       ↔ type_uri ∈ processed.*1)
  ∧ (∀ type_uri attribute alias,
       (type_uri, attribute) ∈ processed →
       NamespaceMap.namespace_to_alias nm !! type_uri = Some alias →
       AttrInfo.alias attribute = Some alias
       ∨ (AttrInfo.alias attribute = None
          ∧ ∃ i, alias = NamespaceMap.numbered i))
  ∧ (∀ key value,
       FetchRequest.ax_args L !! key = Some value
       ↔ (key = "mode" ∧ value = "fetch_request")
         ∨ (∃ alias, key = "type." +:+ alias
                     ∧ NamespaceMap.alias_to_namespace nm !! alias
                       = Some value)
         ∨ (∃ alias type_uri attribute c,
              key = "count." +:+ alias
              ∧ NamespaceMap.alias_to_namespace nm !! alias = Some type_uri
              ∧ (type_uri, attribute) ∈ processed
              ∧ AttrInfo.count attribute = Some c
              ∧ value = Py.str c))
  ∧ (∀ alias,
       alias ∈ FetchRequest.required L
       ↔ ∃ type_uri attribute,
           (type_uri, attribute) ∈ processed
           ∧ NamespaceMap.namespace_to_alias nm !! type_uri = Some alias
           ∧ AttrInfo.required attribute = true)
  ∧ (∀ alias,
       alias ∈ FetchRequest.if_available L
       ↔ ∃ type_uri attribute,
           (type_uri, attribute) ∈ processed
           ∧ NamespaceMap.namespace_to_alias nm !! type_uri = Some alias
           ∧ AttrInfo.required attribute = false).

(** [for value in values: response.addValue(type_uri, value)] *)
Definition add_values (type_uri : string) (values : list string)
    : M FetchResponse.t unit :=
  mfor_each (λ value _, FetchResponse.addValue type_uri value) values tt.

(** Every attribute of the request is stored under its own type URI. *)
Definition keyed_by_type (self : FetchRequest.t) : Prop :=
  ∀ type_uri attribute,
    FetchRequest.requested_attributes self !! type_uri = Some attribute →
    AttrInfo.type_uri attribute = type_uri.

(** ** Concrete requests and responses *)

Module Sample.

Definition email : string := "http://example.com/email".
Definition name : string := "http://example.com/name".
Definition url : string := "http://example.com/update".

(** [r = FetchRequest(update_url); r.add(AttrInfo(email, count=3))] *)
Definition counted_request : FetchRequest.t :=
  (FetchRequest.add (AttrInfo.new email (Some 3) false None)
                    (FetchRequest.new (Some url))).2.

(** [r = FetchRequest(); r.add(AttrInfo(name, required=True, alias='nm'))] *)
Definition single_request : FetchRequest.t :=
  (FetchRequest.add (AttrInfo.new name None true (Some "nm"))
                    (FetchRequest.new None)).2.

(** [counted_request] without an update URL and with the attribute of
    [single_request] added. *)
Definition mixed_request : FetchRequest.t :=
  (FetchRequest.add (AttrInfo.new name None true (Some "nm"))
     (FetchRequest.add (AttrInfo.new email (Some 3) false None)
                       (FetchRequest.new None)).2).2.

(** Responses with a request, built by assignment:
    [resp = FetchResponse(); resp.request = counted_request;
     resp.data = {email: []}; resp.update_url = counted_request.update_url] *)
Definition counted_response_0 : FetchResponse.t :=
  FetchResponse.mk (Some counted_request) {[ email := [] ]} (Some url).

(** ... with [resp.data = {email: ['a', 'b']}] *)
Definition counted_response : FetchResponse.t :=
  FetchResponse.mk (Some counted_request) {[ email := ["a"; "b"] ]}
                   (Some url).

(** [resp = FetchResponse(); resp.request = single_request;
     resp.data = {name: []}] *)
Definition single_response : FetchResponse.t :=
  FetchResponse.mk (Some single_request) {[ name := [] ]} None.

(** ... with [resp.data = {name: ['x']}] *)
Definition single_response_1 : FetchResponse.t :=
  FetchResponse.mk (Some single_request) {[ name := ["x"] ]} None.

(** [resp = FetchResponse(); resp.request = mixed_request;
     resp.data = {email: [], name: []}] *)
Definition mixed_response : FetchResponse.t :=
  FetchResponse.mk (Some mixed_request) {[ email := []; name := [] ]} None.

(** A fetch_request whose only attribute is required and whose count is not
    a number. *)
Definition bad_count_args : args :=
  <["mode" := "fetch_request"]>
    (<["type.a" := email]>
       (<["count.a" := "x"]> (<["required" := "a"]> ∅))).

(** A fetch_request with a required and an optional attribute. *)
Definition good_args : args :=
  <["mode" := "fetch_request"]>
    (<["type.a" := email]>
       (<["type.b" := name]>
          (<["count.b" := "2"]>
             (<["required" := "a"]> (<["if_available" := "b"]> ∅))))).

(** The same without [if_available]: the optional attribute is in neither
    list. *)
Definition unlisted_args : args := delete "if_available" good_args.

(** A fetch_response with a singleton and a counted attribute. *)
Definition response_args : args :=
  <["mode" := "fetch_response"]>
    (<["type.a" := email]>
       (<["value.a" := ""]>
          (<["type.b" := name]>
             (<["count.b" := "2"]>
                (<["value.b.1" := "x"]> (<["value.b.2" := "y"]> ∅)))))).

(** The same without its last value. *)
Definition truncated_args : args := delete "value.b.2" response_args.

(** A fetch_request that declares one type and lists none. *)
Definition lone_type_args : args :=
  <["mode" := "fetch_request"]> {[ "type.a" := email ]}.

End Sample.

(** * Properties *)

(** ** Outcomes of sequenced calls *)

Lemma mseq_Ok {S A B} (m : M S A) (k : A → M S B) s b s' :
  mseq m k s = (Ok b, s') →
  ∃ a s1, m s = (Ok a, s1) ∧ k a s1 = (Ok b, s').
Proof.
  unfold mseq. destruct (m s) as [[a|e] s1]; [eauto | discriminate].
Qed.

Lemma bind_Ok {A B} (m : result A) (k : A → result B) b :
  bind m k = Ok b → ∃ a, m = Ok a ∧ k a = Ok b.
Proof. destruct m; simpl; [eauto | discriminate]. Qed.

Lemma getitem_Some {V} (d : gmap string V) key v :
  d !! key = Some v → getitem d key = Ok v.
Proof. unfold getitem. by intros ->. Qed.

Lemma getitem_None {V} (d : gmap string V) key :
  d !! key = None → getitem d key = Raise (KeyError key).
Proof. unfold getitem. by intros ->. Qed.

(** ** NamespaceMap.add: the search finds a free alias *)

Lemma numbered_inj : Inj (=) (=) NamespaceMap.numbered.
Proof.
  intros i j Heq. unfold NamespaceMap.numbered in Heq.
  simpl in Heq. injection Heq as Heq. by apply (inj pretty).
Qed.

Lemma add_finds_alias namespace_uri nm :
  NamespaceMap.namespace_to_alias nm !! namespace_uri = None →
  ∃ i, NamespaceMap.alias_to_namespace nm !! NamespaceMap.numbered i = None
       ∧ NamespaceMap.add namespace_uri nm
         = NamespaceMap.addAlias namespace_uri (NamespaceMap.numbered i) nm.
Proof.
  intros Hnew. unfold NamespaceMap.add. rewrite Hnew.
  destruct (list_find _ _) as [[j i]|] eqn:Hfind.
  - apply list_find_Some in Hfind as (_ & Hfree & _). by exists i.
  - exfalso. apply list_find_None in Hfind.
    set (m := NamespaceMap.alias_to_namespace nm) in *.
    set (candidates := NamespaceMap.numbered <$> seq 0 (S (size m))).
    assert (list_to_set candidates ⊆ (dom m : gset string)) as Hsub.
    { intros alias Hin. apply elem_of_list_to_set in Hin.
      apply list_elem_of_fmap in Hin as (i & -> & Hi).
      apply elem_of_dom. rewrite Forall_forall in Hfind.
      specialize (Hfind i Hi). by apply not_eq_None_Some. }
    apply subseteq_size in Hsub.
    rewrite size_dom, size_list_to_set in Hsub.
    + unfold candidates in Hsub. rewrite length_fmap, length_seq in Hsub.
      lia.
    + apply NoDup_fmap; [apply numbered_inj | apply NoDup_seq].
Qed.

(** ** FetchResponse(request): the constructor *)

Lemma new_outcome (request : option FetchRequest.t) :
  FetchResponse.new request
  = match request with
    | Some _ => Raise TypeError
    | None => Ok FetchResponse.unbound
    end.
Proof. by destruct request. Qed.

(** ** FetchResponse: accessors *)

(** C8: for a type URI present in [data], [get] returns the stored sequence,
    [count] its length, and [getSingle] the default for an empty sequence,
    the element of a one-element sequence and a [ValueError] for a longer
    one; for a type URI absent from [data] all three raise [KeyError]. *)
Theorem accessors_spec (self : FetchResponse.t) (type_uri : string)
    (default : option string) :
  (∀ values, FetchResponse.data self !! type_uri = Some values →
     FetchResponse.get type_uri self = Ok values
     ∧ FetchResponse.count type_uri self = Ok (Py.len values)
     ∧ (values = [] →
        FetchResponse.getSingle type_uri default self = Ok default)
     ∧ (∀ value, values = [value] →
        FetchResponse.getSingle type_uri default self = Ok (Some value))
     ∧ ((1 < length values)%nat →
        FetchResponse.getSingle type_uri default self
        = Raise (ValueError (MoreThanOneValue type_uri))))
  ∧ (FetchResponse.data self !! type_uri = None →
     FetchResponse.get type_uri self = Raise (KeyError type_uri)
     ∧ FetchResponse.count type_uri self = Raise (KeyError type_uri)
     ∧ FetchResponse.getSingle type_uri default self
       = Raise (KeyError type_uri)).
Proof.
  split.
  - intros values Hdata.
    unfold FetchResponse.count, FetchResponse.getSingle, FetchResponse.get.
    rewrite (getitem_Some _ _ _ Hdata). simpl.
    repeat split.
    + by intros ->.
    + by intros value ->.
    + destruct values as [|v1 [|v2 rest]]; simpl; [lia | lia | done].
  - intros Hdata.
    unfold FetchResponse.count, FetchResponse.getSingle, FetchResponse.get.
    by rewrite (getitem_None _ _ Hdata).
Qed.

Lemma accessors_spec_witness :
  FetchResponse.get Sample.email Sample.counted_response = Ok ["a"; "b"]
  ∧ FetchResponse.count Sample.email Sample.counted_response = Ok 2
  ∧ FetchResponse.getSingle Sample.email None Sample.counted_response
    = Raise (ValueError (MoreThanOneValue Sample.email))
  ∧ FetchResponse.getSingle Sample.name (Some "d") Sample.single_response
    = Ok (Some "d")
  ∧ FetchResponse.getSingle Sample.name None Sample.single_response_1
    = Ok (Some "x")
  ∧ FetchResponse.get Sample.name Sample.counted_response
    = Raise (KeyError Sample.name).
Proof.
  destruct (accessors_spec Sample.counted_response Sample.email None)
    as [Hin _].
  destruct (Hin ["a"; "b"]) as (Hget & Hcount & _ & _ & Hmany);
    [by vm_compute|].
  destruct (accessors_spec Sample.single_response Sample.name (Some "d"))
    as [Hin0 _].
  destruct (Hin0 []) as (_ & _ & Hnone & _); [by vm_compute|].
  destruct (accessors_spec Sample.single_response_1 Sample.name None)
    as [Hin1 _].
  destruct (Hin1 ["x"]) as (_ & _ & _ & Hone & _); [by vm_compute|].
  destruct (accessors_spec Sample.counted_response Sample.name None)
    as [_ Hout].
  destruct Hout as (Hmiss & _); [by vm_compute|].
  split_and!;
    [ exact Hget | exact Hcount | apply Hmany; simpl; lia
    | by apply Hnone | by apply Hone | exact Hmiss ].
Defined.

(** ** FetchResponse: storing values *)

Lemma num_allowed_for_bound self req attribute type_uri :
  FetchResponse.request self = Some req →
  FetchRequest.requested_attributes req !! type_uri = Some attribute →
  FetchResponse.num_allowed_for type_uri self = Ok (AttrInfo.count attribute).
Proof.
  intros Hreq Hattr. unfold FetchResponse.num_allowed_for.
  by rewrite Hreq, (getitem_Some _ _ _ Hattr).
Qed.

(** C5: with a count [N] declared for [type_uri], [addValue] raises
    [ValueError] exactly when [N] values are stored and otherwise appends;
    [setValues] raises [ValueError] exactly when more than [N] values are
    given and otherwise replaces the sequence; a call that raises leaves the
    response as it was. *)
Theorem count_enforcement (self : FetchResponse.t) (req : FetchRequest.t)
    (attribute : AttrInfo.t) (N : Z) (type_uri : string)
    (stored : list string) :
  FetchResponse.request self = Some req →
  FetchRequest.requested_attributes req !! type_uri = Some attribute →
  AttrInfo.count attribute = Some N →
  FetchResponse.data self !! type_uri = Some stored →
  (∀ value,
     (Py.len stored = N →
      FetchResponse.addValue type_uri value self
      = (Raise (ValueError (CannotAddMoreValues type_uri)), self))
     ∧ (Py.len stored ≠ N →
        FetchResponse.addValue type_uri value self
        = (Ok tt,
           FetchResponse.mk (FetchResponse.request self)
             (<[type_uri := stored ++ [value]]> (FetchResponse.data self))
             (FetchResponse.update_url self))))
  ∧ (∀ values,
       (Py.len values > N →
        FetchResponse.setValues type_uri values self
        = (Raise (ValueError (MoreThanAllowedValues type_uri)), self))
       ∧ (Py.len values ≤ N →
          FetchResponse.setValues type_uri values self
          = (Ok tt,
             FetchResponse.mk (FetchResponse.request self)
               (<[type_uri := values]> (FetchResponse.data self))
               (FetchResponse.update_url self)))).
Proof.
  intros Hreq Hattr Hcount Hdata.
  pose proof (num_allowed_for_bound _ _ _ _ Hreq Hattr) as Hallowed.
  rewrite Hcount in Hallowed.
  split.
  - intros value.
    unfold FetchResponse.addValue, mseq, mget, mlift, mraise, mput.
    rewrite Hallowed, (getitem_Some _ _ _ Hdata). simpl.
    split; intros Hlen.
    + by rewrite (proj2 (Z.eqb_eq _ _) Hlen).
    + by rewrite (proj2 (Z.eqb_neq _ _) Hlen).
  - intros values.
    unfold FetchResponse.setValues, mseq, mget, mlift, mraise, mput.
    rewrite Hallowed. simpl.
    split; intros Hlen.
    + assert ((Py.len values >? N) = true) as -> by lia. done.
    + assert ((Py.len values >? N) = false) as -> by lia.
      by rewrite Hdata.
Qed.

Lemma count_enforcement_witness :
  FetchResponse.addValue Sample.email "c" Sample.counted_response
  = (Ok tt,
     FetchResponse.mk (FetchResponse.request Sample.counted_response)
       (<[Sample.email := ["a"; "b"; "c"]]>
          (FetchResponse.data Sample.counted_response))
       (FetchResponse.update_url Sample.counted_response))
  ∧ FetchResponse.setValues Sample.email ["p"; "q"; "r"; "s"]
      Sample.counted_response
    = (Raise (ValueError (MoreThanAllowedValues Sample.email)),
       Sample.counted_response).
Proof.
  destruct (count_enforcement Sample.counted_response Sample.counted_request
              (AttrInfo.new Sample.email (Some 3) false None) 3 Sample.email
              ["a"; "b"]) as [Hadd Hset];
    [by vm_compute | by vm_compute | reflexivity | by vm_compute |].
  split.
  - apply (Hadd "c"). vm_compute. discriminate.
  - apply (Hset ["p"; "q"; "r"; "s"]). reflexivity.
Defined.

Lemma addValue_unset_count self req attribute type_uri stored value :
  FetchResponse.request self = Some req →
  FetchRequest.requested_attributes req !! type_uri = Some attribute →
  AttrInfo.count attribute = None →
  FetchResponse.data self !! type_uri = Some stored →
  FetchResponse.addValue type_uri value self
  = (Ok tt,
     FetchResponse.mk (FetchResponse.request self)
       (<[type_uri := stored ++ [value]]> (FetchResponse.data self))
       (FetchResponse.update_url self)).
Proof.
  intros Hreq Hattr Hcount Hdata.
  pose proof (num_allowed_for_bound _ _ _ _ Hreq Hattr) as Hallowed.
  rewrite Hcount in Hallowed.
  unfold FetchResponse.addValue, mseq, mget, mlift, mraise, mput.
  by rewrite Hallowed, (getitem_Some _ _ _ Hdata).
Qed.

Lemma setValues_unset_count self req attribute type_uri values :
  FetchResponse.request self = Some req →
  FetchRequest.requested_attributes req !! type_uri = Some attribute →
  AttrInfo.count attribute = None →
  FetchResponse.setValues type_uri values self
  = (Raise (ValueError (MoreThanAllowedValues type_uri)), self).
Proof.
  intros Hreq Hattr Hcount.
  pose proof (num_allowed_for_bound _ _ _ _ Hreq Hattr) as Hallowed.
  rewrite Hcount in Hallowed.
  unfold FetchResponse.setValues, mseq, mget, mlift, mraise, mput.
  by rewrite Hallowed.
Qed.

(** C4: with no count declared for the attribute, [addValue] accepts a
    first value and then a second one, where the claim has the second call
    fail, and [setValues] raises [ValueError] for an empty and for a
    one-element sequence, where the claim has it succeed.  The response is
    one whose request and data have been assigned. *)
Theorem unset_count_limit_not_enforced :
  FetchResponse.addValue Sample.name "x" Sample.single_response
  = (Ok tt, Sample.single_response_1)
  ∧ FetchResponse.addValue Sample.name "y" Sample.single_response_1
    = (Ok tt,
       FetchResponse.mk (Some Sample.single_request)
         {[ Sample.name := ["x"; "y"] ]} None)
  ∧ FetchResponse.setValues Sample.name [] Sample.single_response
    = (Raise (ValueError (MoreThanAllowedValues Sample.name)),
       Sample.single_response)
  ∧ FetchResponse.setValues Sample.name ["x"] Sample.single_response
    = (Raise (ValueError (MoreThanAllowedValues Sample.name)),
       Sample.single_response).
Proof. split_and!; vm_compute; reflexivity. Qed.

(** C10: a response without a request raises on every [addValue] and
    [setValues], before anything else is looked at, and is left unchanged;
    parsing arguments into it leaves it without a request. *)
Theorem unbound_response_rejects_values (self : FetchResponse.t) :
  FetchResponse.request self = None →
  (∀ type_uri value,
     FetchResponse.addValue type_uri value self = (Raise AttributeError, self))
  ∧ (∀ type_uri values,
       FetchResponse.setValues type_uri values self
       = (Raise AttributeError, self))
  ∧ (∀ ax_args,
       FetchResponse.request (FetchResponse.parseExtensionArgs ax_args self).2
       = None).
Proof.
  intros Hreq. split_and!.
  - intros type_uri value.
    unfold FetchResponse.addValue, mseq, mget, mlift,
      FetchResponse.num_allowed_for.
    by rewrite Hreq.
  - intros type_uri values.
    unfold FetchResponse.setValues, mseq, mget, mlift,
      FetchResponse.num_allowed_for.
    by rewrite Hreq.
  - intros [d|]; unfold FetchResponse.parseExtensionArgs, mseq, mlift,
      mget, mput, mraise, _checkMode; [|done].
    case_decide; [|done].
    by destruct (parseAXValues d) as [[singletons data']|e].
Qed.

Lemma unbound_response_rejects_values_witness :
  FetchResponse.new None = Ok FetchResponse.unbound
  ∧ FetchResponse.addValue Sample.email "a" FetchResponse.unbound
    = (Raise AttributeError, FetchResponse.unbound)
  ∧ FetchResponse.setValues Sample.email [] FetchResponse.unbound
    = (Raise AttributeError, FetchResponse.unbound).
Proof.
  destruct (unbound_response_rejects_values FetchResponse.unbound)
    as (Hadd & Hset & _); [reflexivity|].
  split_and!; [reflexivity | apply Hadd | apply Hset].
Defined.

(** C9: [fromSuccessResponse] gives [None] whenever the parse it runs ends
    without an exception, and the exception otherwise; it never gives the
    response it has parsed into. *)
Theorem fromSuccessResponse_returns_None (success_response : SuccessResponse)
    (signed : bool) :
  match
    FetchResponse.parseExtensionArgs
      (if signed then getSignedNS success_response ns_uri
       else Some (message_getArgs success_response ns_uri))
      FetchResponse.unbound
  with
  | (Ok _, _) =>
      FetchResponse.fromSuccessResponse success_response signed = Ok None
  | (Raise e, _) =>
      FetchResponse.fromSuccessResponse success_response signed = Raise e
  end
  ∧ ∀ parsed,
      FetchResponse.fromSuccessResponse success_response signed
      ≠ Ok (Some parsed).
Proof.
  unfold FetchResponse.fromSuccessResponse.
  rewrite new_outcome. unfold bind.
  destruct (FetchResponse.parseExtensionArgs _ _) as [[[]|e] self']; done.
Qed.

(** ** FetchResponse: serialization *)

Lemma getExtensionArgs_no_args (self : FetchResponse.t) (a : args) :
  FetchResponse.getExtensionArgs self ≠ Ok (Some a).
Proof.
  unfold FetchResponse.getExtensionArgs.
  by destruct (FetchResponse.built_args self).
Qed.

(** C3: for an attribute without a count, [getExtensionArgs] raises
    [ValueError] with no value stored and with one value stored, where the
    claim has it emit [value.<alias>]; [parseAXValues] does read an empty
    [value.<alias>] as no value.  The responses are ones whose request and
    data have been assigned. *)
Theorem unset_count_serialization_raises :
  FetchResponse.built_args Sample.single_response
  = Raise (ValueError (MoreThanRequestedValues Sample.name))
  ∧ FetchResponse.getExtensionArgs Sample.single_response
    = Raise (ValueError (MoreThanRequestedValues Sample.name))
  ∧ FetchResponse.data Sample.single_response_1 !! Sample.name = Some ["x"]
  ∧ FetchResponse.built_args Sample.single_response_1
    = Raise (ValueError (MoreThanRequestedValues Sample.name))
  ∧ FetchResponse.getExtensionArgs Sample.single_response_1
    = Raise (ValueError (MoreThanRequestedValues Sample.name))
  ∧ parseAXValues (<["type.nm" := Sample.name]> (<["value.nm" := ""]> ∅))
    = Ok ([Sample.name], {[ Sample.name := [] ]}).
Proof. split_and!; vm_compute; reflexivity. Qed.

(** C1: [getExtensionArgs] of a response filled with [setValues] within the
    count gives [None], not the arguments it has built, and
    [parseExtensionArgs] raises on [None]: the round trip of the claim ends
    in an exception.  The response is one whose request and data have been
    assigned; no response at all gives its arguments. *)
Theorem response_round_trip_raises :
  FetchResponse.setValues Sample.email ["a"; "b"] Sample.counted_response_0
  = (Ok tt, Sample.counted_response)
  ∧ FetchResponse.data Sample.counted_response !! Sample.email
    = Some ["a"; "b"]
  ∧ FetchResponse.getExtensionArgs Sample.counted_response = Ok None
  ∧ FetchResponse.parseExtensionArgs None FetchResponse.unbound
    = (Raise AttributeError, FetchResponse.unbound)
  ∧ ∀ (self : FetchResponse.t) (a : args),
      FetchResponse.getExtensionArgs self ≠ Ok (Some a).
Proof.
  split_and!; [vm_compute; reflexivity .. | apply getExtensionArgs_no_args].
Qed.

(** The arguments built inside [getExtensionArgs], had they been returned,
    parse back to the stored data. *)
Example built_args_parse_back :
  let a : args :=
    <["mode" := "fetch_response"]>
      (<["update_url" := Sample.url]>
         (<["type.ext0" := Sample.email]>
            (<["count.ext0" := "2"]>
               (<["value.ext0.1" := "a"]> {[ "value.ext0.2" := "b" ]})))) in
  FetchResponse.built_args Sample.counted_response = Ok a
  ∧ FetchResponse.data
      (FetchResponse.parseExtensionArgs (Some a) FetchResponse.unbound).2
    = FetchResponse.data Sample.counted_response.
Proof. split; vm_compute; reflexivity. Qed.

(** [fromSuccessResponse] on a well-formed response: the parse fills the
    data, the call gives [None]. *)
Example fromSuccessResponse_sample :
  let success_response :=
    mkSuccessResponse (λ _, Some Sample.response_args)
                      (λ _, Sample.response_args) in
  FetchResponse.data
    (FetchResponse.parseExtensionArgs (Some Sample.response_args)
       FetchResponse.unbound).2
  = {[ Sample.email := []; Sample.name := ["x"; "y"] ]}
  ∧ FetchResponse.fromSuccessResponse success_response true = Ok None
  ∧ FetchResponse.fromSuccessResponse success_response false = Ok None.
Proof. split_and!; vm_compute; reflexivity. Qed.

(** ** FetchRequest: the update URL *)

Lemma request_loop_keeps_update_url_out l :
  ∀ acc r,
    for_each (uncurry FetchRequest.emit_attribute) l acc = Ok r →
    FetchRequest.ax_args acc !! "update_url" = None →
    FetchRequest.ax_args r !! "update_url" = None.
Proof.
  induction l as [|[type_uri attribute] l IH]; intros acc r Hrun Hacc.
  - simpl in Hrun. by injection Hrun as <-.
  - simpl in Hrun. apply bind_Ok in Hrun as (acc' & Hbody & Hrest).
    apply (IH _ _ Hrest).
    apply bind_Ok in Hbody as ([alias aliases'] & _ & Hacc').
    injection Hacc' as <-. simpl.
    rewrite lookup_insert_ne by done.
    destruct (AttrInfo.count attribute); [|done].
    by rewrite lookup_insert_ne.
Qed.

Lemma request_parse_update_url (d : args) (fresh parsed : FetchRequest.t) :
  FetchRequest.parseExtensionArgs (Some d) fresh = (Ok tt, parsed) →
  FetchRequest.update_url parsed = d !! "update_url".
Proof.
  unfold FetchRequest.parseExtensionArgs. intros Hrun.
  repeat (apply mseq_Ok in Hrun as (? & ? & _ & Hrun)).
  unfold mput in Hrun. by injection Hrun as <-.
Qed.

(** C2: the arguments [FetchRequest.getExtensionArgs] gives never hold
    [update_url], so a request parsed from them has no update URL, whatever
    the update URL of the serialized request. *)
Theorem request_update_url_not_serialized (self : FetchRequest.t) (a : args) :
  FetchRequest.getExtensionArgs self = Ok a →
  a !! "update_url" = None
  ∧ ∀ fresh parsed,
      FetchRequest.parseExtensionArgs (Some a) fresh = (Ok tt, parsed) →
      FetchRequest.update_url parsed = None.
Proof.
  intros Hget.
  assert (a !! "update_url" = None) as Hout.
  { unfold FetchRequest.getExtensionArgs in Hget.
    apply bind_Ok in Hget as (l & Hloop & Hfinal).
    apply request_loop_keeps_update_url_out in Hloop; [|done].
    injection Hfinal as <-.
    destruct (FetchRequest.if_available l), (FetchRequest.required l);
      by rewrite ?lookup_insert_ne. }
  split; [done|].
  intros fresh parsed Hparse.
  by rewrite (request_parse_update_url _ _ _ Hparse).
Qed.


Lemma request_update_url_not_serialized_witness :
  let a : args :=
    <["mode" := "fetch_request"]>
      (<["type.ext0" := Sample.email]>
         (<["count.ext0" := "3"]> {[ "if_available" := "ext0" ]})) in
  FetchRequest.update_url Sample.counted_request = Some Sample.url
  ∧ FetchRequest.getExtensionArgs Sample.counted_request = Ok a
  ∧ a !! "update_url" = None
  ∧ FetchRequest.update_url
      (FetchRequest.parseExtensionArgs (Some a) (FetchRequest.new None)).2
    = None.
Proof.
  intros a.
  assert (FetchRequest.getExtensionArgs Sample.counted_request = Ok a)
    as Hget by (vm_compute; reflexivity).
  destruct (request_update_url_not_serialized _ _ Hget) as [Hout Hurl].
  split_and!; [reflexivity | exact Hget | exact Hout |].
  apply (Hurl (FetchRequest.new None)).
  vm_compute; reflexivity.
Defined.

(** Without an update URL, a request with a counted optional attribute and a
    required one with a fixed alias comes back from its arguments with the
    same type URIs, required flags and counts. *)
Example request_round_trip_sample :
  let a : args :=
    <["mode" := "fetch_request"]>
      (<["type.ext0" := Sample.email]>
         (<["count.ext0" := "3"]>
            (<["type.nm" := Sample.name]>
               (<["required" := "nm"]> {[ "if_available" := "ext0" ]})))) in
  let parsed :=
    (FetchRequest.parseExtensionArgs (Some a) (FetchRequest.new None)).2 in
  FetchRequest.getExtensionArgs Sample.mixed_request = Ok a
  ∧ (FetchRequest.parseExtensionArgs (Some a) (FetchRequest.new None)).1
    = Ok tt
  ∧ FetchRequest.iter parsed = FetchRequest.iter Sample.mixed_request
  ∧ (AttrInfo.required <$> FetchRequest.requested_attributes parsed)
    = (AttrInfo.required
         <$> FetchRequest.requested_attributes Sample.mixed_request)
  ∧ (AttrInfo.count <$> FetchRequest.requested_attributes parsed)
    = (AttrInfo.count
         <$> FetchRequest.requested_attributes Sample.mixed_request)
  ∧ FetchRequest.update_url parsed
    = FetchRequest.update_url Sample.mixed_request.
Proof. split_and!; vm_compute; reflexivity. Qed.

(** ** parseAXValues *)

Lemma type_alias_spec key alias :
  type_alias key = Some alias ↔ key = "type." +:+ alias.
Proof.
  unfold type_alias, Py.startswith. split.
  - destruct key as [|c1 [|c2 [|c3 [|c4 [|c5 rest]]]]]; simpl;
      repeat (case_match; try discriminate); [done|].
    subst. by intros [= <-].
  - intros ->. simpl. repeat (case_match; try done).
    by destruct alias.
Qed.

Lemma for_each_Ok_cons {A B} (body : B → A → result A) x l acc r :
  for_each body (x :: l) acc = Ok r →
  ∃ acc', body x acc = Ok acc' ∧ for_each body l acc' = Ok r.
Proof. simpl. apply bind_Ok. Qed.

Lemma for_each_raises {A B} (body : B → A → result A) l x :
  x ∈ l → (∀ acc, ∃ e, body x acc = Raise e) →
  ∀ acc, ∃ e, for_each body l acc = Raise e.
Proof.
  intros Hin Hbad. induction l as [|y l IH]; intros acc.
  - by apply elem_of_nil in Hin.
  - simpl. apply elem_of_cons in Hin as [<-|Hin].
    + destruct (Hbad acc) as [e ->]. by exists e.
    + destruct (body y acc) as [acc'|e]; simpl; [by apply IH | by exists e].
Qed.

Lemma addAlias_Ok type_uri alias nm r nm' :
  NamespaceMap.addAlias type_uri alias nm = Ok (r, nm') →
  r = alias
  ∧ nm' = NamespaceMap.mk
            (<[alias := type_uri]> (NamespaceMap.alias_to_namespace nm))
            (<[type_uri := alias]> (NamespaceMap.namespace_to_alias nm))
  ∧ (NamespaceMap.alias_to_namespace nm !! alias = None
     ∨ NamespaceMap.alias_to_namespace nm !! alias = Some type_uri)
  ∧ (NamespaceMap.namespace_to_alias nm !! type_uri = None
     ∨ NamespaceMap.namespace_to_alias nm !! type_uri = Some alias).
Proof.
  unfold NamespaceMap.addAlias.
  destruct (NamespaceMap.alias_to_namespace nm !! alias) as [current|];
    destruct (NamespaceMap.namespace_to_alias nm !! type_uri) as [other|];
    repeat case_decide; subst; intros [= <- <-]; auto.
Qed.

Lemma addAlias_fresh type_uri alias nm :
  NamespaceMap.alias_to_namespace nm !! alias = None →
  NamespaceMap.namespace_to_alias nm !! type_uri = None →
  NamespaceMap.addAlias type_uri alias nm
  = Ok (alias,
        NamespaceMap.mk
          (<[alias := type_uri]> (NamespaceMap.alias_to_namespace nm))
          (<[type_uri := alias]> (NamespaceMap.namespace_to_alias nm))).
Proof. unfold NamespaceMap.addAlias. by intros -> ->. Qed.

Lemma for_each_succeeds {A B} (body : B → A → result A) l :
  (∀ x, x ∈ l → ∀ acc, ∃ acc', body x acc = Ok acc') →
  ∀ acc, ∃ r, for_each body l acc = Ok r.
Proof.
  induction l as [|y l IH]; intros Hok acc; simpl; [by eexists|].
  destruct (Hok y (list_elem_of_here _ _) acc) as [acc' ->]. simpl.
  apply IH. intros x Hx. apply Hok. by apply list_elem_of_further.
Qed.

(** ** parseAXValues: the first loop *)

Lemma bind_type_Ok key value nm nm' :
  bind_type key value nm = Ok nm' →
  match type_alias key with
  | Some alias =>
      nm' = NamespaceMap.mk
              (<[alias := value]> (NamespaceMap.alias_to_namespace nm))
              (<[value := alias]> (NamespaceMap.namespace_to_alias nm))
      ∧ (NamespaceMap.namespace_to_alias nm !! value = None
         ∨ NamespaceMap.namespace_to_alias nm !! value = Some alias)
  | None => nm' = nm
  end.
Proof.
  unfold bind_type. destruct (type_alias key) as [alias|].
  - intros Hrun. apply bind_Ok in Hrun as ([r nm1] & Hadd & Hret).
    injection Hret as <-.
    by apply addAlias_Ok in Hadd as (_ & -> & _ & Hfree).
  - by intros [= <-].
Qed.

Lemma bind_types_bound l :
  ∀ nm0 nm,
    for_each (uncurry bind_type) l nm0 = Ok nm →
    ∀ type_uri alias,
      NamespaceMap.namespace_to_alias nm !! type_uri = Some alias
      ↔ NamespaceMap.namespace_to_alias nm0 !! type_uri = Some alias
        ∨ ∃ key, (key, type_uri) ∈ l ∧ type_alias key = Some alias.
Proof.
  induction l as [|[key value] l IH]; intros nm0 nm Hrun type_uri alias.
  - injection Hrun as <-. split; [auto|].
    intros [?|(key & Hin & _)]; [done | by apply elem_of_nil in Hin].
  - apply for_each_Ok_cons in Hrun as (nm1 & Hstep & Hrest).
    rewrite (IH _ _ Hrest). simpl in Hstep.
    apply bind_type_Ok in Hstep.
    destruct (type_alias key) as [alias0|] eqn:Hkey.
    + destruct Hstep as [-> Hfree]. simpl.
      split.
      * intros [Hnew|(key' & Hin & Hkey')].
        -- destruct (decide (value = type_uri)) as [->|Hne].
           ++ rewrite lookup_insert_eq in Hnew. injection Hnew as <-.
              right. exists key. split; [apply list_elem_of_here | done].
           ++ rewrite lookup_insert_ne in Hnew by done. by left.
        -- right. exists key'. split; [by apply list_elem_of_further | done].
      * intros [Hold|(key' & Hin & Hkey')].
        -- left. destruct (decide (value = type_uri)) as [->|Hne].
           ++ rewrite lookup_insert_eq.
              destruct Hfree as [Hfree|Hfree]; congruence.
           ++ by rewrite lookup_insert_ne.
        -- apply elem_of_cons in Hin as [[= -> ->]|Hin].
           ++ left. rewrite lookup_insert_eq. congruence.
           ++ right. eauto.
    + subst nm1. split.
      * intros [?|(key' & Hin & Hkey')]; [by left|].
        right. exists key'. split; [by apply list_elem_of_further | done].
      * intros [?|(key' & Hin & Hkey')]; [by left|].
        apply elem_of_cons in Hin as [[= -> ->]|Hin]; [congruence|].
        right. eauto.
Qed.

Lemma bind_types_declared (d : args) nm :
  for_each (uncurry bind_type) (map_to_list d) NamespaceMap.new = Ok nm →
  ∀ type_uri alias,
    NamespaceMap.namespace_to_alias nm !! type_uri = Some alias
    ↔ declared d alias type_uri.
Proof.
  intros Hrun type_uri alias.
  rewrite (bind_types_bound _ _ _ Hrun). unfold declared. simpl.
  rewrite lookup_empty. split.
  - intros [?|(key & Hin & Hkey)]; [done|].
    apply type_alias_spec in Hkey as ->. by apply elem_of_map_to_list.
  - intros Hd. right. exists ("type." +:+ alias).
    split; [by apply elem_of_map_to_list | by apply type_alias_spec].
Qed.

Lemma read_from_fresh (d : args) processed key value l nm alias :
  types_distinct d →
  processed ++ (key, value) :: l = map_to_list d →
  read_from processed nm →
  type_alias key = Some alias →
  NamespaceMap.alias_to_namespace nm !! alias = None
  ∧ NamespaceMap.namespace_to_alias nm !! value = None.
Proof.
  intros Hdistinct Hsplit [Ha2n Hn2a] Hkey.
  pose proof (NoDup_fst_map_to_list d) as Hnodup.
  rewrite <- Hsplit, fmap_app, fmap_cons in Hnodup.
  apply NoDup_app in Hnodup as (_ & Hfresh & _).
  assert (∀ v, (key, v) ∉ processed) as Hnew.
  { intros v Hin. apply (Hfresh key); [|apply list_elem_of_here].
    apply list_elem_of_fmap. by exists (key, v). }
  assert (∀ k v, (k, v) ∈ processed → d !! k = Some v) as Hproc.
  { intros k v Hin. apply elem_of_map_to_list. rewrite <- Hsplit.
    apply elem_of_app. by left. }
  assert (d !! key = Some value) as Hd.
  { apply elem_of_map_to_list. rewrite <- Hsplit.
    apply elem_of_app. right. apply list_elem_of_here. }
  apply type_alias_spec in Hkey as ->.
  split.
  - destruct (NamespaceMap.alias_to_namespace nm !! alias) as [u|] eqn:Hu;
      [|done].
    destruct (Ha2n _ _ Hu) as (key' & Hin & Hkey').
    apply type_alias_spec in Hkey' as ->. by destruct (Hnew u).
  - destruct (NamespaceMap.namespace_to_alias nm !! value) as [a|] eqn:Ha;
      [|done].
    destruct (Hn2a _ _ Ha) as (key' & Hin & Hkey').
    apply type_alias_spec in Hkey' as ->.
    assert (a = alias) as -> by (apply (Hdistinct _ _ value); [by apply Hproc | done]).
    by destruct (Hnew value).
Qed.

Lemma read_from_step processed key value nm alias :
  read_from processed nm →
  type_alias key = Some alias →
  read_from (processed ++ [(key, value)])
    (NamespaceMap.mk
       (<[alias := value]> (NamespaceMap.alias_to_namespace nm))
       (<[value := alias]> (NamespaceMap.namespace_to_alias nm))).
Proof.
  intros [Ha2n Hn2a] Hkey. split; simpl.
  - intros a u Hlook. destruct (decide (alias = a)) as [->|Hne].
    + rewrite lookup_insert_eq in Hlook. injection Hlook as <-.
      exists key. split; [|done]. apply elem_of_app. right.
      apply list_elem_of_here.
    + rewrite lookup_insert_ne in Hlook by done.
      destruct (Ha2n _ _ Hlook) as (key' & Hin & Hkey').
      exists key'. split; [|done]. apply elem_of_app. by left.
  - intros u a Hlook. destruct (decide (value = u)) as [->|Hne].
    + rewrite lookup_insert_eq in Hlook. injection Hlook as <-.
      exists key. split; [|done]. apply elem_of_app. right.
      apply list_elem_of_here.
    + rewrite lookup_insert_ne in Hlook by done.
      destruct (Hn2a _ _ Hlook) as (key' & Hin & Hkey').
      exists key'. split; [|done]. apply elem_of_app. by left.
Qed.

Lemma read_from_skip processed kv nm :
  read_from processed nm → read_from (processed ++ [kv]) nm.
Proof.
  intros [Ha2n Hn2a]. split.
  - intros a u Hlook. destruct (Ha2n _ _ Hlook) as (key' & Hin & Hkey').
    exists key'. split; [|done]. apply elem_of_app. by left.
  - intros u a Hlook. destruct (Hn2a _ _ Hlook) as (key' & Hin & Hkey').
    exists key'. split; [|done]. apply elem_of_app. by left.
Qed.

Lemma bind_types_succeed (d : args) :
  types_distinct d →
  ∃ nm, for_each (uncurry bind_type) (map_to_list d) NamespaceMap.new = Ok nm.
Proof.
  intros Hdistinct.
  assert (∀ l processed nm0,
            processed ++ l = map_to_list d → read_from processed nm0 →
            ∃ nm, for_each (uncurry bind_type) l nm0 = Ok nm) as Hloop.
  { induction l as [|[key value] l IH]; intros processed nm0 Hsplit Hinv.
    - by eexists.
    - simpl. unfold bind_type at 1.
      destruct (type_alias key) as [alias|] eqn:Hkey.
      + destruct (read_from_fresh _ _ _ _ _ _ _ Hdistinct Hsplit Hinv Hkey)
          as [Hfree1 Hfree2].
        rewrite (addAlias_fresh _ _ _ Hfree1 Hfree2). simpl.
        apply (IH (processed ++ [(key, value)])).
        * by rewrite <- app_assoc.
        * by apply read_from_step.
      + simpl. apply (IH (processed ++ [(key, value)])).
        * by rewrite <- app_assoc.
        * by apply read_from_skip. }
  apply (Hloop _ []); [done|].
  split; intros ? ?; simpl; by rewrite lookup_empty.
Qed.

(** ** parseAXValues: the values of one alias *)

Lemma read_values_Ok (d : args) alias indices :
  ∀ vs0 vs,
    for_each (read_value d alias) indices vs0 = Ok vs →
    ∃ new, vs = vs0 ++ new
           ∧ Forall2 (λ i v, d !! value_key alias i = Some v) indices new.
Proof.
  induction indices as [|i indices IH]; intros vs0 vs Hrun.
  - injection Hrun as <-. exists []. by rewrite app_nil_r.
  - apply for_each_Ok_cons in Hrun as (vs1 & Hstep & Hrest).
    unfold read_value, getitem in Hstep.
    destruct (d !! value_key alias i) as [v|] eqn:Hv; [|done].
    injection Hstep as <-.
    destruct (IH _ _ Hrest) as (new & -> & Hall).
    exists (v :: new). rewrite <- app_assoc. split; [done|].
    by constructor.
Qed.

Lemma range1_lookup N (i : nat) :
  (i < Z.to_nat N)%nat → Py.range1 N !! i = Some (Z.of_nat i + 1).
Proof.
  intros Hi. unfold Py.range1.
  rewrite list_lookup_fmap, lookup_seq_lt by done. simpl. f_equal. lia.
Qed.

Lemma range1_elem N i : i ∈ Py.range1 N ↔ 1 ≤ i ≤ N.
Proof.
  unfold Py.range1. rewrite list_elem_of_fmap. setoid_rewrite elem_of_seq.
  split.
  - intros (n & -> & Hn). lia.
  - intros Hi. exists (Z.to_nat i). lia.
Qed.

Lemma parse_values_Ok (d : args) alias single values :
  parse_values d alias = Ok (single, values) →
  match d !! ("count." +:+ alias) with
  | None =>
      single = true
      ∧ ∃ value, d !! ("value." +:+ alias) = Some value
                 ∧ values = if decide (value = "") then [] else [value]
  | Some count_s =>
      single = false
      ∧ ∃ N, Py.int count_s = Ok N
             ∧ length values = Z.to_nat N
             ∧ ∀ i : nat, (i < length values)%nat →
                 d !! value_key alias (Z.of_nat i + 1) = values !! i
  end.
Proof.
  unfold parse_values.
  destruct (d !! ("count." +:+ alias)) as [count_s|].
  - intros Hrun. apply bind_Ok in Hrun as (N & Hint & Hrun).
    apply bind_Ok in Hrun as (vs & Hloop & Hret).
    injection Hret as <- <-. split; [done|]. exists N. split; [done|].
    apply read_values_Ok in Hloop as (new & -> & Hall). simpl.
    pose proof (Forall2_length _ _ _ Hall) as Hlen.
    unfold Py.range1 in Hlen. rewrite length_fmap, length_seq in Hlen.
    split; [done|]. intros i Hi.
    destruct (lookup_lt_is_Some_2 new i Hi) as [v Hv].
    rewrite Hv.
    apply (Forall2_lookup_lr _ _ _ i (Z.of_nat i + 1) v Hall); [|done].
    apply range1_lookup. lia.
  - unfold getitem. destruct (d !! ("value." +:+ alias)) as [value|]; [|done].
    intros [= <- <-]. eauto.
Qed.

Lemma parse_values_given (d : args) alias :
  values_given d alias →
  ∃ single values, parse_values d alias = Ok (single, values).
Proof.
  unfold values_given, parse_values.
  destruct (d !! ("count." +:+ alias)) as [count_s|].
  - intros (N & -> & Hall). simpl.
    destruct (for_each_succeeds (read_value d alias) (Py.range1 N))
      with (acc := @nil string) as [vs ->]; [|by eexists _, _].
    intros i Hi acc. apply range1_elem in Hi.
    destruct (Hall i Hi) as [v Hv]. unfold read_value.
    rewrite (getitem_Some _ _ _ Hv). by eexists.
  - intros [value Hv]. rewrite (getitem_Some _ _ _ Hv). by eexists _, _.
Qed.

Lemma parse_values_missing (d : args) alias :
  values_missing d alias → ∃ e, parse_values d alias = Raise e.
Proof.
  unfold values_missing, parse_values.
  destruct (d !! ("count." +:+ alias)) as [count_s|].
  - intros [[e ->]|(N & i & -> & Hi & Hnone)]; [by exists e|]. simpl.
    destruct (for_each_raises (read_value d alias) (Py.range1 N) i)
      with (acc := @nil string) as [e ->]; [| |by exists e].
    + by apply range1_elem.
    + intros acc. unfold read_value. rewrite (getitem_None _ _ Hnone).
      by eexists.
  - intros Hnone. rewrite (getitem_None _ _ Hnone). by eexists.
Qed.

(** ** parseAXValues: the second loop *)

Lemma store_values_loop (d : args) l :
  NoDup l.*1 →
  ∀ acc r,
    for_each (uncurry (store_values d)) l acc = Ok r →
    (∀ type_uri alias, (type_uri, alias) ∈ l →
       ∃ single values,
         parse_values d alias = Ok (single, values)
         ∧ r.2 !! type_uri = Some values
         ∧ (single = true → type_uri ∈ r.1))
    ∧ (∀ type_uri, type_uri ∉ l.*1 → r.2 !! type_uri = acc.2 !! type_uri)
    ∧ (∀ type_uri, type_uri ∈ acc.1 → type_uri ∈ r.1).
Proof.
  induction l as [|[u0 a0] l IH]; intros Hnodup acc r Hrun.
  - injection Hrun as <-. split_and!; [|done|done].
    intros ? ? Hin. by apply elem_of_nil in Hin.
  - apply for_each_Ok_cons in Hrun as (acc1 & Hstep & Hrest).
    simpl in Hnodup. apply NoDup_cons in Hnodup as [Hfresh Hnodup].
    destruct (IH Hnodup _ _ Hrest) as (Hin_l & Hout_l & Hmono).
    simpl in Hstep. unfold store_values in Hstep.
    apply bind_Ok in Hstep as ([single values] & Hparse & Hret).
    injection Hret as <-. simpl in *.
    split_and!.
    + intros type_uri alias Hin.
      apply elem_of_cons in Hin as [[= -> ->]|Hin]; [|by apply Hin_l].
      exists single, values. split; [done|]. split.
      * by rewrite (Hout_l _ Hfresh), lookup_insert_eq.
      * intros ->. apply Hmono. apply elem_of_app. right.
        apply list_elem_of_here.
    + intros type_uri Hout. apply not_elem_of_cons in Hout as [Hne Hout].
      by rewrite (Hout_l _ Hout), lookup_insert_ne.
    + intros type_uri Hin. apply Hmono.
      destruct single; [|done]. apply elem_of_app. by left.
Qed.

Lemma declared_Forall (d : args) (P : string → string → Prop) :
  Forall (λ kv, ∀ alias, type_alias kv.1 = Some alias → P alias kv.2)
         (map_to_list d) →
  ∀ alias type_uri, declared d alias type_uri → P alias type_uri.
Proof.
  intros Hall alias type_uri Hd.
  rewrite Forall_forall in Hall.
  apply (Hall ("type." +:+ alias, type_uri)).
  - by apply elem_of_map_to_list.
  - by apply type_alias_spec.
Qed.

(** C7: when [parseAXValues] returns, every alias bound by a [type.<alias>]
    key has its values as follows: with no [count.<alias>], the type URI is
    among the singletons and its values are none for an empty
    [value.<alias>] and that one value otherwise; with a [count.<alias>],
    the count is an integer [N] and the values are [value.<alias>.1] to
    [value.<alias>.N] in order.  A missing [value.<alias>], a count that is
    not an integer and a missing [value.<alias>.i] each make the call
    raise.  The call returns when no type URI is declared twice and every
    alias has the keys it needs. *)
Theorem parseAXValues_spec (ax_args : args) :
  (∀ singletons data,
     parseAXValues ax_args = Ok (singletons, data) →
     ∀ alias type_uri,
       declared ax_args alias type_uri →
       match ax_args !! ("count." +:+ alias) with
       | None =>
           type_uri ∈ singletons
           ∧ ∃ value,
               ax_args !! ("value." +:+ alias) = Some value
               ∧ data !! type_uri
                 = Some (if decide (value = "") then [] else [value])
       | Some count_s =>
           ∃ N values,
             Py.int count_s = Ok N
             ∧ data !! type_uri = Some values
             ∧ length values = Z.to_nat N
             ∧ ∀ i : nat, (i < length values)%nat →
                 ax_args !! value_key alias (Z.of_nat i + 1) = values !! i
       end)
  ∧ (∀ alias type_uri,
       declared ax_args alias type_uri →
       values_missing ax_args alias →
       ∃ e, parseAXValues ax_args = Raise e)
  ∧ (types_distinct ax_args →
     (∀ alias type_uri,
        declared ax_args alias type_uri → values_given ax_args alias) →
     ∃ singletons data, parseAXValues ax_args = Ok (singletons, data)).
Proof.
  split_and!.
  - intros singletons data Hrun alias type_uri Hdecl.
    unfold parseAXValues in Hrun.
    apply bind_Ok in Hrun as (nm & Hfirst & Hsecond).
    apply (bind_types_declared _ _ Hfirst) in Hdecl.
    apply elem_of_map_to_list in Hdecl.
    destruct (store_values_loop ax_args _ (NoDup_fst_map_to_list _) _ _
                Hsecond) as (Hin & _ & _).
    destruct (Hin _ _ Hdecl) as (single & values & Hparse & Hdata & Hsingle).
    apply parse_values_Ok in Hparse. simpl in *.
    destruct (ax_args !! ("count." +:+ alias)) as [count_s|].
    + destruct Hparse as (_ & N & Hint & Hlen & Hvalues).
      by exists N, values.
    + destruct Hparse as (-> & value & Hvalue & ->).
      split; [by apply Hsingle|]. by exists value.
  - intros alias type_uri Hdecl Hmissing.
    unfold parseAXValues.
    destruct (for_each (uncurry bind_type) (map_to_list ax_args)
                NamespaceMap.new) as [nm|e] eqn:Hfirst; [|by exists e].
    simpl.
    apply (bind_types_declared _ _ Hfirst) in Hdecl.
    apply elem_of_map_to_list in Hdecl.
    apply (for_each_raises _ _ _ Hdecl).
    intros acc. simpl. unfold store_values.
    destruct (parse_values_missing _ _ Hmissing) as [e ->]. by exists e.
  - intros Hdistinct Hgiven.
    unfold parseAXValues.
    destruct (bind_types_succeed _ Hdistinct) as [nm Hfirst].
    rewrite Hfirst. simpl.
    destruct (for_each_succeeds (uncurry (store_values ax_args))
                (NamespaceMap.iteritems nm)) with (acc := (@nil string, (∅ : gmap string (list string))))
      as [[singletons data] ->]; [|by eexists _, _].
    intros [type_uri alias] Hin acc. simpl. unfold store_values.
    apply elem_of_map_to_list in Hin.
    apply (bind_types_declared _ _ Hfirst) in Hin.
    destruct (parse_values_given _ _ (Hgiven _ _ Hin))
      as (single & values & ->).
    by eexists.
Qed.

Lemma response_args_items :
  map_to_list Sample.response_args
  = [("count.b", "2"); ("mode", "fetch_response"); ("value.a", "");
     ("value.b.1", "x"); ("value.b.2", "y"); ("type.a", Sample.email);
     ("type.b", Sample.name)].
Proof. vm_compute; reflexivity. Qed.

(** Case analysis on the declared aliases of a dictionary whose items are
    known. *)
Ltac each_declared Hitems :=
  lazymatch goal with
  | |- ∀ a u, declared ?d a u → @?P a u => apply (declared_Forall d P)
  end;
  rewrite Hitems;
  repeat apply Forall_cons_2; try apply Forall_nil_2; simpl;
  let Ha := fresh "Ha" in
  intros ? Ha; vm_compute in Ha; try discriminate Ha; injection Ha as <-.

Lemma parseAXValues_spec_witness :
  (∃ singletons data,
     parseAXValues Sample.response_args = Ok (singletons, data))
  ∧ (∃ value,
       Sample.response_args !! "value.a" = Some value
       ∧ ({[ Sample.email := []; Sample.name := ["x"; "y"] ]}
            : gmap string (list string)) !! Sample.email
         = Some (if decide (value = "") then [] else [value]))
  ∧ (∃ e, parseAXValues Sample.truncated_args = Raise e).
Proof.
  destruct (parseAXValues_spec Sample.response_args) as (Hok & _ & Hgood).
  destruct (parseAXValues_spec Sample.truncated_args) as (_ & Hbad & _).
  split_and!.
  - apply Hgood.
    + intros alias1 alias2 type_uri H1. revert alias2.
      revert alias1 type_uri H1. each_declared response_args_items.
      * intros alias2 H2.
        enough (∀ a u, declared Sample.response_args a u →
                       u = Sample.email → "a" = a) by eauto.
        each_declared response_args_items; [done|discriminate].
      * intros alias2 H2.
        enough (∀ a u, declared Sample.response_args a u →
                       u = Sample.name → "b" = a) by eauto.
        each_declared response_args_items; [discriminate|done].
    + each_declared response_args_items; unfold values_given.
      * assert (Sample.response_args !! ("count." +:+ "a") = None) as ->
          by (vm_compute; reflexivity).
        vm_compute. eauto.
      * assert (Sample.response_args !! ("count." +:+ "b") = Some "2") as ->
          by (vm_compute; reflexivity).
        exists 2. split; [vm_compute; reflexivity|].
        intros i Hi. assert (i = 1 ∨ i = 2) as [->| ->] by lia;
          vm_compute; eauto.
  - assert (parseAXValues Sample.response_args
            = Ok ([Sample.email],
                  {[ Sample.email := []; Sample.name := ["x"; "y"] ]}))
      as Hrun by (vm_compute; reflexivity).
    assert (declared Sample.response_args "a" Sample.email) as Hdecl
      by (vm_compute; reflexivity).
    pose proof (Hok _ _ Hrun _ _ Hdecl) as Hvalues.
    assert (Sample.response_args !! ("count." +:+ "a") = None) as Hcount
      by (vm_compute; reflexivity).
    rewrite Hcount in Hvalues. apply Hvalues.
  - apply (Hbad "b" Sample.name); [vm_compute; reflexivity|].
    unfold values_missing.
    assert (Sample.truncated_args !! ("count." +:+ "b") = Some "2") as ->
      by (vm_compute; reflexivity).
    right. exists 2, 2. split_and!; [vm_compute; reflexivity | lia | lia |].
    vm_compute; reflexivity.
Defined.

(** ** toTypeURIs *)

Lemma resolve_loop_Ok nm l :
  ∀ acc r,
    for_each (resolve_alias nm) l acc = Ok r →
    ∃ new, r = acc ++ new
           ∧ Forall2 (λ alias type_uri,
                        NamespaceMap.alias_to_namespace nm !! alias
                        = Some type_uri) l new.
Proof.
  induction l as [|a l IH]; intros acc r Hrun.
  - injection Hrun as <-. exists []. by rewrite app_nil_r.
  - apply for_each_Ok_cons in Hrun as (acc1 & Hstep & Hrest).
    unfold resolve_alias, NamespaceMap.getNamespaceURI in Hstep.
    destruct (NamespaceMap.alias_to_namespace nm !! a) as [u|] eqn:Hu;
      [|done].
    injection Hstep as <-.
    destruct (IH _ _ Hrest) as (new & -> & Hall).
    exists (u :: new). rewrite <- app_assoc. split; [done|]. by constructor.
Qed.

Lemma toTypeURIs_Ok nm alias_list_s uris :
  toTypeURIs nm alias_list_s = Ok uris →
  Forall2 (λ alias type_uri,
             NamespaceMap.alias_to_namespace nm !! alias = Some type_uri)
          (alias_list alias_list_s) uris.
Proof.
  unfold toTypeURIs, alias_list.
  destruct alias_list_s as [s|]; [|by intros [= <-]].
  destruct (Py.truthy (Some s)); [|by intros [= <-]].
  intros Hrun. by apply resolve_loop_Ok in Hrun as (new & -> & Hall).
Qed.

Lemma toTypeURIs_succeeds nm alias_list_s :
  (∀ alias, alias ∈ alias_list alias_list_s →
            is_Some (NamespaceMap.alias_to_namespace nm !! alias)) →
  ∃ uris, toTypeURIs nm alias_list_s = Ok uris.
Proof.
  unfold toTypeURIs, alias_list.
  destruct alias_list_s as [s|]; [|by eexists].
  destruct (Py.truthy (Some s)); [|by eexists].
  intros Hall. apply for_each_succeeds.
  intros a Ha acc. destruct (Hall a Ha) as [u Hu].
  unfold resolve_alias, NamespaceMap.getNamespaceURI. rewrite Hu.
  by eexists.
Qed.

(** ** FetchRequest.parseExtensionArgs: the loops *)

Lemma parse_type_fresh (d : args) alias value nm self :
  NamespaceMap.alias_to_namespace nm !! alias = None →
  NamespaceMap.namespace_to_alias nm !! value = None →
  FetchRequest.requested_attributes self !! value = None →
  (∀ count_s, d !! ("count." +:+ alias) = Some count_s →
              count_s = "" ∨ ∃ N, Py.int count_s = Ok N) →
  ∃ c,
    FetchRequest.parse_type d alias value nm self
    = (Ok (NamespaceMap.mk
             (<[alias := value]> (NamespaceMap.alias_to_namespace nm))
             (<[value := alias]> (NamespaceMap.namespace_to_alias nm))),
       FetchRequest.mk
         (<[value := AttrInfo.mk false c value (Some alias)]>
            (FetchRequest.requested_attributes self))
         (FetchRequest.update_url self)).
Proof.
  intros Hfree1 Hfree2 Hnew Hcount.
  unfold FetchRequest.parse_type, mseq, mlift.
  rewrite (addAlias_fresh _ _ _ Hfree1 Hfree2).
  assert (∃ c, FetchRequest.parse_count (d !! ("count." +:+ alias)) = Ok c)
    as [c Hc].
  { unfold FetchRequest.parse_count.
    destruct (d !! ("count." +:+ alias)) as [s|] eqn:Hs; [|by eexists].
    destruct (Hcount s eq_refl) as [->|[N HN]]; [by eexists|].
    destruct (Py.truthy (Some s)); [|by eexists].
    rewrite HN. by eexists. }
  exists c. rewrite Hc.
  unfold FetchRequest.add, mseq, mget, mput, mreturn. simpl.
  by rewrite Hnew.
Qed.

Lemma requested_from_step processed url key value nm self alias c :
  requested_from processed url nm self →
  type_alias key = Some alias →
  NamespaceMap.alias_to_namespace nm !! alias = None →
  NamespaceMap.namespace_to_alias nm !! value = None →
  requested_from (processed ++ [(key, value)]) url
    (NamespaceMap.mk
       (<[alias := value]> (NamespaceMap.alias_to_namespace nm))
       (<[value := alias]> (NamespaceMap.namespace_to_alias nm)))
    (FetchRequest.mk
       (<[value := AttrInfo.mk false c value (Some alias)]>
          (FetchRequest.requested_attributes self))
       (FetchRequest.update_url self)).
Proof.
  intros (Hread & Hbound & Hdom & Hreq & Hurl) Hkey Hfree1 Hfree2.
  split_and!; simpl.
  - by apply read_from_step.
  - intros key' u a Hin Hkey'.
    apply elem_of_app in Hin as [Hin|Hin].
    + destruct (Hbound _ _ _ Hin Hkey') as [Ha Hu].
      rewrite !lookup_insert_ne by congruence. done.
    + apply list_elem_of_singleton in Hin as [= -> ->].
      assert (a = alias) as -> by congruence.
      by rewrite !lookup_insert_eq.
  - intros u. destruct (decide (value = u)) as [->|Hne].
    + rewrite !lookup_insert_eq. split; eauto.
    + rewrite !lookup_insert_ne by done. apply Hdom.
  - intros u attribute. destruct (decide (value = u)) as [->|Hne].
    + rewrite lookup_insert_eq. by intros [= <-].
    + rewrite lookup_insert_ne by done. apply Hreq.
  - done.
Qed.

Lemma requested_from_skip processed url kv nm self :
  requested_from processed url nm self →
  type_alias kv.1 = None →
  requested_from (processed ++ [kv]) url nm self.
Proof.
  intros (Hread & Hbound & Hdom & Hreq & Hurl) Hkey.
  split_and!; [by apply read_from_skip| |done|done|done].
  intros key' u a Hin Hkey'.
  apply elem_of_app in Hin as [Hin|Hin]; [by eapply Hbound|].
  apply list_elem_of_singleton in Hin. subst kv. simpl in Hkey. congruence.
Qed.

Lemma request_types_loop (d : args) url :
  types_distinct d → counts_readable d →
  ∀ l processed nm0 self0,
    processed ++ l = map_to_list d →
    requested_from processed url nm0 self0 →
    ∃ nm self1,
      mfor_each (uncurry (FetchRequest.request_type d)) l nm0 self0
      = (Ok nm, self1)
      ∧ requested_from (processed ++ l) url nm self1.
Proof.
  intros Hdistinct Hcounts.
  induction l as [|[key value] l IH]; intros processed nm0 self0 Hsplit Hinv.
  - exists nm0, self0. by rewrite app_nil_r.
  - simpl. unfold mseq. unfold FetchRequest.request_type at 1.
    destruct (type_alias key) as [alias|] eqn:Hkey.
    + destruct Hinv as (Hread & Hrest).
      destruct (read_from_fresh _ _ _ _ _ _ _ Hdistinct Hsplit Hread Hkey)
        as [Hfree1 Hfree2].
      assert (FetchRequest.requested_attributes self0 !! value = None)
        as Hnew.
      { destruct Hrest as (_ & Hdom & _).
        apply eq_None_not_Some. rewrite Hdom, Hfree2.
        by intros [? ?]. }
      assert (d !! key = Some value) as Hd.
      { apply elem_of_map_to_list. rewrite <- Hsplit.
        apply elem_of_app. right. apply list_elem_of_here. }
      destruct (parse_type_fresh d alias value nm0 self0 Hfree1 Hfree2 Hnew)
        as [c ->].
      { intros count_s. apply (Hcounts alias value).
        unfold declared. by apply type_alias_spec in Hkey as ->. }
      pose proof (requested_from_step _ _ _ value _ _ _ c
                    (conj Hread Hrest) Hkey Hfree1 Hfree2) as Hstep.
      destruct (IH (processed ++ [(key, value)]) _ _
                  ltac:(by rewrite <- app_assoc) Hstep)
        as (nm & self1 & Hrun & Hinv').
      exists nm, self1. split; [done|]. by rewrite <- app_assoc in Hinv'.
    + unfold mreturn.
      destruct (IH (processed ++ [(key, value)]) nm0 self0)
        as (nm & self1 & Hrun & Hinv').
      { by rewrite <- app_assoc. }
      { by apply requested_from_skip. }
      exists nm, self1. split; [done|]. by rewrite <- app_assoc in Hinv'.
Qed.

Lemma requested_from_all (d : args) url nm self :
  requested_from (map_to_list d) url nm self →
  (∀ alias type_uri,
     NamespaceMap.alias_to_namespace nm !! alias = Some type_uri
     ↔ declared d alias type_uri)
  ∧ (∀ type_uri alias,
       NamespaceMap.namespace_to_alias nm !! type_uri = Some alias
       ↔ declared d alias type_uri).
Proof.
  intros ([Ha2n Hn2a] & Hbound & _).
  assert (∀ alias type_uri,
            declared d alias type_uri →
            NamespaceMap.alias_to_namespace nm !! alias = Some type_uri
            ∧ NamespaceMap.namespace_to_alias nm !! type_uri = Some alias)
    as Hdecl.
  { intros alias type_uri Hd. apply (Hbound ("type." +:+ alias)).
    - by apply elem_of_map_to_list.
    - by apply type_alias_spec. }
  split; intros x y;
    (split; [|intros Hd; by destruct (Hdecl _ _ Hd)]).
  - intros (key & Hin & Hkey)%Ha2n.
    apply type_alias_spec in Hkey as ->. by apply elem_of_map_to_list.
  - intros (key & Hin & Hkey)%Hn2a.
    apply type_alias_spec in Hkey as ->. by apply elem_of_map_to_list.
Qed.

Lemma mark_required_loop R :
  ∀ self,
    (∀ type_uri, type_uri ∈ R →
       is_Some (FetchRequest.requested_attributes self !! type_uri)) →
    ∃ self',
      mfor_each (λ type_uri _, FetchRequest.mark_required type_uri) R tt self
      = (Ok tt, self')
      ∧ FetchRequest.update_url self' = FetchRequest.update_url self
      ∧ (∀ type_uri,
           is_Some (FetchRequest.requested_attributes self' !! type_uri)
           ↔ is_Some (FetchRequest.requested_attributes self !! type_uri))
      ∧ (∀ type_uri attribute',
           FetchRequest.requested_attributes self' !! type_uri
           = Some attribute' →
           ∃ attribute,
             FetchRequest.requested_attributes self !! type_uri
             = Some attribute
             ∧ (AttrInfo.required attribute' = true
                ↔ type_uri ∈ R ∨ AttrInfo.required attribute = true)).
Proof.
  induction R as [|u R IH]; intros self Hin.
  - exists self. split_and!; [done|done|done|].
    intros type_uri attribute' Hlook. exists attribute'. split; [done|].
    split; [by right|]. intros [Hnil|?]; [|done].
    by apply elem_of_nil in Hnil.
  - simpl. unfold mseq.
    destruct (Hin u (list_elem_of_here _ _)) as [attribute0 Hu].
    unfold FetchRequest.mark_required at 1. unfold mseq, mget, mlift, mput.
    rewrite (getitem_Some _ _ _ Hu).
    destruct (IH (FetchRequest.mk
                    (<[u := AttrInfo.set_required true attribute0]>
                       (FetchRequest.requested_attributes self))
                    (FetchRequest.update_url self)))
      as (self' & Hrun & Hurl & Hdom & Hreq).
    { intros type_uri Hr. simpl.
      destruct (decide (u = type_uri)) as [->|Hne].
      - rewrite lookup_insert_eq. eauto.
      - rewrite lookup_insert_ne by done. apply Hin.
        by apply list_elem_of_further. }
    exists self'. split_and!; [done|done| |].
    + intros type_uri. rewrite Hdom.
      cbn [FetchRequest.requested_attributes].
      destruct (decide (u = type_uri)) as [->|Hne].
      * rewrite lookup_insert_eq, Hu. split; eauto.
      * by rewrite lookup_insert_ne.
    + intros type_uri attribute' Hlook.
      destruct (Hreq _ _ Hlook) as (attribute1 & Hlook1 & Hiff).
      simpl in Hlook1.
      destruct (decide (u = type_uri)) as [->|Hne].
      * rewrite lookup_insert_eq in Hlook1. injection Hlook1 as <-.
        exists attribute0. split; [done|]. rewrite Hiff. simpl.
        split; [intros _; left; apply list_elem_of_here | by right].
      * rewrite lookup_insert_ne in Hlook1 by done.
        exists attribute1. split; [done|].
        rewrite Hiff, elem_of_cons.
        split; [tauto | intros [[->|?]|?]; [done | tauto | tauto]].
Qed.

Lemma check_listed_loop uris l :
  (for_each (FetchRequest.check_listed uris) l tt = Ok tt
   ∧ ∀ type_uri, type_uri ∈ l → type_uri ∈ uris)
  ∨ ∃ type_uri,
      type_uri ∈ l ∧ (type_uri ∉ uris)
      ∧ for_each (FetchRequest.check_listed uris) l tt
        = Raise (ValueError (NotRequiredNorIfAvailable type_uri)).
Proof.
  induction l as [|u l IH].
  - left. split; [done|]. intros ? Hin. by apply elem_of_nil in Hin.
  - simpl. unfold FetchRequest.check_listed at 1 3.
    destruct (decide (u ∈ uris)) as [Hu|Hu].
    + rewrite (bool_decide_eq_true_2 _ Hu). simpl.
      destruct IH as [[Hrun Hall]|(v & Hv & Hout & Hrun)].
      * left. split; [done|]. intros v [->|Hv]%elem_of_cons; auto.
      * right. exists v. split; [by apply list_elem_of_further | done].
    + rewrite (bool_decide_eq_false_2 _ Hu). simpl.
      right. exists u. split; [apply list_elem_of_here | done].
Qed.

Lemma resolved_elem nm aliases uris :
  Forall2 (λ alias type_uri,
             NamespaceMap.alias_to_namespace nm !! alias = Some type_uri)
          aliases uris →
  ∀ type_uri,
    type_uri ∈ uris
    ↔ ∃ alias, alias ∈ aliases
               ∧ NamespaceMap.alias_to_namespace nm !! alias = Some type_uri.
Proof.
  induction 1 as [|a u aliases uris Hau Hall IH]; intros type_uri.
  - split; [by intros ?%elem_of_nil|].
    by intros (alias & ?%elem_of_nil & _).
  - rewrite elem_of_cons, IH. split.
    + intros [->|(alias & Hin & Hlook)].
      * exists a. split; [apply list_elem_of_here | done].
      * exists alias. split; [by apply list_elem_of_further | done].
    + intros (alias & [->|Hin]%elem_of_cons & Hlook).
      * left. congruence.
      * right. eauto.
Qed.

Lemma iterNamespaceURIs_elem nm type_uri :
  type_uri ∈ NamespaceMap.iterNamespaceURIs nm
  ↔ ∃ alias, NamespaceMap.namespace_to_alias nm !! type_uri = Some alias.
Proof.
  unfold NamespaceMap.iterNamespaceURIs. rewrite list_elem_of_fmap. split.
  - intros ([u a] & -> & Hin). exists a. by apply elem_of_map_to_list.
  - intros [a Ha]. exists (type_uri, a). split; [done|].
    by apply elem_of_map_to_list.
Qed.

(** The run of [parseExtensionArgs] on a fresh request, up to its last
    loop. *)
Lemma request_parse_run (d : args) (url : option string) :
  d !! "mode" = Some "fetch_request" →
  types_distinct d → counts_readable d → lists_declared d →
  ∃ nm self2 R IA,
    (∀ type_uri alias,
       NamespaceMap.namespace_to_alias nm !! type_uri = Some alias
       ↔ declared d alias type_uri)
    ∧ (∀ type_uri, type_uri ∈ R ↔ listed d "required" type_uri)
    ∧ (∀ type_uri, type_uri ∈ IA ↔ listed d "if_available" type_uri)
    ∧ (∀ type_uri,
         is_Some (FetchRequest.requested_attributes self2 !! type_uri)
         ↔ ∃ alias, declared d alias type_uri)
    ∧ (∀ type_uri attribute,
         FetchRequest.requested_attributes self2 !! type_uri
         = Some attribute →
         AttrInfo.required attribute = true ↔ type_uri ∈ R)
    ∧ FetchRequest.parseExtensionArgs (Some d) (FetchRequest.new url)
      = match
          for_each (FetchRequest.check_listed (R ++ IA))
                   (NamespaceMap.iterNamespaceURIs nm) tt
        with
        | Ok _ =>
            (Ok tt,
             FetchRequest.mk (FetchRequest.requested_attributes self2)
                             (d !! "update_url"))
        | Raise e => (Raise e, self2)
        end.
Proof.
  intros Hmode Hdistinct Hcounts Hlists.
  destruct (request_types_loop d url Hdistinct Hcounts (map_to_list d) []
              NamespaceMap.new (FetchRequest.new url))
    as (nm & self1 & Hloop & Hinv); [done| |].
  { split; [|split_and!]; simpl; try done.
    - intros ? ? ? Hin. by apply elem_of_nil in Hin.
    - intros u. rewrite !lookup_empty. split; by intros [? ?]. }
  simpl in Hinv.
  destruct (requested_from_all _ _ _ _ Hinv) as [Ha2n Hn2a].
  destruct Hinv as (_ & _ & Hdom & Hfalse & Hurl).
  assert (∀ key, key = "required" ∨ key = "if_available" →
            ∃ uris, toTypeURIs nm (d !! key) = Ok uris
                    ∧ ∀ type_uri, type_uri ∈ uris ↔ listed d key type_uri)
    as Hresolve.
  { intros key Hkey.
    destruct (toTypeURIs_succeeds nm (d !! key)) as [uris Hrun].
    { intros alias Hin. destruct (Hlists key alias Hkey Hin) as [u Hu].
      exists u. by apply Ha2n. }
    exists uris. split; [done|]. intros type_uri.
    rewrite (resolved_elem _ _ _ (toTypeURIs_Ok _ _ _ Hrun)).
    unfold listed. by setoid_rewrite Ha2n. }
  destruct (Hresolve "required") as (R & HR & HRin); [by left|].
  destruct (Hresolve "if_available") as (IA & HIA & HIAin); [by right|].
  destruct (mark_required_loop R self1) as (self2 & Hmark & _ & Hdom2 & Hreq).
  { intros type_uri Hin. apply Hdom. apply HRin in Hin as (alias & _ & Hd).
    exists alias. by apply Hn2a. }
  exists nm, self2, R, IA. split_and!; [done|done|done| | |].
  - intros type_uri. rewrite Hdom2, Hdom. unfold is_Some.
    by setoid_rewrite Hn2a.
  - intros type_uri attribute Hlook.
    destruct (Hreq _ _ Hlook) as (attribute1 & Hlook1 & ->).
    rewrite (Hfalse _ _ Hlook1). split; [by intros [?|?] | by left].
  - unfold FetchRequest.parseExtensionArgs, _checkMode, FetchRequest.mode.
    unfold mseq at 1. unfold mlift at 1.
    rewrite Hmode, decide_True by done.
    unfold mseq at 1. rewrite Hloop.
    unfold mseq at 1. unfold mlift at 1. rewrite HR.
    unfold mseq at 1. rewrite Hmark.
    unfold mseq at 1. unfold mlift at 1. rewrite HIA.
    unfold mseq, mlift, mget, mput.
    by destruct (for_each _ _ tt) as [[]|e].
Qed.

(** C6, amended: for arguments of mode fetch_request in which no type URI
    is declared under two aliases, every count of a declared alias is empty
    or an integer, and every alias named in [required] or [if_available] is
    declared, parsing into a fresh request raises if and only if some
    declared type URI is in neither list, and the exception then is the
    [ValueError] naming such a type URI; when every declared type URI is in
    one of the lists the parse succeeds, the request holds exactly the
    declared type URIs, and exactly those resolved from [required] are
    marked required. *)
Theorem request_parse_requiredness (d : args) (url : option string) :
  d !! "mode" = Some "fetch_request" →
  types_distinct d → counts_readable d → lists_declared d →
  ((∃ e, (FetchRequest.parseExtensionArgs (Some d)
            (FetchRequest.new url)).1 = Raise e)
   ↔ ∃ type_uri, unlisted d type_uri)
  ∧ ((∃ type_uri, unlisted d type_uri) →
     ∃ type_uri,
       unlisted d type_uri
       ∧ (FetchRequest.parseExtensionArgs (Some d) (FetchRequest.new url)).1
         = Raise (ValueError (NotRequiredNorIfAvailable type_uri)))
  ∧ ((∀ alias type_uri,
        declared d alias type_uri →
        listed d "required" type_uri ∨ listed d "if_available" type_uri) →
     ∃ parsed,
       FetchRequest.parseExtensionArgs (Some d) (FetchRequest.new url)
       = (Ok tt, parsed)
       ∧ (∀ type_uri,
            is_Some (FetchRequest.requested_attributes parsed !! type_uri)
            ↔ ∃ alias, declared d alias type_uri)
       ∧ (∀ type_uri attribute,
            FetchRequest.requested_attributes parsed !! type_uri
            = Some attribute →
            AttrInfo.required attribute = true
            ↔ listed d "required" type_uri)).
Proof.
  intros Hmode Hdistinct Hcounts Hlists.
  destruct (request_parse_run d url Hmode Hdistinct Hcounts Hlists)
    as (nm & self2 & R & IA & Hn2a & HR & HIA & Hdom & Hreq & Hrun).
  assert (∀ type_uri,
            type_uri ∈ R ++ IA
            ↔ listed d "required" type_uri
              ∨ listed d "if_available" type_uri) as Hall.
  { intros type_uri. by rewrite elem_of_app, HR, HIA. }
  assert (∀ type_uri,
            type_uri ∈ NamespaceMap.iterNamespaceURIs nm
            ↔ ∃ alias, declared d alias type_uri) as Hiter.
  { intros type_uri. rewrite iterNamespaceURIs_elem.
    by setoid_rewrite Hn2a. }
  rewrite Hrun.
  destruct (check_listed_loop (R ++ IA) (NamespaceMap.iterNamespaceURIs nm))
    as [[-> Hin]|(type_uri & Hin & Hout & ->)].
  - assert (∀ type_uri, ¬ unlisted d type_uri) as Hnone.
    { intros type_uri (Hdecl & Hno1 & Hno2).
      apply Hiter, Hin, Hall in Hdecl. tauto. }
    split_and!.
    + split; [by intros [e ?] | by intros [type_uri ?%Hnone]].
    + by intros [type_uri ?%Hnone].
    + intros _. eexists. split; [done|]. simpl. split; [done|].
      intros type_uri attribute Hlook. by rewrite (Hreq _ _ Hlook), HR.
  - assert (unlisted d type_uri) as Hun.
    { split; [by apply Hiter|]. rewrite Hall in Hout. tauto. }
    split_and!.
    + split; [by exists type_uri | by eexists].
    + intros _. by exists type_uri.
    + intros Hlisted. destruct Hun as ([alias Hdecl] & Hno1 & Hno2).
      destruct (Hlisted _ _ Hdecl); tauto.
Qed.

Lemma good_args_items :
  map_to_list Sample.good_args
  = [("count.b", "2"); ("mode", "fetch_request"); ("if_available", "b");
     ("required", "a"); ("type.a", Sample.email); ("type.b", Sample.name)].
Proof. vm_compute; reflexivity. Qed.

Lemma unlisted_args_items :
  map_to_list Sample.unlisted_args
  = [("count.b", "2"); ("mode", "fetch_request"); ("required", "a");
     ("type.a", Sample.email); ("type.b", Sample.name)].
Proof. vm_compute; reflexivity. Qed.

Lemma bad_count_args_items :
  map_to_list Sample.bad_count_args
  = [("count.a", "x"); ("mode", "fetch_request"); ("required", "a");
     ("type.a", Sample.email)].
Proof. vm_compute; reflexivity. Qed.

(** C6 as stated fails: every declared type URI is in the required list,
    and the parse raises all the same, on the count. *)
Lemma request_parse_fails_on_count :
  Sample.bad_count_args !! "mode" = Some "fetch_request"
  ∧ (∀ alias type_uri,
       declared Sample.bad_count_args alias type_uri →
       listed Sample.bad_count_args "required" type_uri)
  ∧ (FetchRequest.parseExtensionArgs (Some Sample.bad_count_args)
       (FetchRequest.new None)).1
    = Raise (ValueError (InvalidIntLiteral "x")).
Proof.
  split_and!; [vm_compute; reflexivity | | vm_compute; reflexivity].
  each_declared bad_count_args_items.
  exists "a". split; [|vm_compute; reflexivity].
  assert (alias_list (Sample.bad_count_args !! "required") = ["a"]) as ->
    by (vm_compute; reflexivity).
  apply list_elem_of_here.
Qed.

Lemma request_parse_requiredness_witness :
  (∃ parsed,
     FetchRequest.parseExtensionArgs (Some Sample.good_args)
       (FetchRequest.new None) = (Ok tt, parsed)
     ∧ (∀ type_uri,
          is_Some (FetchRequest.requested_attributes parsed !! type_uri)
          ↔ ∃ alias, declared Sample.good_args alias type_uri)
     ∧ (∀ type_uri attribute,
          FetchRequest.requested_attributes parsed !! type_uri
          = Some attribute →
          AttrInfo.required attribute = true
          ↔ listed Sample.good_args "required" type_uri))
  ∧ (∃ type_uri,
       unlisted Sample.unlisted_args type_uri
       ∧ (FetchRequest.parseExtensionArgs (Some Sample.unlisted_args)
            (FetchRequest.new None)).1
         = Raise (ValueError (NotRequiredNorIfAvailable type_uri))).
Proof.
  assert (alias_list (Sample.good_args !! "required") = ["a"]) as Hreq
    by (vm_compute; reflexivity).
  assert (alias_list (Sample.good_args !! "if_available") = ["b"]) as Hopt
    by (vm_compute; reflexivity).
  assert (alias_list (Sample.unlisted_args !! "required") = ["a"]) as Hreq'
    by (vm_compute; reflexivity).
  assert (alias_list (Sample.unlisted_args !! "if_available") = []) as Hopt'
    by (vm_compute; reflexivity).
  split.
  - destruct (request_parse_requiredness Sample.good_args None)
      as (_ & _ & Hgood).
    + vm_compute; reflexivity.
    + intros alias1 alias2 type_uri H1. revert alias2.
      revert alias1 type_uri H1. each_declared good_args_items.
      * intros alias2 H2.
        enough (∀ a u, declared Sample.good_args a u →
                       u = Sample.email → "a" = a) by eauto.
        each_declared good_args_items; [done|discriminate].
      * intros alias2 H2.
        enough (∀ a u, declared Sample.good_args a u →
                       u = Sample.name → "b" = a) by eauto.
        each_declared good_args_items; [discriminate|done].
    + intros alias type_uri count_s Hd. revert count_s.
      revert alias type_uri Hd. each_declared good_args_items.
      * intros count_s Hc. vm_compute in Hc. discriminate.
      * intros count_s Hc. vm_compute in Hc. injection Hc as <-.
        right. exists 2. vm_compute; reflexivity.
    + intros key alias [->| ->] Hin.
      * rewrite Hreq in Hin. apply list_elem_of_singleton in Hin as ->.
        exists Sample.email. vm_compute; reflexivity.
      * rewrite Hopt in Hin. apply list_elem_of_singleton in Hin as ->.
        exists Sample.name. vm_compute; reflexivity.
    + apply Hgood. each_declared good_args_items.
      * left. exists "a". rewrite Hreq.
        split; [apply list_elem_of_here | vm_compute; reflexivity].
      * right. exists "b". rewrite Hopt.
        split; [apply list_elem_of_here | vm_compute; reflexivity].
  - destruct (request_parse_requiredness Sample.unlisted_args None)
      as (_ & Hbad & _).
    + vm_compute; reflexivity.
    + intros alias1 alias2 type_uri H1. revert alias2.
      revert alias1 type_uri H1. each_declared unlisted_args_items.
      * intros alias2 H2.
        enough (∀ a u, declared Sample.unlisted_args a u →
                       u = Sample.email → "a" = a) by eauto.
        each_declared unlisted_args_items; [done|discriminate].
      * intros alias2 H2.
        enough (∀ a u, declared Sample.unlisted_args a u →
                       u = Sample.name → "b" = a) by eauto.
        each_declared unlisted_args_items; [discriminate|done].
    + intros alias type_uri count_s Hd. revert count_s.
      revert alias type_uri Hd. each_declared unlisted_args_items.
      * intros count_s Hc. vm_compute in Hc. discriminate.
      * intros count_s Hc. vm_compute in Hc. injection Hc as <-.
        right. exists 2. vm_compute; reflexivity.
    + intros key alias [->| ->] Hin.
      * rewrite Hreq' in Hin. apply list_elem_of_singleton in Hin as ->.
        exists Sample.email. vm_compute; reflexivity.
      * rewrite Hopt' in Hin. by apply elem_of_nil in Hin.
    + apply Hbad. exists Sample.name. split_and!.
      * exists "b". vm_compute; reflexivity.
      * intros (alias & Hin & Hdecl). rewrite Hreq' in Hin.
        apply list_elem_of_singleton in Hin as ->.
        vm_compute in Hdecl. discriminate.
      * intros (alias & Hin & _). rewrite Hopt' in Hin.
        by apply elem_of_nil in Hin.
Defined.

(** * Further properties *)

(** ** Strings *)

Lemma all_chars_impl (p q : ascii → bool) s :
  (∀ a, p a = true → q a = true) →
  all_chars p s = true → all_chars q s = true.
Proof.
  intros Himpl. induction s as [|a s IH]; simpl; [done|].
  intros [Ha Hs]%andb_true_iff. apply andb_true_iff. auto.
Qed.

Lemma all_chars_app p s t :
  all_chars p (s +:+ t) = all_chars p s && all_chars p t.
Proof.
  induction s as [|a s IH]; simpl; [done|]. by rewrite IH, andb_assoc.
Qed.

Lemma all_chars_rev_app p s t :
  all_chars p (String.rev_app s t) = all_chars p s && all_chars p t.
Proof.
  revert t. induction s as [|a s IH]; intros t; simpl; [done|].
  rewrite IH. simpl. rewrite !andb_assoc. f_equal. apply andb_comm.
Qed.

Lemma append_empty_r s : s +:+ "" = s.
Proof.
  induction s as [|a s IH]; [done|].
  change (String a (s +:+ "") = String a s). by f_equal.
Qed.

Lemma rev_app_rev_app s t u :
  String.rev_app (String.rev_app s t) u = String.rev_app t (s +:+ u).
Proof.
  revert t u. induction s as [|a s IH]; intros t u; simpl; [done|].
  by rewrite IH.
Qed.

Lemma rev_rev_app cur s :
  String.rev (String.rev_app s cur) = String.rev_app cur s.
Proof.
  unfold String.rev. by rewrite rev_app_rev_app, append_empty_r.
Qed.

Lemma rev_involutive s : String.rev (String.rev s) = s.
Proof. unfold String.rev at 2. by rewrite rev_rev_app. Qed.

(** ** split and join *)

Lemma split_go_piece cur x :
  no_comma x = true → Py.split_go "," cur x = [String.rev_app cur x].
Proof.
  revert cur. induction x as [|a x IH]; intros cur; simpl.
  - by intros _.
  - intros [Ha Hx]%andb_true_iff. apply negb_true_iff in Ha. rewrite Ha.
    by rewrite (IH _ Hx).
Qed.

Lemma split_go_comma cur x rest :
  no_comma x = true →
  Py.split_go "," cur (x +:+ String "," rest)
  = String.rev_app cur x :: Py.split_go "," "" rest.
Proof.
  revert cur. induction x as [|a x IH]; intros cur; simpl.
  - by intros _.
  - intros [Ha Hx]%andb_true_iff. apply negb_true_iff in Ha. rewrite Ha.
    by rewrite (IH _ Hx).
Qed.

Lemma split_join l :
  l ≠ [] → Forall (λ x, no_comma x = true) l →
  Py.split "," (Py.join "," l) = l.
Proof.
  unfold Py.split. induction l as [|x l IH]; [done|].
  intros _ Hall. apply Forall_cons in Hall as [Hx Hl].
  destruct l as [|y l].
  - simpl. by rewrite split_go_piece.
  - change (Py.join "," (x :: y :: l))
      with (x +:+ String "," (Py.join "," (y :: l))).
    rewrite split_go_comma by done. simpl String.rev_app.
    by rewrite IH.
Qed.

Lemma join_nonempty l :
  l ≠ [] → Forall (λ x, x ≠ "") l → Py.join "," l ≠ "".
Proof.
  destruct l as [|x l]; [done|]. intros _ Hall.
  apply Forall_cons in Hall as [Hx _].
  destruct l as [|y l]; [done|].
  change (Py.join "," (x :: y :: l))
    with (x +:+ String "," (Py.join "," (y :: l))).
  by destruct x.
Qed.

(** ** str and int *)

Lemma digit_pretty_char (m : N) :
  (m < 10)%N → Py.digit (pretty_N_char m) = Some (Z.of_N m).
Proof.
  intros Hm.
  assert (m = 0 ∨ m = 1 ∨ m = 2 ∨ m = 3 ∨ m = 4 ∨ m = 5 ∨ m = 6 ∨ m = 7
          ∨ m = 8 ∨ m = 9)%N as Hcases by lia.
  repeat destruct Hcases as [->|Hcases]; try subst m; reflexivity.
Qed.

Lemma pretty_go_digits (x : N) s :
  all_chars is_digit s = true →
  all_chars is_digit (pretty_N_go x s) = true.
Proof.
  revert s. induction (N.lt_wf_0 x) as [x _ IH]; intros s Hs.
  assert (x = 0 ∨ 0 < x)%N as [->|Hpos] by lia.
  - by rewrite pretty_N_go_0.
  - rewrite pretty_N_go_step by done. apply IH; [by apply N.div_lt|].
    simpl. rewrite Hs, andb_true_r. unfold is_digit.
    by rewrite digit_pretty_char by (by apply N.mod_lt).
Qed.

Lemma pretty_go_nonempty (x : N) s : s ≠ "" → pretty_N_go x s ≠ "".
Proof.
  revert s. induction (N.lt_wf_0 x) as [x _ IH]; intros s Hs.
  assert (x = 0 ∨ 0 < x)%N as [->|Hpos] by lia.
  - by rewrite pretty_N_go_0.
  - rewrite pretty_N_go_step by done. by apply IH; [apply N.div_lt|].
Qed.

Lemma pretty_N_digits (x : N) :
  all_chars is_digit (pretty x) = true ∧ pretty x ≠ "".
Proof.
  unfold pretty, pretty_N. case_decide as Hx; [done|].
  split; [by apply pretty_go_digits|].
  rewrite pretty_N_go_step by lia. by apply pretty_go_nonempty.
Qed.

Lemma digits_pretty_go (x : N) :
  ∃ k : nat, ∀ acc s,
    Py.digits acc (pretty_N_go x s)
    = Py.digits (acc * 10 ^ Z.of_nat k + Z.of_N x) s.
Proof.
  induction (N.lt_wf_0 x) as [x _ IH].
  assert (x = 0 ∨ 0 < x)%N as [->|Hpos] by lia.
  - exists 0%nat. intros acc s. rewrite pretty_N_go_0. f_equal. simpl. lia.
  - destruct (IH (x `div` 10)%N) as [k Hk]; [by apply N.div_lt|].
    exists (S k). intros acc s.
    rewrite pretty_N_go_step, Hk by done. simpl.
    rewrite digit_pretty_char by (by apply N.mod_lt). f_equal.
    rewrite Nat2Z.inj_succ, Z.pow_succ_r by lia.
    rewrite (N.div_mod x 10) at 3 by done.
    rewrite N2Z.inj_add, N2Z.inj_mul. simpl. lia.
Qed.

Lemma unsigned_pretty_N (x : N) : Py.unsigned (pretty x) = Some (Z.of_N x).
Proof.
  unfold pretty, pretty_N. case_decide as Hx; [by subst|].
  destruct (digits_pretty_go x) as [k Hk].
  assert (pretty_N_go x "" ≠ "") as Hne.
  { rewrite pretty_N_go_step by lia. by apply pretty_go_nonempty. }
  unfold Py.unsigned. destruct (pretty_N_go x "") eqn:Hs; [done|].
  rewrite <- Hs, Hk. simpl. f_equal; lia.
Qed.

Lemma lstrip_no_space s :
  all_chars (λ a, negb (Py.is_space a)) s = true → Py.lstrip s = s.
Proof.
  destruct s as [|a s]; simpl; [done|].
  intros [Ha _]%andb_true_iff. apply negb_true_iff in Ha. by rewrite Ha.
Qed.

Lemma strip_no_space s :
  all_chars (λ a, negb (Py.is_space a)) s = true → Py.strip s = s.
Proof.
  intros Hs. unfold Py.strip. rewrite (lstrip_no_space s) by done.
  rewrite lstrip_no_space, rev_involutive; [done|].
  unfold String.rev. by rewrite all_chars_rev_app, Hs.
Qed.

Lemma digit_not_space a : is_digit a = true → negb (Py.is_space a) = true.
Proof.
  unfold is_digit, Py.digit, Py.is_space.
  destruct (_ && _) eqn:Hd; [|done]. intros _.
  apply andb_true_iff in Hd as [H1 H2].
  apply Nat.leb_le in H1, H2. apply negb_true_iff, orb_false_iff. split.
  - apply Nat.eqb_neq. lia.
  - apply andb_false_iff. right. apply Nat.leb_gt. lia.
Qed.

Lemma digit_not_comma a : is_digit a = true → negb (Ascii.eqb a ",") = true.
Proof.
  intros Hd. apply negb_true_iff, Ascii.eqb_neq. by intros ->.
Qed.

Lemma int_unsigned s :
  all_chars is_digit s = true → s ≠ "" →
  Py.int s = match Py.unsigned s with
             | Some n => Ok n
             | None => Raise (ValueError (InvalidIntLiteral s))
             end.
Proof.
  intros Hs Hne. unfold Py.int.
  rewrite strip_no_space
    by (eapply all_chars_impl; [apply digit_not_space | done]).
  destruct s as [|a s]; [done|].
  simpl in Hs. apply andb_true_iff in Hs as [Ha _].
  assert (a ≠ "-"%char ∧ a ≠ "+"%char) as [Hminus Hplus].
  { split; by intros ->. }
  destruct a as [[] [] [] [] [] [] [] []]; try done.
Qed.

Lemma int_minus s :
  all_chars is_digit s = true →
  Py.int (String "-" s)
  = match Py.unsigned s with
    | Some n => Ok (- n)
    | None => Raise (ValueError (InvalidIntLiteral (String "-" s)))
    end.
Proof.
  intros Hs. unfold Py.int. rewrite strip_no_space.
  - simpl. by destruct (Py.unsigned s).
  - simpl. eapply all_chars_impl; [apply digit_not_space | done].
Qed.

Lemma int_str (c : Z) : Py.int (Py.str c) = Ok c.
Proof.
  destruct c as [|p|p].
  - reflexivity.
  - destruct (pretty_N_digits (N.pos p)) as [Hd Hne].
    change (Py.int (pretty (N.pos p)) = Ok (Z.pos p)).
    rewrite int_unsigned, unsigned_pretty_N by done. done.
  - destruct (pretty_N_digits (N.pos p)) as [Hd Hne].
    change (Py.int (String "-" (pretty (N.pos p))) = Ok (Z.neg p)).
    rewrite int_minus, unsigned_pretty_N by done. done.
Qed.

Lemma str_nonempty (c : Z) : Py.str c ≠ "".
Proof. intros Hs. pose proof (int_str c) as Hint. by rewrite Hs in Hint. Qed.

Lemma numbered_plain (i : nat) :
  no_comma (NamespaceMap.numbered i) = true
  ∧ NamespaceMap.numbered i ≠ "".
Proof.
  unfold NamespaceMap.numbered. split; [|done].
  change ("ext" +:+ pretty i)
    with (String "e" (String "x" (String "t" (pretty i)))).
  unfold no_comma. simpl.
  eapply all_chars_impl; [apply digit_not_comma|].
  apply (pretty_N_digits (N.of_nat i)).
Qed.

(** ** Mode check *)

(** X1: arguments whose [mode] is absent or is not the mode of the class are
    refused by [parseExtensionArgs] with [AXError] before anything is read,
    by a request and by a response alike; the object is left as it was. *)
Theorem parse_rejects_other_mode (d : args) :
  (d !! "mode" ≠ Some "fetch_request" →
   ∀ self,
     FetchRequest.parseExtensionArgs (Some d) self
     = (Raise (AXError (d !! "mode")), self))
  ∧ (d !! "mode" ≠ Some "fetch_response" →
     ∀ self,
       FetchResponse.parseExtensionArgs (Some d) self
       = (Raise (AXError (d !! "mode")), self)).
Proof.
  split; intros Hmode self.
  - unfold FetchRequest.parseExtensionArgs, _checkMode, FetchRequest.mode.
    unfold mseq at 1. unfold mlift at 1.
    by rewrite decide_False.
  - unfold FetchResponse.parseExtensionArgs, _checkMode, FetchResponse.mode.
    unfold mseq at 1. unfold mlift at 1.
    by rewrite decide_False.
Qed.

Lemma parse_rejects_other_mode_witness :
  FetchRequest.parseExtensionArgs (Some Sample.response_args)
    (FetchRequest.new None)
  = (Raise (AXError (Some "fetch_response")), FetchRequest.new None)
  ∧ FetchResponse.parseExtensionArgs (Some ∅) FetchResponse.unbound
    = (Raise (AXError None), FetchResponse.unbound).
Proof.
  split.
  - destruct (parse_rejects_other_mode Sample.response_args) as [Hreq _].
    assert (Sample.response_args !! "mode" = Some "fetch_response") as Hm
      by (vm_compute; reflexivity).
    rewrite Hreq by (rewrite Hm; discriminate). by rewrite Hm.
  - destruct (parse_rejects_other_mode ∅) as [_ Hresp].
    apply (Hresp ltac:(by rewrite lookup_empty)).
Defined.

(** ** FetchRequest.add *)

(** X2: [FetchRequest.add] stores an attribute under its type URI when the
    type URI is new, leaving the other attributes and the update URL alone,
    and raises [KeyError] without changing the request when the type URI is
    already requested; adding the same attribute twice in a row fails the
    second time. *)
Theorem add_spec (attribute : AttrInfo.t) (self : FetchRequest.t) :
  (FetchRequest.requested_attributes self !! AttrInfo.type_uri attribute
   = None →
   ∃ self',
     FetchRequest.add attribute self = (Ok tt, self')
     ∧ FetchRequest.requested_attributes self'
         !! AttrInfo.type_uri attribute = Some attribute
     ∧ FetchRequest.has_key (AttrInfo.type_uri attribute) self' = true
     ∧ (∀ type_uri, type_uri ≠ AttrInfo.type_uri attribute →
          FetchRequest.requested_attributes self' !! type_uri
          = FetchRequest.requested_attributes self !! type_uri)
     ∧ FetchRequest.update_url self' = FetchRequest.update_url self)
  ∧ (is_Some (FetchRequest.requested_attributes self
                !! AttrInfo.type_uri attribute) →
     FetchRequest.add attribute self
     = (Raise (KeyError (AttrInfo.type_uri attribute)), self))
  ∧ (FetchRequest.add attribute (FetchRequest.add attribute self).2).1
    = Raise (KeyError (AttrInfo.type_uri attribute)).
Proof.
  assert (∀ s, is_Some (FetchRequest.requested_attributes s
                          !! AttrInfo.type_uri attribute) →
               FetchRequest.add attribute s
               = (Raise (KeyError (AttrInfo.type_uri attribute)), s))
    as Hdup.
  { intros s [present Hin].
    unfold FetchRequest.add, mseq, mget, mraise. by rewrite Hin. }
  assert (FetchRequest.requested_attributes self
            !! AttrInfo.type_uri attribute = None →
          FetchRequest.add attribute self
          = (Ok tt,
             FetchRequest.mk
               (<[AttrInfo.type_uri attribute := attribute]>
                  (FetchRequest.requested_attributes self))
               (FetchRequest.update_url self))) as Hnew.
  { intros Hout. unfold FetchRequest.add, mseq, mget, mput.
    by rewrite Hout. }
  split_and!.
  - intros Hout. eexists. split; [by apply Hnew|]. simpl.
    split_and!; [by rewrite lookup_insert_eq | | |done].
    + unfold FetchRequest.has_key. simpl. apply bool_decide_eq_true_2.
      rewrite lookup_insert_eq. by eexists.
    + intros type_uri Hne. by rewrite lookup_insert_ne.
  - apply Hdup.
  - destruct (FetchRequest.requested_attributes self
                !! AttrInfo.type_uri attribute) as [present|] eqn:Hin.
    + rewrite (Hdup self) by (by eexists). simpl.
      rewrite (Hdup self) by (by eexists). done.
    + rewrite (Hnew eq_refl). simpl. rewrite Hdup; [done|]. simpl.
      rewrite lookup_insert_eq. by eexists.
Qed.

Lemma add_spec_witness :
  FetchRequest.add (AttrInfo.new Sample.email (Some 3) false None)
    Sample.counted_request
  = (Raise (KeyError Sample.email), Sample.counted_request)
  ∧ ∃ self',
      FetchRequest.add (AttrInfo.new Sample.name None true (Some "nm"))
        Sample.counted_request = (Ok tt, self')
      ∧ FetchRequest.has_key Sample.name self' = true.
Proof.
  split.
  - destruct (add_spec (AttrInfo.new Sample.email (Some 3) false None)
                Sample.counted_request) as (_ & Hdup & _).
    apply Hdup. vm_compute. by eexists.
  - destruct (add_spec (AttrInfo.new Sample.name None true (Some "nm"))
                Sample.counted_request) as (Hnew & _ & _).
    destruct Hnew as (self' & Hrun & _ & Hkey & _);
      [vm_compute; reflexivity|].
    exists self'. by split.
Defined.

(** ** FetchRequest: iteration *)

(** X3: [iter] lists the requested type URIs without repetition, and they
    are the ones [has_key] accepts; [iterAttrs] lists the attributes stored,
    as many as [iter] lists type URIs; a request built with [add] alone
    keeps every attribute under its own type URI, and then [iterAttrs] and
    [iter] go through the attributes in step. *)
Theorem iteration_spec (self : FetchRequest.t) :
  NoDup (FetchRequest.iter self)
  ∧ (∀ type_uri,
       type_uri ∈ FetchRequest.iter self
       ↔ FetchRequest.has_key type_uri self = true)
  ∧ (∀ attribute,
       attribute ∈ FetchRequest.iterAttrs self
       ↔ ∃ type_uri,
           FetchRequest.requested_attributes self !! type_uri
           = Some attribute)
  ∧ length (FetchRequest.iterAttrs self) = length (FetchRequest.iter self)
  ∧ (∀ update_url, keyed_by_type (FetchRequest.new update_url))
  ∧ (∀ attribute,
       keyed_by_type self →
       keyed_by_type (FetchRequest.add attribute self).2)
  ∧ (keyed_by_type self →
     AttrInfo.type_uri <$> FetchRequest.iterAttrs self
     = FetchRequest.iter self).
Proof.
  unfold FetchRequest.iter, FetchRequest.iterAttrs, FetchRequest.has_key.
  split_and!.
  - apply NoDup_fst_map_to_list.
  - intros type_uri. rewrite list_elem_of_fmap. split.
    + intros ([u attribute] & -> & Hin). apply bool_decide_eq_true_2.
      apply elem_of_map_to_list in Hin. by eexists.
    + intros [attribute Hin]%bool_decide_eq_true_1.
      exists (type_uri, attribute). split; [done|].
      by apply elem_of_map_to_list.
  - intros attribute. rewrite list_elem_of_fmap. split.
    + intros ([u attribute'] & -> & Hin). exists u.
      by apply elem_of_map_to_list.
    + intros [u Hin]. exists (u, attribute). split; [done|].
      by apply elem_of_map_to_list.
  - by rewrite !length_fmap.
  - intros update_url type_uri attribute Hin. simpl in Hin.
    by rewrite lookup_empty in Hin.
  - intros attribute Hkeys. unfold FetchRequest.add, mseq, mget, mraise, mput.
    destruct (FetchRequest.requested_attributes self
                !! AttrInfo.type_uri attribute) eqn:Hin; [done|].
    intros type_uri attribute' Hlook. simpl in Hlook.
    apply lookup_insert_Some in Hlook as [[<- <-]|[_ Hlook]]; [done|].
    by apply Hkeys.
  - intros Hkeys. rewrite <- list_fmap_compose. apply list_fmap_ext.
    intros i [u attribute] Hi. simpl. apply Hkeys.
    apply elem_of_map_to_list. by eapply list_elem_of_lookup_2.
Qed.

Lemma iteration_spec_witness :
  FetchRequest.iter Sample.mixed_request = [Sample.email; Sample.name]
  ∧ AttrInfo.type_uri <$> FetchRequest.iterAttrs Sample.mixed_request
    = FetchRequest.iter Sample.mixed_request.
Proof.
  split; [vm_compute; reflexivity|].
  destruct (iteration_spec Sample.mixed_request)
    as (_ & _ & _ & _ & _ & _ & Hstep).
  apply Hstep. unfold Sample.mixed_request.
  match goal with |- keyed_by_type (FetchRequest.add _ ?s).2 =>
    destruct (iteration_spec s) as (_ & _ & _ & _ & _ & Hadd & _) end.
  apply Hadd.
  destruct (iteration_spec (FetchRequest.new None))
    as (_ & _ & _ & _ & Hnew & Hadd0 & _).
  apply Hadd0, Hnew.
Defined.

(** ** FetchRequest.getRequiredAttrs *)

Lemma required_fold l :
  ∀ acc : list string,
    foldl (λ required '(type_uri, attribute),
             if AttrInfo.required attribute then required ++ [type_uri]
             else required) acc l
    = acc ++ (filter (λ kv, AttrInfo.required kv.2 = true) l).*1.
Proof.
  induction l as [|[u attribute] l IH]; intros acc; simpl.
  - by rewrite app_nil_r.
  - rewrite IH. rewrite filter_cons. simpl.
    destruct (AttrInfo.required attribute) eqn:Hreq.
    + rewrite decide_True by done. simpl. by rewrite <- app_assoc.
    + by rewrite decide_False by done.
Qed.

(** X4: [getRequiredAttrs] lists, without repetition, exactly the type URIs
    whose attribute is marked required. *)
Theorem getRequiredAttrs_spec (self : FetchRequest.t) :
  NoDup (FetchRequest.getRequiredAttrs self)
  ∧ ∀ type_uri,
      type_uri ∈ FetchRequest.getRequiredAttrs self
      ↔ ∃ attribute,
          FetchRequest.requested_attributes self !! type_uri = Some attribute
          ∧ AttrInfo.required attribute = true.
Proof.
  unfold FetchRequest.getRequiredAttrs. rewrite required_fold. simpl.
  split.
  - apply (NoDup_fmap_fst _).
    + intros u a1 a2 [_ H1]%list_elem_of_filter [_ H2]%list_elem_of_filter.
      apply elem_of_map_to_list in H1, H2. congruence.
    + apply NoDup_filter, NoDup_map_to_list.
  - intros type_uri. rewrite list_elem_of_fmap. split.
    + intros ([u attribute] & -> & [Hreq Hin]%list_elem_of_filter).
      apply elem_of_map_to_list in Hin. by exists attribute.
    + intros (attribute & Hin & Hreq). exists (type_uri, attribute).
      split; [done|]. apply list_elem_of_filter. split; [done|].
      by apply elem_of_map_to_list.
Qed.

(** ** toTypeURIs *)

Lemma resolve_loop_complete nm l :
  ∀ acc new,
    Forall2 (λ alias type_uri,
               NamespaceMap.alias_to_namespace nm !! alias = Some type_uri)
            l new →
    for_each (resolve_alias nm) l acc = Ok (acc ++ new).
Proof.
  induction l as [|a l IH]; intros acc new Hall.
  - apply Forall2_nil_inv_l in Hall as ->. by rewrite app_nil_r.
  - apply Forall2_cons_inv_l in Hall as (u & new' & Hu & Hall & ->).
    simpl. unfold resolve_alias at 1, NamespaceMap.getNamespaceURI.
    rewrite Hu. simpl. rewrite (IH _ _ Hall). by rewrite <- app_assoc.
Qed.

Lemma resolve_loop_unknown nm l :
  ∀ acc alias,
    alias ∈ l → NamespaceMap.alias_to_namespace nm !! alias = None →
    ∃ unknown,
      unknown ∈ l
      ∧ NamespaceMap.alias_to_namespace nm !! unknown = None
      ∧ for_each (resolve_alias nm) l acc = Raise (KeyError unknown).
Proof.
  induction l as [|a l IH]; intros acc alias Hin Hnone.
  - by apply elem_of_nil in Hin.
  - simpl. unfold resolve_alias at 1, NamespaceMap.getNamespaceURI.
    destruct (NamespaceMap.alias_to_namespace nm !! a) as [u|] eqn:Hu.
    + simpl. apply elem_of_cons in Hin as [->|Hin]; [congruence|].
      destruct (IH (acc ++ [u]) _ Hin Hnone) as (unknown & ? & ? & ?).
      exists unknown. split; [by apply list_elem_of_further | done].
    + exists a. split; [apply list_elem_of_here | done].
Qed.

(** X5: [toTypeURIs] gives the empty list for [None] and for the empty
    string; for any other string it returns exactly when every alias between
    the commas is bound, and then gives their type URIs in order, duplicates
    included; when some alias is unbound it raises [KeyError] for an unbound
    alias of the list. *)
Theorem toTypeURIs_spec (namespace_map : NamespaceMap.t) :
  toTypeURIs namespace_map None = Ok []
  ∧ toTypeURIs namespace_map (Some "") = Ok []
  ∧ ∀ s, s ≠ "" →
      (∀ uris,
         toTypeURIs namespace_map (Some s) = Ok uris
         ↔ Forall2 (λ alias type_uri,
                      NamespaceMap.getNamespaceURI alias namespace_map
                      = Some type_uri)
                   (Py.split "," s) uris)
      ∧ (∀ alias,
           alias ∈ Py.split "," s →
           NamespaceMap.getNamespaceURI alias namespace_map = None →
           ∃ unknown,
             unknown ∈ Py.split "," s
             ∧ NamespaceMap.getNamespaceURI unknown namespace_map = None
             ∧ toTypeURIs namespace_map (Some s) = Raise (KeyError unknown)).
Proof.
  split_and!; [done|done|].
  intros s Hs.
  assert (toTypeURIs namespace_map (Some s)
          = for_each (resolve_alias namespace_map) (Py.split "," s) [])
    as Hrun.
  { unfold toTypeURIs. by destruct s. }
  rewrite Hrun. split.
  - intros uris. split.
    + intros Hok. by apply resolve_loop_Ok in Hok as (new & -> & Hall).
    + intros Hall. by rewrite (resolve_loop_complete _ _ [] _ Hall).
  - intros alias Hin Hnone. by apply (resolve_loop_unknown _ _ _ alias).
Qed.

Lemma toTypeURIs_spec_witness :
  ∃ nm,
    NamespaceMap.addAlias Sample.email "a" NamespaceMap.new = Ok ("a", nm)
    ∧ toTypeURIs nm (Some "a,a") = Ok [Sample.email; Sample.email]
    ∧ ∃ unknown, toTypeURIs nm (Some "a,b") = Raise (KeyError unknown).
Proof.
  eexists. split; [reflexivity|].
  match goal with |- toTypeURIs ?nm _ = _ ∧ _ =>
    destruct (toTypeURIs_spec nm) as (_ & _ & Hspec) end.
  split.
  - destruct (Hspec "a,a") as [Hok _]; [discriminate|].
    apply Hok. vm_compute. repeat constructor.
  - destruct (Hspec "a,b") as [_ Hbad]; [discriminate|].
    destruct (Hbad "b") as (unknown & _ & _ & Hrun).
    + vm_compute. apply list_elem_of_further, list_elem_of_here.
    + vm_compute; reflexivity.
    + by exists unknown.
Defined.

(** ** FetchRequest.getExtensionArgs: the loop *)

Lemma add_Ok type_uri nm alias nm' :
  NamespaceMap.namespace_to_alias nm !! type_uri = None →
  NamespaceMap.add type_uri nm = Ok (alias, nm') →
  (∃ i, alias = NamespaceMap.numbered i)
  ∧ NamespaceMap.alias_to_namespace nm !! alias = None
  ∧ nm' = NamespaceMap.mk
            (<[alias := type_uri]> (NamespaceMap.alias_to_namespace nm))
            (<[type_uri := alias]> (NamespaceMap.namespace_to_alias nm)).
Proof.
  intros Hnew Hrun.
  destruct (add_finds_alias _ _ Hnew) as (i & Hfree & Hadd).
  rewrite Hadd in Hrun.
  apply addAlias_Ok in Hrun as (-> & -> & _ & _). eauto.
Qed.

Lemma emit_attribute_Ok type_uri attribute L L' :
  (∀ alias u,
     NamespaceMap.alias_to_namespace (FetchRequest.aliases L) !! alias
     = Some u
     ↔ NamespaceMap.namespace_to_alias (FetchRequest.aliases L) !! u
       = Some alias) →
  NamespaceMap.namespace_to_alias (FetchRequest.aliases L) !! type_uri
  = None →
  FetchRequest.emit_attribute type_uri attribute L = Ok L' →
  ∃ alias,
    (AttrInfo.alias attribute = Some alias
     ∨ (AttrInfo.alias attribute = None
        ∧ ∃ i, alias = NamespaceMap.numbered i))
    ∧ NamespaceMap.alias_to_namespace (FetchRequest.aliases L) !! alias
      = None
    ∧ L' = FetchRequest.mkLocals
             (NamespaceMap.mk
                (<[alias := type_uri]>
                   (NamespaceMap.alias_to_namespace (FetchRequest.aliases L)))
                (<[type_uri := alias]>
                   (NamespaceMap.namespace_to_alias (FetchRequest.aliases L))))
             (if AttrInfo.required attribute
              then FetchRequest.required L ++ [alias]
              else FetchRequest.required L)
             (if AttrInfo.required attribute
              then FetchRequest.if_available L
              else FetchRequest.if_available L ++ [alias])
             (<["type." +:+ alias := type_uri]>
                match AttrInfo.count attribute with
                | Some c =>
                    <["count." +:+ alias := Py.str c]> (FetchRequest.ax_args L)
                | None => FetchRequest.ax_args L
                end).
Proof.
  intros Hwf Hnew Hrun. unfold FetchRequest.emit_attribute in Hrun.
  apply bind_Ok in Hrun as ([alias nm'] & Halias & Hret).
  injection Hret as <-. exists alias.
  destruct (AttrInfo.alias attribute) as [fixed|] eqn:Hfixed.
  - apply addAlias_Ok in Halias as (-> & -> & [Hfree|Hbound] & _).
    + split_and!; [by left | done | done].
    + apply Hwf in Hbound. congruence.
  - apply (add_Ok _ _ _ _ Hnew) in Halias as (Hnum & Hfree & ->).
    split_and!; [by right | done | done].
Qed.

Lemma type_key_inj a b : "type." +:+ a = "type." +:+ b → a = b.
Proof. intros H. by injection H. Qed.

Lemma count_key_inj a b : "count." +:+ a = "count." +:+ b → a = b.
Proof. intros H. by injection H. Qed.

Lemma serialized_from_step processed L type_uri attribute L' :
  serialized_from processed L →
  type_uri ∉ processed.*1 →
  FetchRequest.emit_attribute type_uri attribute L = Ok L' →
  serialized_from (processed ++ [(type_uri, attribute)]) L'.
Proof.
  intros (Hwf & Hdom & Hkind & Hargs & Hreq & Hia) Hfresh Hrun.
  assert (NamespaceMap.namespace_to_alias (FetchRequest.aliases L)
            !! type_uri = None) as Hnew.
  { apply eq_None_not_Some. by rewrite Hdom. }
  destruct (emit_attribute_Ok _ _ _ _ Hwf Hnew Hrun)
    as (alias & Halias & Hfree & ->).
  set (a2n := NamespaceMap.alias_to_namespace (FetchRequest.aliases L)) in *.
  set (n2a := NamespaceMap.namespace_to_alias (FetchRequest.aliases L)) in *.
  assert (∀ a, a2n !! a = Some type_uri → False) as Hno_uri.
  { intros a Ha. apply Hwf in Ha. congruence. }
  assert (∀ v, n2a !! v = Some alias → False) as Hno_alias.
  { intros v Hv. apply Hwf in Hv. congruence. }
  assert (∀ v attr', (v, attr') ∈ processed → v ≠ type_uri) as Hother.
  { intros v attr' Hin ->. apply Hfresh. apply list_elem_of_fmap.
    by exists (type_uri, attr'). }
  assert (∀ v attr',
            (v, attr') ∈ processed ++ [(type_uri, attribute)]
            ↔ (v, attr') ∈ processed ∨ (v = type_uri ∧ attr' = attribute))
    as Hin_new.
  { intros v attr'. rewrite elem_of_app, list_elem_of_singleton.
    split; (intros [?|Hx]; [by left|right]).
    - by injection Hx as -> ->.
    - by destruct Hx as [-> ->]. }
  unfold serialized_from. simpl. split_and!.
  - intros a v.
    destruct (decide (alias = a)) as [->|Ha], (decide (type_uri = v))
      as [->|Hv]; rewrite ?lookup_insert_eq, ?lookup_insert_ne by done.
    + done.
    + split; [congruence | intros Hx; by destruct (Hno_alias _ Hx)].
    + split; [intros Hx; by destruct (Hno_uri _ Hx) | congruence].
    + apply Hwf.
  - intros v. rewrite fmap_app, elem_of_app. simpl.
    rewrite list_elem_of_singleton.
    destruct (decide (type_uri = v)) as [->|Hv].
    + rewrite lookup_insert_eq. split; [by right | by eexists].
    + rewrite lookup_insert_ne by done. rewrite Hdom.
      split; [by left | by intros [?|?]].
  - intros v attr' a [Hin|[-> ->]]%Hin_new Hlook.
    + rewrite lookup_insert_ne in Hlook by (by apply not_eq_sym, (Hother _ attr')).
      by eapply Hkind.
    + rewrite lookup_insert_eq in Hlook. by injection Hlook as <-.
  - intros key value.
    destruct (decide ("type." +:+ alias = key)) as [<-|Htype].
    { rewrite lookup_insert_eq. split.
      - intros [= <-]. right. left. exists alias.
        by rewrite lookup_insert_eq.
      - intros [[? _]|[(a & ->%type_key_inj & Ha)|(a & ? & ? & ? & ? & _)]];
          [done| |done].
        by rewrite lookup_insert_eq in Ha. }
    rewrite lookup_insert_ne by done.
    assert ((∃ a, key = "type." +:+ a
                  ∧ <[alias := type_uri]> a2n !! a = Some value)
            ↔ ∃ a, key = "type." +:+ a ∧ a2n !! a = Some value) as ->.
    { split; intros (a & -> & Ha); exists a; (split; [done|]).
      - by rewrite lookup_insert_ne in Ha by congruence.
      - by rewrite lookup_insert_ne by congruence. }
    destruct (decide ("count." +:+ alias = key)) as [<-|Hcount].
    { assert (FetchRequest.ax_args L !! ("count." +:+ alias) = None)
        as Hold.
      { apply eq_None_not_Some. intros [v Hv]. apply Hargs in Hv.
        destruct Hv as [[? _]|[(a & ? & _)|(a & v' & ? & ? & ->%count_key_inj & Ha & _)]];
          [done|done|]. congruence. }
      destruct (AttrInfo.count attribute) as [c|] eqn:Hc.
      - rewrite lookup_insert_eq. split.
        + intros [= <-]. right. right. exists alias, type_uri, attribute, c.
          rewrite lookup_insert_eq. split_and!; try done.
          apply Hin_new. by right.
        + intros [[? _]|[(a & ? & _)|(a & v' & attr' & c' & ->%count_key_inj & Ha & Hin & Hc' & ->)]];
            [done|done|].
          rewrite lookup_insert_eq in Ha. injection Ha as <-.
          apply Hin_new in Hin as [Hin|[_ ->]];
            [by destruct (Hother _ _ Hin)|]. congruence.
      - rewrite Hold. split; [done|].
        intros [[? _]|[(a & ? & _)|(a & v' & attr' & c' & ->%count_key_inj & Ha & Hin & Hc' & ->)]];
          [done|done|].
        rewrite lookup_insert_eq in Ha. injection Ha as <-.
        apply Hin_new in Hin as [Hin|[_ ->]];
          [by destruct (Hother _ _ Hin)|]. congruence. }
    assert (match AttrInfo.count attribute with
            | Some c => <["count." +:+ alias := Py.str c]> (FetchRequest.ax_args L)
            | None => FetchRequest.ax_args L
            end !! key = FetchRequest.ax_args L !! key) as ->.
    { destruct (AttrInfo.count attribute); [|done].
      by rewrite lookup_insert_ne. }
    rewrite Hargs.
    assert ((∃ a v attr' c,
               key = "count." +:+ a
               ∧ <[alias := type_uri]> a2n !! a = Some v
               ∧ (v, attr') ∈ processed ++ [(type_uri, attribute)]
               ∧ AttrInfo.count attr' = Some c ∧ value = Py.str c)
            ↔ ∃ a v attr' c,
                key = "count." +:+ a ∧ a2n !! a = Some v
                ∧ (v, attr') ∈ processed
                ∧ AttrInfo.count attr' = Some c ∧ value = Py.str c) as ->;
      [|done].
    split; intros (a & v & attr' & c & -> & Ha & Hin & Hc & ->);
      exists a, v, attr', c.
    + rewrite lookup_insert_ne in Ha by congruence.
      apply Hin_new in Hin as [Hin|[-> _]];
        [done | by destruct (Hno_uri _ Ha)].
    + rewrite lookup_insert_ne by congruence.
      split_and!; try done. apply Hin_new. by left.
  - intros a. split.
    + intros Hin.
      assert (a ∈ FetchRequest.required L
              ∨ (AttrInfo.required attribute = true ∧ a = alias))
        as [Hold|[Hr ->]].
      { destruct (AttrInfo.required attribute); [|by left].
        apply elem_of_app in Hin as [?| ->%list_elem_of_singleton];
          [by left | by right]. }
      * apply Hreq in Hold as (v & attr' & Hv & Hlook & Hr).
        exists v, attr'. split; [apply Hin_new; by left|].
        by rewrite lookup_insert_ne
          by (by apply not_eq_sym, (Hother _ attr')).
      * exists type_uri, attribute. rewrite lookup_insert_eq.
        split; [apply Hin_new; by right | done].
    + intros (v & attr' & [Hin|[-> ->]]%Hin_new & Hlook & Hr).
      * rewrite lookup_insert_ne in Hlook
          by (by apply not_eq_sym, (Hother _ attr')).
        assert (a ∈ FetchRequest.required L) as Hold
          by (apply Hreq; eauto).
        destruct (AttrInfo.required attribute); [|done].
        apply elem_of_app. by left.
      * rewrite lookup_insert_eq in Hlook. injection Hlook as <-.
        rewrite Hr. apply elem_of_app. right. apply list_elem_of_here.
  - intros a. split.
    + intros Hin.
      assert (a ∈ FetchRequest.if_available L
              ∨ (AttrInfo.required attribute = false ∧ a = alias))
        as [Hold|[Hr ->]].
      { destruct (AttrInfo.required attribute); [by left|].
        apply elem_of_app in Hin as [?| ->%list_elem_of_singleton];
          [by left | by right]. }
      * apply Hia in Hold as (v & attr' & Hv & Hlook & Hr).
        exists v, attr'. split; [apply Hin_new; by left|].
        by rewrite lookup_insert_ne
          by (by apply not_eq_sym, (Hother _ attr')).
      * exists type_uri, attribute. rewrite lookup_insert_eq.
        split; [apply Hin_new; by right | done].
    + intros (v & attr' & [Hin|[-> ->]]%Hin_new & Hlook & Hr).
      * rewrite lookup_insert_ne in Hlook
          by (by apply not_eq_sym, (Hother _ attr')).
        assert (a ∈ FetchRequest.if_available L) as Hold
          by (apply Hia; eauto).
        destruct (AttrInfo.required attribute); [done|].
        apply elem_of_app. by left.
      * rewrite lookup_insert_eq in Hlook. injection Hlook as <-.
        rewrite Hr. apply elem_of_app. right. apply list_elem_of_here.
Qed.

Lemma serialized_from_loop l :
  ∀ processed acc r,
    NoDup (processed ++ l).*1 →
    serialized_from processed acc →
    for_each (uncurry FetchRequest.emit_attribute) l acc = Ok r →
    serialized_from (processed ++ l) r.
Proof.
  induction l as [|[u attribute] l IH]; intros processed acc r Hnodup Hinv Hrun.
  - injection Hrun as <-. by rewrite app_nil_r.
  - apply for_each_Ok_cons in Hrun as (acc1 & Hstep & Hrest).
    simpl in Hstep.
    replace (processed ++ (u, attribute) :: l)
      with ((processed ++ [(u, attribute)]) ++ l) in *
      by (by rewrite <- app_assoc).
    apply (IH _ acc1); [done| |done].
    apply (serialized_from_step _ acc); [done| |done].
    rewrite !fmap_app in Hnodup.
    apply NoDup_app in Hnodup as (Hnodup & _ & _).
    apply NoDup_app in Hnodup as (_ & Hfresh & _).
    intros Hin. apply (Hfresh _ Hin). simpl. apply list_elem_of_here.
Qed.

Lemma serialized_from_start :
  serialized_from []
    (FetchRequest.mkLocals NamespaceMap.new [] []
       (_newArgs FetchRequest.mode)).
Proof.
  unfold serialized_from. simpl. split_and!.
  - intros ? ?. by rewrite !lookup_empty.
  - intros ?. rewrite lookup_empty. split; [by intros [? ?]|].
    by intros ?%elem_of_nil.
  - by intros ? ? ? ?%elem_of_nil.
  - intros key value. unfold _newArgs. rewrite lookup_singleton. split.
    + case_decide as Hk; [|done]. intros [= <-]. by left.
    + intros [[-> ->]|[(a & _ & Ha)|(a & u & ? & ? & _ & Ha & _)]].
      * by rewrite decide_True.
      * by rewrite lookup_empty in Ha.
      * by rewrite lookup_empty in Ha.
  - intros a. split; [by intros ?%elem_of_nil|].
    by intros (? & ? & ?%elem_of_nil & _).
  - intros a. split; [by intros ?%elem_of_nil|].
    by intros (? & ? & ?%elem_of_nil & _).
Qed.

(** The arguments a serialized request holds, by key. *)
Lemma request_wire (self : FetchRequest.t) (a : args) :
  FetchRequest.getExtensionArgs self = Ok a →
  ∃ L,
    serialized_from (map_to_list (FetchRequest.requested_attributes self)) L
    ∧ a !! "mode" = Some "fetch_request"
    ∧ (∀ alias type_uri,
         declared a alias type_uri
         ↔ NamespaceMap.alias_to_namespace (FetchRequest.aliases L) !! alias
           = Some type_uri)
    ∧ (∀ alias count_s,
         a !! ("count." +:+ alias) = Some count_s
         ↔ ∃ type_uri attribute c,
             NamespaceMap.alias_to_namespace (FetchRequest.aliases L)
               !! alias = Some type_uri
             ∧ FetchRequest.requested_attributes self !! type_uri
               = Some attribute
             ∧ AttrInfo.count attribute = Some c ∧ count_s = Py.str c)
    ∧ a !! "required"
      = match FetchRequest.required L with
        | [] => None
        | _ => Some (Py.join "," (FetchRequest.required L))
        end
    ∧ a !! "if_available"
      = match FetchRequest.if_available L with
        | [] => None
        | _ => Some (Py.join "," (FetchRequest.if_available L))
        end.
Proof.
  unfold FetchRequest.getExtensionArgs. intros Hrun.
  apply bind_Ok in Hrun as (L & Hloop & Hret). injection Hret as <-.
  exists L.
  pose proof (serialized_from_loop _ [] _ _
                (NoDup_fst_map_to_list _) serialized_from_start Hloop)
    as Hinv.
  simpl in Hinv. split; [done|].
  destruct Hinv as (Hwf & Hdom & Hkind & Hargs & Hreq & Hia).
  assert (∀ key,
            key ≠ "required" → key ≠ "if_available" →
            match FetchRequest.if_available L with
            | [] =>
                match FetchRequest.required L with
                | [] => FetchRequest.ax_args L
                | _ :: _ =>
                    <["required" := Py.join "," (FetchRequest.required L)]>
                      (FetchRequest.ax_args L)
                end
            | _ :: _ =>
                <["if_available" := Py.join "," (FetchRequest.if_available L)]>
                  match FetchRequest.required L with
                  | [] => FetchRequest.ax_args L
                  | _ :: _ =>
                      <["required" := Py.join "," (FetchRequest.required L)]>
                        (FetchRequest.ax_args L)
                  end
            end !! key = FetchRequest.ax_args L !! key) as Hother.
  { intros key H1 H2.
    destruct (FetchRequest.if_available L), (FetchRequest.required L);
      by rewrite ?lookup_insert_ne by done. }
  assert (∀ key, (key = "required" ∨ key = "if_available") →
                 FetchRequest.ax_args L !! key = None) as Hlists.
  { intros key Hkey. apply eq_None_not_Some. intros [v Hv].
    apply Hargs in Hv.
    destruct Hkey as [-> | ->];
      destruct Hv as [[? _]|[(? & ? & _)|(? & ? & ? & ? & ? & _)]]; done. }
  split_and!.
  - rewrite Hother by done. apply Hargs. by left.
  - intros alias type_uri. unfold declared. rewrite Hother by done.
    rewrite Hargs. split.
    + intros [[? _]|[(x & ->%type_key_inj & Hx)|(? & ? & ? & ? & ? & _)]];
        done.
    + intros Hx. right. left. by exists alias.
  - intros alias count_s. rewrite Hother by done. rewrite Hargs. split.
    + intros [[? _]|[(? & ? & _)|(x & u & attribute & c & ->%count_key_inj & Hx & Hin & Hc & ->)]];
        [done|done|].
      exists u, attribute, c. split_and!; try done.
      by apply elem_of_map_to_list.
    + intros (u & attribute & c & Hx & Hin & Hc & ->).
      right. right. exists alias, u, attribute, c. split_and!; try done.
      by apply elem_of_map_to_list.
  - destruct (FetchRequest.if_available L), (FetchRequest.required L);
      rewrite ?lookup_insert_ne by done; rewrite ?lookup_insert_eq;
      try done; apply Hlists; by left.
  - destruct (FetchRequest.if_available L), (FetchRequest.required L);
      rewrite ?lookup_insert_eq; rewrite ?lookup_insert_ne by done;
      try done; apply Hlists; by right.
Qed.

(** ** FetchRequest.getExtensionArgs: what is emitted *)

(** X6: when [FetchRequest.getExtensionArgs] returns, the arguments carry the
    mode [fetch_request]; every requested attribute is declared under an
    alias, its own if it has one, with [count.<alias>] present exactly when
    the count is set and then holding it in decimal; only requested type
    URIs are declared, none of them twice; and a [FetchResponse] refuses
    these arguments on the mode. *)
Theorem request_serialization_spec (self : FetchRequest.t) (a : args) :
  FetchRequest.getExtensionArgs self = Ok a →
  a !! "mode" = Some "fetch_request"
  ∧ (∀ type_uri attribute,
       FetchRequest.requested_attributes self !! type_uri = Some attribute →
       ∃ alias,
         declared a alias type_uri
         ∧ (∀ fixed, AttrInfo.alias attribute = Some fixed → alias = fixed)
         ∧ a !! ("count." +:+ alias) = Py.str <$> AttrInfo.count attribute)
  ∧ (∀ alias type_uri,
       declared a alias type_uri →
       is_Some (FetchRequest.requested_attributes self !! type_uri))
  ∧ types_distinct a
  ∧ (∀ response,
       FetchResponse.parseExtensionArgs (Some a) response
       = (Raise (AXError (Some "fetch_request")), response)).
Proof.
  intros Hget.
  destruct (request_wire _ _ Hget)
    as (L & Hinv & Hmode & Hdecl & Hcount & _ & _).
  destruct Hinv as (Hwf & Hdom & Hkind & _ & _ & _).
  assert (∀ u, is_Some (NamespaceMap.namespace_to_alias
                          (FetchRequest.aliases L) !! u)
               ↔ is_Some (FetchRequest.requested_attributes self !! u))
    as Hdom'.
  { intros u. rewrite Hdom, list_elem_of_fmap. split.
    - intros ([v attribute] & -> & Hin). exists attribute.
      by apply elem_of_map_to_list.
    - intros [attribute Hin]. exists (u, attribute). split; [done|].
      by apply elem_of_map_to_list. }
  split_and!; [done| | | |].
  - intros type_uri attribute Hattr.
    destruct (proj2 (Hdom' type_uri)) as [alias Hu]; [by eexists|].
    exists alias. split_and!.
    + by apply Hdecl, Hwf.
    + intros fixed Hfixed.
      destruct (Hkind type_uri attribute alias) as [?|[? _]];
        [by apply elem_of_map_to_list | done | congruence | congruence].
    + destruct (AttrInfo.count attribute) as [c|] eqn:Hc; simpl.
      * apply Hcount. exists type_uri, attribute, c.
        split_and!; try done. by apply Hwf.
      * apply eq_None_not_Some.
        intros [s (v & attribute0 & c & Hv & Hattr0 & Hc0 & _)%Hcount].
        apply Hwf in Hu. assert (v = type_uri) as -> by congruence.
        congruence.
  - intros alias type_uri Hd. apply Hdom'. apply Hdecl, Hwf in Hd.
    by eexists.
  - intros a1 a2 u H1 H2. apply Hdecl, Hwf in H1, H2. congruence.
  - intros response.
    unfold FetchResponse.parseExtensionArgs, _checkMode, FetchResponse.mode.
    unfold mseq at 1. unfold mlift at 1. rewrite Hmode.
    by rewrite decide_False.
Qed.

Lemma request_serialization_spec_witness :
  ∃ a alias,
    FetchRequest.getExtensionArgs Sample.counted_request = Ok a
    ∧ a !! "mode" = Some "fetch_request"
    ∧ declared a alias Sample.email
    ∧ a !! ("count." +:+ alias) = Some "3".
Proof.
  assert (FetchRequest.getExtensionArgs Sample.counted_request
          = Ok (<["mode" := "fetch_request"]>
                  (<["type.ext0" := Sample.email]>
                     (<["count.ext0" := "3"]>
                        {[ "if_available" := "ext0" ]}))))
    as Hget by (vm_compute; reflexivity).
  destruct (request_serialization_spec _ _ Hget) as (Hmode & Hattrs & _).
  destruct (Hattrs Sample.email (AttrInfo.new Sample.email (Some 3) false None))
    as (alias & Hd & _ & Hc); [vm_compute; reflexivity|].
  eexists _, alias. split_and!; [exact Hget | exact Hmode | exact Hd|].
  rewrite Hc. reflexivity.
Defined.

(** ** FetchRequest.getExtensionArgs: a shared alias *)

Lemma for_each_Raise_inv {A B} (body : B → A → result A) l :
  ∀ acc e,
    for_each body l acc = Raise e →
    ∃ x acc', x ∈ l ∧ body x acc' = Raise e.
Proof.
  induction l as [|y l IH]; intros acc e Hrun; [discriminate|].
  simpl in Hrun. destruct (body y acc) as [acc'|e'] eqn:Hbody; simpl in Hrun.
  - destruct (IH _ _ Hrun) as (x & acc1 & Hin & Hx).
    exists x, acc1. split; [by apply list_elem_of_further | done].
  - injection Hrun as ->. exists y, acc. split; [apply list_elem_of_here|done].
Qed.

Lemma addAlias_Raise type_uri alias nm e :
  NamespaceMap.addAlias type_uri alias nm = Raise e → ∃ key, e = KeyError key.
Proof.
  unfold NamespaceMap.addAlias.
  destruct (NamespaceMap.alias_to_namespace nm !! alias) as [current|];
    destruct (NamespaceMap.namespace_to_alias nm !! type_uri) as [other|];
    repeat case_decide; intros [= <-]; by eexists.
Qed.

Lemma add_Raise type_uri nm e :
  NamespaceMap.add type_uri nm = Raise e → ∃ key, e = KeyError key.
Proof.
  unfold NamespaceMap.add.
  destruct (NamespaceMap.namespace_to_alias nm !! type_uri); [discriminate|].
  destruct (list_find _ _) as [[j i]|].
  - apply addAlias_Raise.
  - intros [= <-]. by eexists.
Qed.

Lemma request_serialization_raises (self : FetchRequest.t) e :
  FetchRequest.getExtensionArgs self = Raise e → ∃ key, e = KeyError key.
Proof.
  unfold FetchRequest.getExtensionArgs. intros Hrun.
  destruct (for_each _ _ _) as [L|e'] eqn:Hloop; [discriminate|].
  injection Hrun as ->.
  apply for_each_Raise_inv in Hloop as ([u attribute] & L & _ & Hbody).
  simpl in Hbody. unfold FetchRequest.emit_attribute in Hbody.
  destruct (AttrInfo.alias attribute) as [fixed|].
  - destruct (NamespaceMap.addAlias _ _ _) as [[alias nm']|e'] eqn:Hadd;
      [discriminate|].
    injection Hbody as ->. by apply addAlias_Raise in Hadd.
  - destruct (NamespaceMap.add _ _) as [[alias nm']|e'] eqn:Hadd;
      [discriminate|].
    injection Hbody as ->. by apply add_Raise in Hadd.
Qed.

(** X7: a request in which two different type URIs ask for the same alias is
    not serialized: [getExtensionArgs] raises [KeyError]. *)
Theorem shared_alias_rejected (self : FetchRequest.t)
    (type_uri1 type_uri2 alias : string) (attribute1 attribute2 : AttrInfo.t) :
  FetchRequest.requested_attributes self !! type_uri1 = Some attribute1 →
  FetchRequest.requested_attributes self !! type_uri2 = Some attribute2 →
  type_uri1 ≠ type_uri2 →
  AttrInfo.alias attribute1 = Some alias →
  AttrInfo.alias attribute2 = Some alias →
  ∃ key, FetchRequest.getExtensionArgs self = Raise (KeyError key).
Proof.
  intros Hattr1 Hattr2 Hne Halias1 Halias2.
  destruct (FetchRequest.getExtensionArgs self) as [a|e] eqn:Hget.
  - exfalso.
    destruct (request_wire _ _ Hget) as (L & Hinv & _).
    destruct Hinv as (Hwf & Hdom & Hkind & _).
    assert (∀ u attribute,
              FetchRequest.requested_attributes self !! u = Some attribute →
              AttrInfo.alias attribute = Some alias →
              NamespaceMap.alias_to_namespace (FetchRequest.aliases L)
                !! alias = Some u) as Hbound.
    { intros u attribute Hattr Halias.
      assert ((u, attribute)
              ∈ map_to_list (FetchRequest.requested_attributes self)) as Hin
        by (by apply elem_of_map_to_list).
      destruct (proj2 (Hdom u)) as [bound Hu].
      { apply list_elem_of_fmap. by exists (u, attribute). }
      destruct (Hkind u attribute bound Hin Hu) as [Hfixed|[Hnone _]];
        [|congruence].
      apply Hwf. congruence. }
    pose proof (Hbound _ _ Hattr1 Halias1).
    pose proof (Hbound _ _ Hattr2 Halias2). congruence.
  - destruct (request_serialization_raises _ _ Hget) as [key ->].
    by exists key.
Qed.

Lemma shared_alias_rejected_witness :
  ∃ key,
    FetchRequest.getExtensionArgs
      (FetchRequest.add (AttrInfo.new Sample.email None false (Some "nm"))
         Sample.single_request).2
    = Raise (KeyError key).
Proof.
  apply (shared_alias_rejected _ Sample.name Sample.email "nm"
           (AttrInfo.new Sample.name None true (Some "nm"))
           (AttrInfo.new Sample.email None false (Some "nm")));
    [vm_compute; reflexivity | vm_compute; reflexivity | discriminate
    | reflexivity | reflexivity].
Defined.

(** ** FetchRequest.parseExtensionArgs: the attributes built *)

Lemma parse_type_Ok (d : args) alias value nm self nm' self' :
  FetchRequest.parse_type d alias value nm self = (Ok nm', self') →
  ∃ c,
    FetchRequest.parse_count (d !! ("count." +:+ alias)) = Ok c
    ∧ FetchRequest.requested_attributes self !! value = None
    ∧ self' = FetchRequest.mk
                (<[value := AttrInfo.mk false c value (Some alias)]>
                   (FetchRequest.requested_attributes self))
                (FetchRequest.update_url self).
Proof.
  unfold FetchRequest.parse_type. intros Hrun.
  apply mseq_Ok in Hrun as ([r nm1] & s1 & Hadd & Hrun).
  unfold mlift in Hadd. injection Hadd as Hadd <-.
  apply mseq_Ok in Hrun as (c & s2 & Hcount & Hrun).
  unfold mlift in Hcount. injection Hcount as Hcount <-.
  apply mseq_Ok in Hrun as ([] & s3 & Hput & Hrun).
  unfold mreturn in Hrun. injection Hrun as <- <-.
  exists c. split; [done|].
  unfold FetchRequest.add, mseq, mget, mput, mraise in Hput. simpl in Hput.
  destruct (FetchRequest.requested_attributes self !! value); [done|].
  by injection Hput as <-.
Qed.

Lemma request_types_loop_attrs (d : args) l :
  ∀ nm0 self0 nm self1,
    mfor_each (uncurry (FetchRequest.request_type d)) l nm0 self0
    = (Ok nm, self1) →
    FetchRequest.update_url self1 = FetchRequest.update_url self0
    ∧ ∀ type_uri attribute,
        FetchRequest.requested_attributes self1 !! type_uri = Some attribute
        → FetchRequest.requested_attributes self0 !! type_uri
          = Some attribute
          ∨ ∃ key alias c,
              (key, type_uri) ∈ l ∧ type_alias key = Some alias
              ∧ FetchRequest.parse_count (d !! ("count." +:+ alias)) = Ok c
              ∧ attribute = AttrInfo.mk false c type_uri (Some alias).
Proof.
  induction l as [|[key value] l IH]; intros nm0 self0 nm self1 Hrun.
  - injection Hrun as <- <-. split; [done|]. by left.
  - simpl in Hrun. apply mseq_Ok in Hrun as (nm1 & s1 & Hstep & Hrest).
    destruct (IH _ _ _ _ Hrest) as [Hurl Hattrs].
    unfold FetchRequest.request_type in Hstep.
    destruct (type_alias key) as [alias|] eqn:Hkey.
    + apply parse_type_Ok in Hstep as (c & Hcount & Hnew & ->).
      split; [done|]. intros type_uri attribute Hlook.
      destruct (Hattrs _ _ Hlook) as [Hold|(k & a & c' & Hin & ? & ? & ?)].
      * simpl in Hold. destruct (decide (value = type_uri)) as [->|Hne].
        -- rewrite lookup_insert_eq in Hold. injection Hold as <-.
           right. exists key, alias, c.
           split; [apply list_elem_of_here | done].
        -- rewrite lookup_insert_ne in Hold by done. by left.
      * right. exists k, a, c'. split; [by apply list_elem_of_further|done].
    + unfold mreturn in Hstep. injection Hstep as <- <-.
      split; [done|]. intros type_uri attribute Hlook.
      destruct (Hattrs _ _ Hlook) as [Hold|(k & a & c' & Hin & ? & ? & ?)];
        [by left|].
      right. exists k, a, c'. split; [by apply list_elem_of_further|done].
Qed.

Lemma mark_required_loop_attrs R :
  ∀ self self',
    mfor_each (λ type_uri _, FetchRequest.mark_required type_uri) R tt self
    = (Ok tt, self') →
    FetchRequest.update_url self' = FetchRequest.update_url self
    ∧ ∀ type_uri attribute',
        FetchRequest.requested_attributes self' !! type_uri
        = Some attribute' →
        ∃ attribute,
          FetchRequest.requested_attributes self !! type_uri = Some attribute
          ∧ AttrInfo.count attribute' = AttrInfo.count attribute
          ∧ AttrInfo.alias attribute' = AttrInfo.alias attribute
          ∧ AttrInfo.type_uri attribute' = AttrInfo.type_uri attribute.
Proof.
  induction R as [|u R IH]; intros self self' Hrun.
  - injection Hrun as <-. split; [done|]. eauto.
  - simpl in Hrun. apply mseq_Ok in Hrun as ([] & s1 & Hstep & Hrest).
    destruct (IH _ _ Hrest) as [Hurl Hattrs].
    unfold FetchRequest.mark_required in Hstep.
    apply mseq_Ok in Hstep as (s & s2 & Hget & Hstep).
    unfold mget in Hget. injection Hget as <- <-.
    apply mseq_Ok in Hstep as (attribute0 & s3 & Hlook0 & Hput).
    unfold mlift in Hlook0. injection Hlook0 as Hlook0 <-.
    unfold mput in Hput. injection Hput as <-.
    unfold getitem in Hlook0.
    destruct (FetchRequest.requested_attributes self !! u) as [a0|] eqn:Hu;
      [|done].
    injection Hlook0 as <-.
    split; [done|]. intros type_uri attribute' Hlook.
    destruct (Hattrs _ _ Hlook) as (attribute1 & Hlook1 & Hc & Ha & Ht).
    simpl in Hlook1. destruct (decide (u = type_uri)) as [->|Hne].
    + rewrite lookup_insert_eq in Hlook1. injection Hlook1 as <-.
      exists a0. by rewrite Hc, Ha, Ht.
    + rewrite lookup_insert_ne in Hlook1 by done.
      exists attribute1. by rewrite Hc, Ha, Ht.
Qed.

Lemma request_parse_attrs (d : args) (url : option string) parsed :
  FetchRequest.parseExtensionArgs (Some d) (FetchRequest.new url)
  = (Ok tt, parsed) →
  ∀ type_uri attribute,
    FetchRequest.requested_attributes parsed !! type_uri = Some attribute →
    ∃ alias,
      declared d alias type_uri
      ∧ FetchRequest.parse_count (d !! ("count." +:+ alias))
        = Ok (AttrInfo.count attribute)
      ∧ AttrInfo.alias attribute = Some alias
      ∧ AttrInfo.type_uri attribute = type_uri.
Proof.
  unfold FetchRequest.parseExtensionArgs. intros Hrun.
  apply mseq_Ok in Hrun as ([] & s0 & Hmode & Hrun).
  unfold mlift in Hmode. injection Hmode as _ <-.
  apply mseq_Ok in Hrun as (nm & s1 & Hloop & Hrun).
  apply mseq_Ok in Hrun as (R & s2 & HR & Hrun).
  unfold mlift in HR. injection HR as _ <-.
  apply mseq_Ok in Hrun as ([] & s3 & Hmark & Hrun).
  apply mseq_Ok in Hrun as (IA & s4 & HIA & Hrun).
  unfold mlift in HIA. injection HIA as _ <-.
  apply mseq_Ok in Hrun as ([] & s5 & Hcheck & Hrun).
  unfold mlift in Hcheck. injection Hcheck as _ <-.
  apply mseq_Ok in Hrun as (s & s6 & Hget & Hput).
  unfold mget in Hget. injection Hget as <- <-.
  unfold mput in Hput. injection Hput as <-.
  apply request_types_loop_attrs in Hloop as [_ Hloop].
  apply mark_required_loop_attrs in Hmark as [_ Hmark].
  intros type_uri attribute Hlook. simpl in Hlook.
  destruct (Hmark _ _ Hlook) as (attribute1 & Hlook1 & -> & -> & ->).
  destruct (Hloop _ _ Hlook1) as [Hold|(key & alias & c & Hin & Hkey & Hc & ->)].
  - simpl in Hold. by rewrite lookup_empty in Hold.
  - exists alias. simpl. split_and!; try done.
    apply type_alias_spec in Hkey as ->. by apply elem_of_map_to_list.
Qed.

(** ** FetchRequest.fromOpenIDRequest *)

(** X8: [fromOpenIDRequest] returns the request it has parsed into; the
    arguments then have the mode [fetch_request], the update URL is theirs,
    and every attribute of the request comes from a [type.<alias>] key: it
    carries that alias, the type URI, and the count read from
    [count.<alias>]. *)
Theorem fromOpenIDRequest_spec (message_args : args) (self : FetchRequest.t) :
  FetchRequest.fromOpenIDRequest message_args = Ok self →
  FetchRequest.parseExtensionArgs (Some message_args) (FetchRequest.new None)
  = (Ok tt, self)
  ∧ message_args !! "mode" = Some "fetch_request"
  ∧ FetchRequest.update_url self = message_args !! "update_url"
  ∧ ∀ type_uri attribute,
      FetchRequest.requested_attributes self !! type_uri = Some attribute →
      ∃ alias,
        declared message_args alias type_uri
        ∧ AttrInfo.type_uri attribute = type_uri
        ∧ AttrInfo.alias attribute = Some alias
        ∧ FetchRequest.parse_count (message_args !! ("count." +:+ alias))
          = Ok (AttrInfo.count attribute).
Proof.
  unfold FetchRequest.fromOpenIDRequest.
  destruct (FetchRequest.parseExtensionArgs _ _) as [[[]|e] parsed] eqn:Hrun;
    [|discriminate].
  intros [= <-]. split_and!; [done| | |].
  - unfold FetchRequest.parseExtensionArgs in Hrun.
    apply mseq_Ok in Hrun as ([] & s0 & Hmode & _).
    unfold mlift, _checkMode in Hmode. by case_decide.
  - by apply (request_parse_update_url _ _ _ Hrun).
  - intros type_uri attribute Hattr.
    destruct (request_parse_attrs _ _ _ Hrun _ _ Hattr)
      as (alias & ? & ? & ? & ?).
    by exists alias.
Qed.

Lemma fromOpenIDRequest_spec_witness :
  ∃ self,
    FetchRequest.fromOpenIDRequest Sample.good_args = Ok self
    ∧ FetchRequest.update_url self = Sample.good_args !! "update_url"
    ∧ ∃ alias,
        declared Sample.good_args alias Sample.name
        ∧ FetchRequest.parse_count (Sample.good_args !! ("count." +:+ alias))
          = Ok (Some 2).
Proof.
  assert (FetchRequest.fromOpenIDRequest Sample.good_args
          = Ok (FetchRequest.mk
                  (<[Sample.name := AttrInfo.new Sample.name (Some 2) false
                                      (Some "b")]>
                     {[ Sample.email := AttrInfo.new Sample.email None true
                                          (Some "a") ]})
                  None)) as Hrun by (vm_compute; reflexivity).
  destruct (fromOpenIDRequest_spec _ _ Hrun) as (_ & _ & Hurl & Hattrs).
  destruct (Hattrs Sample.name
              (AttrInfo.new Sample.name (Some 2) false (Some "b")))
    as (alias & Hd & _ & _ & Hcount); [vm_compute; reflexivity|].
  eexists. split; [exact Hrun|]. split; [exact Hurl|].
  exists alias. split; [exact Hd | exact Hcount].
Defined.

(** ** FetchRequest.parseExtensionArgs: nothing is rolled back *)

(** X9: nothing is rolled back when [FetchRequest.parseExtensionArgs] fails
    on a type URI that is in neither list: the request is left holding an
    attribute for every declared type URI. *)
Theorem failed_request_parse_keeps_attributes (d : args)
    (url : option string) :
  d !! "mode" = Some "fetch_request" →
  types_distinct d → counts_readable d → lists_declared d →
  (∃ type_uri, unlisted d type_uri) →
  ∃ type_uri self',
    unlisted d type_uri
    ∧ FetchRequest.parseExtensionArgs (Some d) (FetchRequest.new url)
      = (Raise (ValueError (NotRequiredNorIfAvailable type_uri)), self')
    ∧ ∀ u, is_Some (FetchRequest.requested_attributes self' !! u)
           ↔ ∃ alias, declared d alias u.
Proof.
  intros Hmode Hdistinct Hcounts Hlists [unl (Hdecl & Hno1 & Hno2)].
  destruct (request_parse_run d url Hmode Hdistinct Hcounts Hlists)
    as (nm & self2 & R & IA & Hn2a & HR & HIA & Hdom & Hreq & Hrun).
  assert (∀ type_uri,
            type_uri ∈ NamespaceMap.iterNamespaceURIs nm
            ↔ ∃ alias, declared d alias type_uri) as Hiter.
  { intros type_uri. rewrite iterNamespaceURIs_elem.
    by setoid_rewrite Hn2a. }
  destruct (check_listed_loop (R ++ IA) (NamespaceMap.iterNamespaceURIs nm))
    as [[_ Hin]|(type_uri & Hin & Hout & Hcheck)].
  - exfalso. apply Hiter, Hin, elem_of_app in Hdecl.
    rewrite HR, HIA in Hdecl. tauto.
  - exists type_uri, self2. rewrite Hrun, Hcheck. split_and!; [|done|done].
    split; [by apply Hiter|].
    rewrite elem_of_app, HR, HIA in Hout. tauto.
Qed.

Lemma lone_type_args_items :
  map_to_list Sample.lone_type_args
  = [("mode", "fetch_request"); ("type.a", Sample.email)].
Proof. vm_compute; reflexivity. Qed.

Lemma failed_request_parse_keeps_attributes_witness :
  ∃ self',
    FetchRequest.parseExtensionArgs (Some Sample.lone_type_args)
      (FetchRequest.new None)
    = (Raise (ValueError (NotRequiredNorIfAvailable Sample.email)), self')
    ∧ is_Some (FetchRequest.requested_attributes self' !! Sample.email).
Proof.
  assert (∀ key, key = "required" ∨ key = "if_available" →
                 alias_list (Sample.lone_type_args !! key) = []) as Hnone.
  { intros key [-> | ->]; vm_compute; reflexivity. }
  destruct (failed_request_parse_keeps_attributes Sample.lone_type_args None)
    as (type_uri & self' & Hun & Hrun & Hkept).
  - vm_compute; reflexivity.
  - intros alias1 alias2 type_uri H1. revert alias2.
    revert alias1 type_uri H1. each_declared lone_type_args_items.
    intros alias2 H2.
    enough (∀ a u, declared Sample.lone_type_args a u →
                   u = Sample.email → "a" = a) by eauto.
    each_declared lone_type_args_items. done.
  - intros alias type_uri count_s Hd. revert count_s.
    revert alias type_uri Hd. each_declared lone_type_args_items.
    intros count_s Hc. vm_compute in Hc. discriminate.
  - intros key alias Hkey Hin. rewrite (Hnone key Hkey) in Hin.
    apply elem_of_nil in Hin. destruct Hin.
  - exists Sample.email. split_and!.
    + exists "a". vm_compute; reflexivity.
    + intros (alias & Hin & _). rewrite Hnone in Hin by auto.
      apply elem_of_nil in Hin. destruct Hin.
    + intros (alias & Hin & _). rewrite Hnone in Hin by auto.
      apply elem_of_nil in Hin. destruct Hin.
  - assert (type_uri = Sample.email) as ->.
    { destruct Hun as ([alias Hd] & _).
      enough (∀ a u, declared Sample.lone_type_args a u → u = Sample.email)
        by eauto.
      each_declared lone_type_args_items. done. }
    exists self'. split; [exact Hrun|]. apply Hkept.
    exists "a". vm_compute; reflexivity.
Defined.

(** ** FetchRequest: serialize, then parse *)

Lemma truthy_nonempty s : s ≠ "" → Py.truthy (Some s) = true.
Proof. by destruct s. Qed.

Lemma alias_list_join l :
  Forall (λ x, no_comma x = true ∧ x ≠ "") l →
  alias_list match l with
             | [] => None
             | _ => Some (Py.join "," l)
             end = l.
Proof.
  intros Hall. destruct l as [|x l]; [done|].
  unfold alias_list.
  rewrite truthy_nonempty.
  - apply split_join; [done|]. eapply Forall_impl; [done|]. by intros ? [? ?].
  - apply join_nonempty; [done|]. eapply Forall_impl; [done|].
    by intros ? [? ?].
Qed.

(** X10: a request whose fixed aliases are not empty and hold no comma, once
    serialized, parses into a fresh request that holds the same type URIs
    with the same required flags and counts. *)
Theorem serialized_request_parses_back (self : FetchRequest.t) (a : args)
    (url : option string) :
  (∀ type_uri attribute,
     FetchRequest.requested_attributes self !! type_uri = Some attribute →
     plain_alias attribute = true) →
  FetchRequest.getExtensionArgs self = Ok a →
  ∃ parsed,
    FetchRequest.parseExtensionArgs (Some a) (FetchRequest.new url)
    = (Ok tt, parsed)
    ∧ ∀ type_uri,
        (AttrInfo.required
           <$> FetchRequest.requested_attributes parsed !! type_uri)
        = (AttrInfo.required
             <$> FetchRequest.requested_attributes self !! type_uri)
        ∧ (AttrInfo.count
             <$> FetchRequest.requested_attributes parsed !! type_uri)
          = (AttrInfo.count
               <$> FetchRequest.requested_attributes self !! type_uri).
Proof.
  intros Hplain Hget.
  destruct (request_wire _ _ Hget)
    as (L & Hinv & Hmode & Hdecl & Hcount & Hrequired & Havailable).
  destruct Hinv as (Hwf & Hdom & Hkind & _ & Hreq & Hia).
  set (a2n := NamespaceMap.alias_to_namespace (FetchRequest.aliases L)) in *.
  set (n2a := NamespaceMap.namespace_to_alias (FetchRequest.aliases L)) in *.
  assert (∀ u, is_Some (n2a !! u)
               ↔ is_Some (FetchRequest.requested_attributes self !! u))
    as Hdom'.
  { intros u. rewrite Hdom, list_elem_of_fmap. split.
    - intros ([v attribute] & -> & Hin). exists attribute.
      by apply elem_of_map_to_list.
    - intros [attribute Hin]. exists (u, attribute). split; [done|].
      by apply elem_of_map_to_list. }
  assert (∀ u alias, n2a !! u = Some alias →
                     no_comma alias = true ∧ alias ≠ "") as Hshape.
  { intros u alias Hu.
    destruct (proj1 (Hdom' u)) as [attribute Hattr]; [by eexists|].
    destruct (Hkind u attribute alias) as [Hfixed|[_ [i ->]]];
      [by apply elem_of_map_to_list | done | | apply numbered_plain].
    specialize (Hplain _ _ Hattr). unfold plain_alias in Hplain.
    rewrite Hfixed in Hplain. apply andb_true_iff in Hplain as [? Hne].
    split; [done|]. intros ->. done. }
  assert (alias_list (a !! "required") = FetchRequest.required L) as Hrl.
  { rewrite Hrequired. apply alias_list_join. apply Forall_forall.
    intros alias (u & attribute & _ & Hu & _)%Hreq. by eapply Hshape. }
  assert (alias_list (a !! "if_available") = FetchRequest.if_available L)
    as Hil.
  { rewrite Havailable. apply alias_list_join. apply Forall_forall.
    intros alias (u & attribute & _ & Hu & _)%Hia. by eapply Hshape. }
  assert (∀ u attribute,
            FetchRequest.requested_attributes self !! u = Some attribute →
            listed a "required" u ↔ AttrInfo.required attribute = true)
    as Hlisted_req.
  { intros u attribute Hattr. unfold listed. rewrite Hrl. split.
    - intros (alias & (v & attribute' & Hin & Hv & Hr)%Hreq & Hd).
      apply Hdecl, Hwf in Hd. apply Hwf in Hv, Hd.
      assert (v = u) as -> by congruence.
      apply elem_of_map_to_list in Hin. congruence.
    - intros Hr. destruct (proj2 (Hdom' u)) as [alias Hu]; [by eexists|].
      exists alias. split.
      + apply Hreq. exists u, attribute. split_and!; try done.
        by apply elem_of_map_to_list.
      + by apply Hdecl, Hwf. }
  assert (∀ alias u, declared a alias u →
                     listed a "required" u ∨ listed a "if_available" u)
    as Hall.
  { intros alias u Hd. pose proof Hd as Hd'. apply Hdecl, Hwf in Hd.
    destruct (proj1 (Hdom' u)) as [attribute Hattr]; [by eexists|].
    destruct (AttrInfo.required attribute) eqn:Hr.
    - left. by apply (Hlisted_req _ attribute).
    - right. exists alias. split; [|done]. rewrite Hil. apply Hia.
      exists u, attribute. split_and!; try done.
      by apply elem_of_map_to_list. }
  destruct (request_parse_run a url) as
    (nm & self2 & R & IA & Hn2a & HR & HIA & Hdom2 & Hreq2 & Hrun).
  { done. }
  { intros a1 a2 u H1 H2. apply Hdecl, Hwf in H1, H2. congruence. }
  { intros alias u count_s _ (v & attribute & c & _ & _ & _ & ->)%Hcount.
    right. exists c. apply int_str. }
  { intros key alias [-> | ->] Hin.
    - rewrite Hrl in Hin. apply Hreq in Hin as (u & ? & _ & Hu & _).
      exists u. by apply Hdecl, Hwf.
    - rewrite Hil in Hin. apply Hia in Hin as (u & ? & _ & Hu & _).
      exists u. by apply Hdecl, Hwf. }
  destruct (check_listed_loop (R ++ IA) (NamespaceMap.iterNamespaceURIs nm))
    as [[Hcheck _]|(u & Hin & Hout & _)].
  2:{ exfalso. apply Hout.
      apply iterNamespaceURIs_elem in Hin as [alias Hu].
      apply Hn2a, Hall in Hu. apply elem_of_app.
      destruct Hu as [?|?]; [left; by apply HR | right; by apply HIA]. }
  rewrite Hcheck in Hrun. eexists. split; [exact Hrun|].
  intros u. simpl.
  destruct (FetchRequest.requested_attributes self !! u)
    as [attribute|] eqn:Hattr.
  - destruct (proj2 (Hdom2 u)) as [attribute' Hattr'].
    { destruct (proj2 (Hdom' u)) as [alias Hu]; [by eexists|].
      exists alias. by apply Hdecl, Hwf. }
    rewrite Hattr'. simpl. split; f_equal.
    + pose proof (Hreq2 _ _ Hattr') as Hr. rewrite HR in Hr.
      rewrite (Hlisted_req _ _ Hattr) in Hr.
      destruct (AttrInfo.required attribute'), (AttrInfo.required attribute);
        try done;
        [by destruct Hr as [Hr _]; discriminate (Hr eq_refl)
        |by destruct Hr as [_ Hr]; discriminate (Hr eq_refl)].
    + destruct (request_parse_attrs _ _ _ Hrun u attribute')
        as (alias & Hd & Hc & _); [done|].
      apply Hdecl in Hd.
      destruct (AttrInfo.count attribute) as [c|] eqn:Hcattr.
      * assert (a !! ("count." +:+ alias) = Some (Py.str c)) as Hs.
        { apply Hcount. by exists u, attribute, c. }
        rewrite Hs in Hc. unfold FetchRequest.parse_count in Hc.
        rewrite truthy_nonempty, int_str in Hc by apply str_nonempty.
        simpl in Hc. congruence.
      * assert (a !! ("count." +:+ alias) = None) as Hs.
        { apply eq_None_not_Some.
          intros [s (v & attribute0 & c & Hv & Hattr0 & Hc0 & _)%Hcount].
          assert (v = u) as -> by congruence. congruence. }
        rewrite Hs in Hc. simpl in Hc. congruence.
  - destruct (FetchRequest.requested_attributes self2 !! u)
      as [attribute'|] eqn:Hattr'; [|done].
    exfalso. destruct (proj1 (Hdom2 u)) as [alias Hd]; [by eexists|].
    apply Hdecl, Hwf in Hd.
    destruct (proj1 (Hdom' u)) as [? ?]; [by eexists|]. congruence.
Qed.

Lemma serialized_request_parses_back_witness :
  ∃ a parsed,
    FetchRequest.getExtensionArgs Sample.mixed_request = Ok a
    ∧ FetchRequest.parseExtensionArgs (Some a) (FetchRequest.new None)
      = (Ok tt, parsed)
    ∧ (AttrInfo.count
         <$> FetchRequest.requested_attributes parsed !! Sample.email)
      = Some (Some 3)
    ∧ (AttrInfo.required
         <$> FetchRequest.requested_attributes parsed !! Sample.name)
      = Some true.
Proof.
  assert (FetchRequest.getExtensionArgs Sample.mixed_request
          = Ok (<["mode" := "fetch_request"]>
                  (<["type.ext0" := Sample.email]>
                     (<["count.ext0" := "3"]>
                        (<["type.nm" := Sample.name]>
                           (<["required" := "nm"]>
                              {[ "if_available" := "ext0" ]}))))))
    as Hget by (vm_compute; reflexivity).
  assert (FetchRequest.requested_attributes Sample.mixed_request
          = <[Sample.name := AttrInfo.new Sample.name None true (Some "nm")]>
              {[ Sample.email
                 := AttrInfo.new Sample.email (Some 3) false None ]})
    as Hattrs by (vm_compute; reflexivity).
  assert (∀ type_uri attribute,
            FetchRequest.requested_attributes Sample.mixed_request
              !! type_uri = Some attribute →
            plain_alias attribute = true) as Hplain.
  { intros type_uri attribute Hlook. rewrite Hattrs in Hlook.
    apply lookup_insert_Some in Hlook as [[_ <-]|[_ Hlook]]; [reflexivity|].
    apply lookup_singleton_Some in Hlook as [_ <-]. reflexivity. }
  destruct (serialized_request_parses_back Sample.mixed_request _ None Hplain Hget)
    as (parsed & Hparse & Hsame).
  eexists _, parsed. split; [exact Hget|]. split; [exact Hparse|].
  split.
  - destruct (Hsame Sample.email) as [_ ->]. vm_compute; reflexivity.
  - destruct (Hsame Sample.name) as [-> _]. vm_compute; reflexivity.
Defined.

(** ** FetchResponse: the constructor *)

(** X11: the constructor of [FetchResponse] returns only when no request is
    given, and the response it gives has no request, no update URL and no
    data: [get] raises [KeyError] for every type URI, [addValue] and
    [setValues] raise [AttributeError], and so does [getExtensionArgs]. *)
Theorem constructed_response_is_unbound (request : option FetchRequest.t)
    (self : FetchResponse.t) :
  FetchResponse.new request = Ok self →
  request = None
  ∧ FetchResponse.request self = None
  ∧ FetchResponse.update_url self = None
  ∧ (∀ type_uri,
       FetchResponse.get type_uri self = Raise (KeyError type_uri))
  ∧ (∀ type_uri value,
       FetchResponse.addValue type_uri value self
       = (Raise AttributeError, self))
  ∧ (∀ type_uri values,
       FetchResponse.setValues type_uri values self
       = (Raise AttributeError, self))
  ∧ FetchResponse.getExtensionArgs self = Raise AttributeError.
Proof.
  rewrite new_outcome. destruct request as [req|]; [discriminate|].
  intros [= <-]. by split_and!.
Qed.

Lemma constructed_response_is_unbound_witness :
  FetchResponse.new None = Ok FetchResponse.unbound
  ∧ FetchResponse.get Sample.email FetchResponse.unbound
    = Raise (KeyError Sample.email)
  ∧ FetchResponse.getExtensionArgs FetchResponse.unbound
    = Raise AttributeError.
Proof.
  destruct (constructed_response_is_unbound None FetchResponse.unbound)
    as (_ & _ & _ & Hget & _ & _ & Hargs); [reflexivity|].
  split_and!; [reflexivity | apply Hget | exact Hargs].
Defined.

(** ** FetchResponse: values stored and read back *)

(** X12: after a [setValues] within the count, [get] and [count] give the
    new sequence and its length for that type URI and what they gave before
    for every other one; request and update URL are unchanged. *)
Theorem setValues_get (self : FetchResponse.t) (req : FetchRequest.t)
    (attribute : AttrInfo.t) (N : Z) (type_uri : string)
    (values : list string) :
  FetchResponse.request self = Some req →
  FetchRequest.requested_attributes req !! type_uri = Some attribute →
  AttrInfo.count attribute = Some N →
  is_Some (FetchResponse.data self !! type_uri) →
  Py.len values ≤ N →
  ∃ self',
    FetchResponse.setValues type_uri values self = (Ok tt, self')
    ∧ FetchResponse.get type_uri self' = Ok values
    ∧ FetchResponse.count type_uri self' = Ok (Py.len values)
    ∧ (∀ other, other ≠ type_uri →
         FetchResponse.get other self' = FetchResponse.get other self)
    ∧ FetchResponse.request self' = FetchResponse.request self
    ∧ FetchResponse.update_url self' = FetchResponse.update_url self.
Proof.
  intros Hreq Hattr Hcount [stored Hdata] Hlen.
  pose proof (num_allowed_for_bound _ _ _ _ Hreq Hattr) as Hallowed.
  rewrite Hcount in Hallowed.
  eexists. split.
  - unfold FetchResponse.setValues, mseq, mget, mlift, mraise, mput.
    rewrite Hallowed. simpl.
    assert ((Py.len values >? N) = false) as -> by lia.
    by rewrite Hdata.
  - unfold FetchResponse.count, FetchResponse.get, getitem. simpl.
    rewrite lookup_insert_eq. split_and!; try done.
    intros other Hne. by rewrite lookup_insert_ne.
Qed.

Lemma setValues_get_witness :
  ∃ self',
    FetchResponse.setValues Sample.email ["p"; "q"; "r"]
      Sample.counted_response = (Ok tt, self')
    ∧ FetchResponse.get Sample.email self' = Ok ["p"; "q"; "r"].
Proof.
  destruct (setValues_get Sample.counted_response Sample.counted_request
              (AttrInfo.new Sample.email (Some 3) false None) 3 Sample.email
              ["p"; "q"; "r"]) as (self' & Hrun & Hget & _);
    [vm_compute; reflexivity | vm_compute; reflexivity | reflexivity
    | vm_compute; by eexists | vm_compute; discriminate |].
  exists self'. by split.
Defined.

(** X13: for a type URI the request does not hold, [addValue] and
    [setValues] raise [KeyError] and leave the response as it was. *)
Theorem undeclared_type_rejected (self : FetchResponse.t)
    (req : FetchRequest.t) (type_uri : string) :
  FetchResponse.request self = Some req →
  FetchRequest.requested_attributes req !! type_uri = None →
  (∀ value,
     FetchResponse.addValue type_uri value self
     = (Raise (KeyError type_uri), self))
  ∧ (∀ values,
       FetchResponse.setValues type_uri values self
       = (Raise (KeyError type_uri), self)).
Proof.
  intros Hreq Hout.
  assert (FetchResponse.num_allowed_for type_uri self
          = Raise (KeyError type_uri)) as Hallowed.
  { unfold FetchResponse.num_allowed_for.
    by rewrite Hreq, (getitem_None _ _ Hout). }
  split; intros ?.
  - unfold FetchResponse.addValue, mseq, mget, mlift. by rewrite Hallowed.
  - unfold FetchResponse.setValues, mseq, mget, mlift. by rewrite Hallowed.
Qed.

Lemma undeclared_type_rejected_witness :
  FetchResponse.addValue Sample.name "x" Sample.counted_response
  = (Raise (KeyError Sample.name), Sample.counted_response)
  ∧ FetchResponse.setValues Sample.name [] Sample.counted_response
    = (Raise (KeyError Sample.name), Sample.counted_response).
Proof.
  destruct (undeclared_type_rejected Sample.counted_response
              Sample.counted_request Sample.name) as [Hadd Hset];
    [vm_compute; reflexivity | vm_compute; reflexivity |].
  split; [apply Hadd | apply Hset].
Defined.

(** X14: adding values one by one with [addValue] to an attribute of count
    [N] stores them in order as long as no more than [N] are held, and
    raises [ValueError] at the first value beyond, the values before it
    staying stored; the loop ends without an exception exactly when all of
    them fit. *)
Theorem addValue_up_to_count (req : FetchRequest.t) (attribute : AttrInfo.t)
    (N : Z) (type_uri : string) (values : list string) :
  ∀ (self : FetchResponse.t) (stored : list string),
    FetchResponse.request self = Some req →
    FetchRequest.requested_attributes req !! type_uri = Some attribute →
    AttrInfo.count attribute = Some N →
    FetchResponse.data self !! type_uri = Some stored →
    Py.len stored ≤ N →
    add_values type_uri values self
    = (if decide (Py.len stored + Py.len values ≤ N) then Ok tt
       else Raise (ValueError (CannotAddMoreValues type_uri)),
       FetchResponse.mk (FetchResponse.request self)
         (<[type_uri := stored ++ take (Z.to_nat (N - Py.len stored)) values]>
            (FetchResponse.data self))
         (FetchResponse.update_url self)).
Proof.
  unfold add_values.
  induction values as [|value values IH];
    intros self stored Hreq Hattr Hcount Hdata Hroom.
  - simpl. unfold mreturn. rewrite decide_True by (unfold Py.len in *; simpl; lia).
    rewrite take_nil, app_nil_r, insert_id by done. by destruct self.
  - simpl. unfold mseq.
    pose proof (num_allowed_for_bound _ _ _ _ Hreq Hattr) as Hallowed.
    rewrite Hcount in Hallowed.
    unfold FetchResponse.addValue at 1. unfold mseq, mget, mlift, mraise, mput.
    rewrite Hallowed, (getitem_Some _ _ _ Hdata). simpl.
    destruct (decide (Py.len stored = N)) as [Hfull|Hfree].
    + rewrite (proj2 (Z.eqb_eq _ _) Hfull).
      rewrite decide_False by (unfold Py.len in *; simpl; lia).
      replace (Z.to_nat (N - Py.len stored)) with 0%nat by lia.
      rewrite take_0, app_nil_r, insert_id by done. by destruct self.
    + rewrite (proj2 (Z.eqb_neq _ _) Hfree).
      rewrite (IH _ (stored ++ [value])); simpl;
        [|done|done|done|by rewrite lookup_insert_eq
         |unfold Py.len in *; rewrite length_app; simpl; lia].
      f_equal.
      * unfold Py.len in *. rewrite length_app. simpl.
        repeat case_decide; try done; lia.
      * rewrite insert_insert_eq. do 2 f_equal.
        replace (Z.to_nat (N - Py.len stored))
          with (S (Z.to_nat (N - Py.len (stored ++ [value]))))
          by (unfold Py.len in *; rewrite length_app; simpl; lia).
        simpl. by rewrite <- app_assoc.
Qed.

Lemma addValue_up_to_count_witness :
  add_values Sample.email ["c"; "d"; "e"] Sample.counted_response
  = (Raise (ValueError (CannotAddMoreValues Sample.email)),
     FetchResponse.mk (FetchResponse.request Sample.counted_response)
       (<[Sample.email := ["a"; "b"; "c"]]>
          (FetchResponse.data Sample.counted_response))
       (FetchResponse.update_url Sample.counted_response)).
Proof.
  apply (addValue_up_to_count Sample.counted_request
           (AttrInfo.new Sample.email (Some 3) false None) 3 Sample.email
           ["c"; "d"; "e"] Sample.counted_response ["a"; "b"]);
    [vm_compute; reflexivity | vm_compute; reflexivity | reflexivity
    | vm_compute; reflexivity | vm_compute; discriminate].
Defined.

(** ** FetchResponse: an unset count *)

(** X15: with no count declared, [addValue] never refuses: any number of
    values can be added one by one; and [setValues] refuses every
    sequence. *)
Theorem unset_count_accepts_every_value (req : FetchRequest.t)
    (attribute : AttrInfo.t) (type_uri : string) (values : list string) :
  ∀ (self : FetchResponse.t) (stored : list string),
    FetchResponse.request self = Some req →
    FetchRequest.requested_attributes req !! type_uri = Some attribute →
    AttrInfo.count attribute = None →
    FetchResponse.data self !! type_uri = Some stored →
    add_values type_uri values self
    = (Ok tt,
       FetchResponse.mk (FetchResponse.request self)
         (<[type_uri := stored ++ values]> (FetchResponse.data self))
         (FetchResponse.update_url self))
    ∧ ∀ values',
        FetchResponse.setValues type_uri values' self
        = (Raise (ValueError (MoreThanAllowedValues type_uri)), self).
Proof.
  intros self stored Hreq Hattr Hcount Hdata.
  split; [|intros values'; by eapply setValues_unset_count].
  revert self stored Hreq Hdata. unfold add_values.
  induction values as [|value values IH]; intros self stored Hreq Hdata.
  - simpl. unfold mreturn. rewrite app_nil_r, insert_id by done.
    by destruct self.
  - simpl. unfold mseq.
    rewrite (addValue_unset_count _ _ _ _ _ _ Hreq Hattr Hcount Hdata).
    rewrite (IH _ (stored ++ [value])); simpl;
      [|done|by rewrite lookup_insert_eq].
    by rewrite insert_insert_eq, <- app_assoc.
Qed.

Lemma unset_count_accepts_every_value_witness :
  add_values Sample.name ["x"; "y"; "z"] Sample.single_response
  = (Ok tt,
     FetchResponse.mk (FetchResponse.request Sample.single_response)
       (<[Sample.name := ["x"; "y"; "z"]]>
          (FetchResponse.data Sample.single_response))
       (FetchResponse.update_url Sample.single_response))
  ∧ FetchResponse.setValues Sample.name ["x"] Sample.single_response
    = (Raise (ValueError (MoreThanAllowedValues Sample.name)),
       Sample.single_response).
Proof.
  destruct (unset_count_accepts_every_value Sample.single_request
              (AttrInfo.new Sample.name None true (Some "nm")) Sample.name
              ["x"; "y"; "z"] Sample.single_response [])
    as [Hadd Hset];
    [reflexivity | vm_compute; reflexivity | reflexivity
    | vm_compute; reflexivity |].
  split; [exact Hadd | apply Hset].
Defined.

(** ** FetchResponse: serialization with an unset count *)

(** X16: a response whose request holds an attribute without a count is not
    serialized, whatever its data: [getExtensionArgs] raises. *)
Theorem unset_count_never_serialized (self : FetchResponse.t)
    (req : FetchRequest.t) (type_uri : string) (attribute : AttrInfo.t) :
  FetchResponse.request self = Some req →
  FetchRequest.requested_attributes req !! type_uri = Some attribute →
  AttrInfo.count attribute = None →
  ∃ e, FetchResponse.built_args self = Raise e
       ∧ FetchResponse.getExtensionArgs self = Raise e.
Proof.
  intros Hreq Hattr Hcount.
  unfold FetchResponse.getExtensionArgs, FetchResponse.built_args.
  rewrite Hreq.
  edestruct (for_each_raises
               (uncurry (FetchResponse.emit_attribute self))
               (map_to_list (FetchRequest.requested_attributes req))
               (type_uri, attribute)) as [e ->].
  - by apply elem_of_map_to_list.
  - intros [ax_args aliases]. simpl. unfold FetchResponse.emit_attribute.
    destruct (getitem _ _) as [values|e]; [|by exists e]. simpl.
    destruct (match AttrInfo.alias attribute with
              | Some a => NamespaceMap.addAlias type_uri a aliases
              | None => NamespaceMap.add type_uri aliases
              end) as [[alias aliases']|e]; [|by exists e].
    simpl. rewrite Hcount. simpl. by eexists.
  - by exists e.
Qed.

Lemma unset_count_never_serialized_witness :
  ∃ e, FetchResponse.built_args Sample.mixed_response = Raise e
       ∧ FetchResponse.getExtensionArgs Sample.mixed_response = Raise e.
Proof.
  apply (unset_count_never_serialized _ Sample.mixed_request Sample.name
           (AttrInfo.new Sample.name None true (Some "nm")));
    [reflexivity | vm_compute; reflexivity | reflexivity].
Defined.

(** ** FetchResponse.getExtensionArgs: when the loop ends *)

Lemma for_each_Ok_inv {A B} (body : B → A → result A) l :
  ∀ acc r,
    for_each body l acc = Ok r →
    ∀ x, x ∈ l → ∃ acc1 acc2, body x acc1 = Ok acc2.
Proof.
  induction l as [|y l IH]; intros acc r Hrun x Hin.
  - by apply elem_of_nil in Hin.
  - apply for_each_Ok_cons in Hrun as (acc' & Hbody & Hrest).
    apply elem_of_cons in Hin as [->|Hin]; [by eauto|].
    by apply (IH _ _ Hrest).
Qed.

(** X17: when [FetchResponse.getExtensionArgs] ends without an exception,
    every attribute of the request has a count, and the response holds values
    for its type URI, no more than the count. *)
Theorem response_serialization_conditions (self : FetchResponse.t)
    (req : FetchRequest.t) :
  FetchResponse.request self = Some req →
  FetchResponse.getExtensionArgs self = Ok None →
  ∀ type_uri attribute,
    FetchRequest.requested_attributes req !! type_uri = Some attribute →
    ∃ c values,
      AttrInfo.count attribute = Some c
      ∧ FetchResponse.data self !! type_uri = Some values
      ∧ Py.len values ≤ c.
Proof.
  intros Hreq Hget type_uri attribute Hattr.
  unfold FetchResponse.getExtensionArgs in Hget.
  apply bind_Ok in Hget as (a & Hbuilt & _).
  unfold FetchResponse.built_args in Hbuilt. rewrite Hreq in Hbuilt.
  apply bind_Ok in Hbuilt as ([a' nm] & Hloop & _).
  destruct (for_each_Ok_inv _ _ _ _ Hloop (type_uri, attribute))
    as ([a1 nm1] & [a2 nm2] & Hbody); [by apply elem_of_map_to_list|].
  simpl in Hbody. unfold FetchResponse.emit_attribute in Hbody.
  apply bind_Ok in Hbody as (values & Hvalues & Hbody).
  apply bind_Ok in Hbody as ([alias nm'] & _ & Hbody).
  destruct (AttrInfo.count attribute) as [c|]; [|discriminate].
  simpl in Hbody. exists c, values. split; [done|].
  unfold getitem in Hvalues.
  destruct (FetchResponse.data self !! type_uri); [|discriminate].
  injection Hvalues as ->. split; [done|].
  destruct (Py.len values >? c) eqn:Hgt; [discriminate|]. lia.
Qed.

Lemma response_serialization_conditions_witness :
  ∃ c values,
    AttrInfo.count (AttrInfo.new Sample.email (Some 3) false None) = Some c
    ∧ FetchResponse.data Sample.counted_response !! Sample.email
      = Some values
    ∧ Py.len values ≤ c.
Proof.
  apply (response_serialization_conditions Sample.counted_response
           Sample.counted_request);
    [reflexivity | vm_compute; reflexivity | vm_compute; reflexivity].
Defined.

(** ** FetchResponse.parseExtensionArgs *)

(** X18: [FetchResponse.parseExtensionArgs] leaves the response as it was
    when it raises; on arguments with the mode [fetch_response] that
    [parseAXValues] reads, it replaces the data by what [parseAXValues]
    gives and the update URL by the one of the arguments, keeping the
    request; and it ends without an exception only so. *)
Theorem response_parse_spec (ax_args : option args)
    (self : FetchResponse.t) :
  (∀ e, (FetchResponse.parseExtensionArgs ax_args self).1 = Raise e →
        (FetchResponse.parseExtensionArgs ax_args self).2 = self)
  ∧ (∀ d singletons data',
       ax_args = Some d → d !! "mode" = Some "fetch_response" →
       parseAXValues d = Ok (singletons, data') →
       FetchResponse.parseExtensionArgs ax_args self
       = (Ok tt,
          FetchResponse.mk (FetchResponse.request self) data'
            (d !! "update_url")))
  ∧ ((FetchResponse.parseExtensionArgs ax_args self).1 = Ok tt →
     ∃ d singletons,
       ax_args = Some d ∧ d !! "mode" = Some "fetch_response"
       ∧ parseAXValues d
         = Ok (singletons,
               FetchResponse.data
                 (FetchResponse.parseExtensionArgs ax_args self).2)).
Proof.
  unfold FetchResponse.parseExtensionArgs, _checkMode, FetchResponse.mode.
  unfold mseq, mlift, mget, mput, mraise.
  destruct ax_args as [d|]; [|split_and!; [done|done|done]].
  destruct (decide (d !! "mode" = Some "fetch_response")) as [Hmode|Hmode];
    [|split_and!; [done| |done]].
  - destruct (parseAXValues d) as [[singletons data']|e] eqn:Hparse.
    + split_and!; [done| |].
      * intros ? ? ? [= <-] _ Hp. rewrite Hparse in Hp.
        by injection Hp as <- <-.
      * intros _. by exists d, singletons.
    + split_and!; [done| |done].
      intros ? ? ? [= <-] _ Hp. congruence.
  - by intros ? ? ? [= <-] ?.
Qed.

Lemma response_parse_spec_witness :
  FetchResponse.parseExtensionArgs (Some Sample.response_args)
    Sample.counted_response
  = (Ok tt,
     FetchResponse.mk (FetchResponse.request Sample.counted_response)
       {[ Sample.email := []; Sample.name := ["x"; "y"] ]}
       (Sample.response_args !! "update_url"))
  ∧ (FetchResponse.parseExtensionArgs (Some Sample.truncated_args)
       Sample.counted_response).2 = Sample.counted_response.
Proof.
  split.
  - destruct (response_parse_spec (Some Sample.response_args)
                Sample.counted_response) as (_ & Hok & _).
    apply (Hok Sample.response_args [Sample.email]);
      [reflexivity | vm_compute; reflexivity | vm_compute; reflexivity].
  - destruct (response_parse_spec (Some Sample.truncated_args)
                Sample.counted_response) as (Hfail & _ & _).
    apply (Hfail (KeyError "value.b.2")). vm_compute; reflexivity.
Defined.
